(** * SCOPE sales-prediction pipeline: a shallow embedding and its properties

    The development follows [TEST/scripts/sales_prediction_model.py] and
    [scope/utils/data_utils.py]: schema resolution, calendar completion,
    feature build (calendar features, external-factor join, forward fill),
    per-category feature preparation, forecast generation and the training
    fan-out of [main].

    Conventions of the embedding
    - a pandas [DataFrame] is column-major: an ordered list of named
      [Series]; pandas operations used by the source ([merge], [fillna],
      [dropna], [unique], [date_range], ...) are written out as list
      functions;
    - a Python exception is a value [Raise e] of the [result] monad;
    - a day-normalised [Timestamp] is the number of days since 1970-01-01
      (the source truncates transaction dates with [.dt.date]);
    - a number cell holds the rational its int64 or float64 value denotes;
      the one piece of float arithmetic of the pipeline, [Series.mean()],
      is a parameter [float_mean] of the definitions that reach it, and
      int64 sums wrap around;
    - a timestamp lies within the bounds of [datetime64[ns]]: the last
      representable day is 2262-04-11;
    - text is a string of bytes; [lower] is [str.lower()] on ASCII text,
      and the theorems about case are stated for ASCII text;
    - [print] calls and file writes are not modelled. *)

From Stdlib Require Import List String Ascii ZArith QArith Qreduction Bool Lia Arith Permutation Sorted.
Import ListNotations.
Local Open Scope string_scope.
Local Open Scope list_scope.
Local Open Scope Z_scope.

(** ** Exceptions and results *)

(** A Python exception, identified by the name of its class. *)
Inductive exn : Type := Exn (cls : string).

Definition ValueError : exn := Exn "ValueError".
Definition KeyError : exn := Exn "KeyError".
Definition IndexError : exn := Exn "IndexError".
Definition OutOfBoundsDatetime : exn := Exn "OutOfBoundsDatetime".

Inductive result (A : Type) : Type :=
| Ok (a : A)
| Raise (e : exn).
Arguments Ok {A} a.
Arguments Raise {A} e.

Definition bind {A B : Type} (r : result A) (k : A -> result B) : result B :=
  match r with
  | Ok a => k a
  | Raise e => Raise e
  end.

Notation "x <- c ;; k" := (bind c (fun x => k))
  (at level 61, c at next level, right associativity).

(** ** Cells, series and frames *)

(** A cell of a frame.  [NaN] stands for every missing marker of pandas
    (NaN, None, NaT). *)
Inductive cell : Type :=
| NaN
| Num (q : Q)
| Str (s : string)
| Day (d : Z).

Definition isna (c : cell) : bool :=
  match c with NaN => true | _ => false end.

Definition cell_eqb (a b : cell) : bool :=
  match a, b with
  | Num p, Num q => Qeq_bool p q
  | Str s, Str t => String.eqb s t
  | Day d, Day e => Z.eqb d e
  | _, _ => false
  end.

Inductive dtype : Type := Numeric | Object | Datetime.

Record Series : Type := mkSeries { dt : dtype; values : list cell }.

(** Ordered columns, each a name and a series. *)
Definition DataFrame : Type := list (string * Series).

Definition columns (df : DataFrame) : list string := map fst df.

(** [df[name]]: the first column of that name, [KeyError] when absent. *)
Fixpoint getitem (df : DataFrame) (name : string) : result Series :=
  match df with
  | [] => Raise KeyError
  | (n, s) :: rest => if String.eqb n name then Ok s else getitem rest name
  end.

(** ** Schema resolver *)

Module SchemaResolver.

Definition lower_ascii (c : ascii) : ascii :=
  let n := N_of_ascii c in
  if ((65 <=? n) && (n <=? 90))%N then ascii_of_N (n + 32) else c.

(** [str.lower()] on ASCII text (every byte below 128): A-Z go to a-z and
    every other byte stays. *)
Fixpoint lower (s : string) : string :=
  match s with
  | EmptyString => EmptyString
  | String c s' => String (lower_ascii c) (lower s')
  end.

(** [p in s] on strings: [p] occurs in [s] at some offset. *)
Fixpoint contains (s p : string) : bool :=
  String.prefix p s ||
  match s with
  | EmptyString => false
  | String _ s' => contains s' p
  end.

(** The test of the list comprehension:
    [pattern.lower() in col.lower()]. *)
Definition col_matches (pattern col : string) : bool :=
  contains (lower col) (lower pattern).

(** [find_column_by_pattern(df, patterns)], the same function in
    [sales_prediction_model.py], [external_factors.py] and
    [scope/utils/data_utils.py]. *)
Fixpoint find_column_by_pattern (df : DataFrame) (patterns : list string)
  : result string :=
  match patterns with
  | [] =>
      match columns df with
      | [] => Raise IndexError
      | c :: _ => Ok c
      end
  | pattern :: rest =>
      let matching_cols := filter (col_matches pattern) (columns df) in
      match matching_cols with
      | c :: _ => Ok c
      | [] => find_column_by_pattern df rest
      end
  end.

(** No pattern of [ps] matches any column of [cols]. *)
Definition none_match (ps cols : list string) : Prop :=
  forall p c, In p ps -> In c cols -> col_matches p c = false.

(** [c] is the first column of [cols] that matches [p]. *)
Definition first_match (p : string) (cols : list string) (c : string) : Prop :=
  exists before after,
    cols = before ++ c :: after /\
    col_matches p c = true /\
    forall c', In c' before -> col_matches p c' = false.

(** The three frames of [tests/test_utils.py]. *)
Definition test_match_frame : DataFrame :=
  [ ("customer_id", mkSeries Numeric [Num 1; Num 2; Num 3]);
    ("transaction_date",
     mkSeries Object [Str "2023-01-01"; Str "2023-01-02"; Str "2023-01-03"]);
    ("product_category",
     mkSeries Object [Str "handgun"; Str "rifle"; Str "ammunition"]) ].

Definition test_no_match_frame : DataFrame :=
  [ ("customer_id", mkSeries Numeric [Num 1; Num 2; Num 3]);
    ("transaction_id", mkSeries Numeric [Num 101; Num 102; Num 103]);
    ("product_category",
     mkSeries Object [Str "handgun"; Str "rifle"; Str "ammunition"]) ].

Definition test_multiple_frame : DataFrame :=
  [ ("transaction_date",
     mkSeries Object [Str "2023-01-01"; Str "2023-01-02"; Str "2023-01-03"]);
    ("delivery_date",
     mkSeries Object [Str "2023-01-03"; Str "2023-01-04"; Str "2023-01-05"]);
    ("product_category",
     mkSeries Object [Str "handgun"; Str "rifle"; Str "ammunition"]) ].

(** A frame in the manner of those tests, with one name capitalised. *)
Definition test_frame : DataFrame :=
  [ ("customer_id", mkSeries Numeric [Num 1; Num 2; Num 3]);
    ("Transaction_Date",
     mkSeries Object [Str "2023-01-01"; Str "2023-01-02"; Str "2023-01-03"]);
    ("delivery_date",
     mkSeries Object [Str "2023-01-03"; Str "2023-01-04"; Str "2023-01-05"]) ].

End SchemaResolver.

(** ** Calendar completer

    Lines 114-126 of [load_and_prepare_data].  [daily_sales] is the frame
    left by [groupby(['date', category_col]).agg(sum).reset_index()] and
    the renaming: three columns, one record per row. *)

Module CalendarCompleter.

Record SalesRecord : Type := mkSale {
  date : Z;
  category : string;
  quantity_sold : Q
}.

(** [Series.min()] and [Series.max()] of a date column: [None] is the
    [NaT] they give on an empty column. *)
Definition date_min (l : list Z) : option Z :=
  match l with
  | [] => None
  | d :: r => Some (fold_left Z.min r d)
  end.

Definition date_max (l : list Z) : option Z :=
  match l with
  | [] => None
  | d :: r => Some (fold_left Z.max r d)
  end.

(** The days [start], [start+1], ... , [n] of them. *)
Definition days_from (start : Z) (n : nat) : list Z :=
  map (fun k => start + Z.of_nat k) (seq 0 n).

(** [pd.date_range(start, end, freq='D')]; pandas raises
    [ValueError] when a bound is [NaT]. *)
Definition date_range (start stop : option Z) : result (list Z) :=
  match start, stop with
  | Some a, Some b => Ok (days_from a (Z.to_nat (b - a + 1)))
  | _, _ => Raise ValueError
  end.

(** [Series.unique()]: distinct values in order of first appearance. *)
Fixpoint unique (l : list string) : list string :=
  match l with
  | [] => []
  | x :: r => x :: filter (fun y => negb (String.eqb x y)) (unique r)
  end.

(** [pd.MultiIndex.from_product([all_dates, categories])] followed by
    [reset_index()]: one row per pair, dates outermost. *)
Definition from_product (all_dates : list Z) (cats : list string)
  : list (Z * string) :=
  list_prod all_dates cats.

Definition same_key (d : Z) (c : string) (r : SalesRecord) : bool :=
  (date r =? d) && String.eqb (category r) c.

(** [date_category_df.merge(daily_sales, on=['date', category_col],
    how='left')]: left order kept, one output row per matching right
    row, one row with a missing quantity when nothing matches. *)
Definition merge_sales (date_category_df : list (Z * string))
    (daily_sales : list SalesRecord) : list (Z * string * option Q) :=
  flat_map
    (fun dc : Z * string =>
       let (d, c) := dc in
       match filter (same_key d c) daily_sales with
       | [] => [(d, c, None)]
       | ms => map (fun r => (d, c, Some (quantity_sold r))) ms
       end)
    date_category_df.

(** [complete_sales['quantity_sold'].fillna(0)] *)
Definition fill_quantity (row : Z * string * option Q) : SalesRecord :=
  match row with
  | (d, c, Some q) => mkSale d c q
  | (d, c, None) => mkSale d c 0%Q
  end.

Definition complete (daily_sales : list SalesRecord)
  : result (list SalesRecord) :=
  let min_date := date_min (map date daily_sales) in
  let max_date := date_max (map date daily_sales) in
  all_dates <- date_range min_date max_date ;;
  let date_category_df :=
    from_product all_dates (unique (map category daily_sales)) in
  let complete_sales := merge_sales date_category_df daily_sales in
  Ok (map fill_quantity complete_sales).

Definition key (r : SalesRecord) : Z * string := (date r, category r).

(** The grid row of a pair when keys are unique: the quantity of the
    record of that key, 0 without one. *)
Definition cell_at (S : list SalesRecord) (dc : Z * string) : SalesRecord :=
  match filter (same_key (fst dc) (snd dc)) S with
  | [] => mkSale (fst dc) (snd dc) 0%Q
  | r :: _ => mkSale (fst dc) (snd dc) (quantity_sold r)
  end.

(** 2024-01-01 is day 19723. *)
Definition scenario_A : list SalesRecord := [mkSale 19723 "rifle" 2%Q].

Definition three_days : list SalesRecord :=
  [ mkSale 19725 "rifle" 2%Q; mkSale 19723 "handgun" 1%Q;
    mkSale 19723 "rifle" 4%Q ].

End CalendarCompleter.

(** ** Frame operations of pandas used by the later stages *)

Module Frame.

Definition nrows (df : DataFrame) : nat :=
  match df with
  | [] => 0%nat
  | (_, s) :: _ => List.length (values s)
  end.

(** [df[name] = s]: replaces the column of that name or appends one. *)
Fixpoint setitem (df : DataFrame) (name : string) (s : Series) : DataFrame :=
  match df with
  | [] => [(name, s)]
  | (n, x) :: rest =>
      if String.eqb n name then (n, s) :: rest
      else (n, x) :: setitem rest name s
  end.

Definition has_column (df : DataFrame) (name : string) : bool :=
  existsb (String.eqb name) (columns df).

(** [df.drop(labels, axis=1)]: [KeyError] when a label is not a column. *)
Definition drop (labels : list string) (df : DataFrame) : result DataFrame :=
  if forallb (has_column df) labels
  then Ok (filter (fun ns : string * Series =>
                     negb (existsb (String.eqb (fst ns)) labels)) df)
  else Raise KeyError.

(** [Series.dropna()] *)
Definition dropna (l : list cell) : list cell :=
  filter (fun c => negb (isna c)) l.

(** [Series.fillna(v)] *)
Definition fillna (v : cell) (l : list cell) : list cell :=
  map (fun c => if isna c then v else c) l.

(** [Series.fillna(method='ffill')]: a missing cell takes the last
    value seen above it; [last] is the value carried so far. *)
Fixpoint ffill_from (last : cell) (l : list cell) : list cell :=
  match l with
  | [] => []
  | c :: r =>
      if isna c then last :: ffill_from last r else c :: ffill_from c r
  end.

Definition ffill (l : list cell) : list cell := ffill_from NaN l.

(** The last present value of [l], [init] when there is none. *)
Definition last_known (init : cell) (l : list cell) : cell :=
  fold_left (fun acc c => if isna c then acc else c) l init.

(** Boolean indexing [s[mask]]. *)
Fixpoint select (mask : list bool) (l : list cell) : list cell :=
  match mask, l with
  | b :: m, c :: r => if b then c :: select m r else select m r
  | _, _ => []
  end.

(** The numbers of a column, missing cells skipped. *)
Definition nums (l : list cell) : list Q :=
  flat_map (fun c => match c with Num q => [q] | _ => [] end) l.

Definition Qsum (l : list Q) : Q := fold_right Qplus 0%Q l.

Section FloatMean.
(** [float_mean qs]: what pandas' float64 mean returns on a column whose
    present numbers are [qs], in row order; the rounding is the
    library's. *)
Variable float_mean : list Q -> Q.

(** [Series.mean()]: the mean of the present numbers, [NaN] when there is
    none. *)
Definition mean (l : list cell) : cell :=
  match nums l with
  | [] => NaN
  | qs => Num (float_mean qs)
  end.

End FloatMean.

(** The mean in exact arithmetic: the float64 mean of numbers whose sum
    and mean are integers below 2^53, as in the examples. *)
Definition exact_mean (qs : list Q) : Q :=
  Qred (Qsum qs / inject_Z (Z.of_nat (List.length qs))).

Definition cell_leb (a b : cell) : bool :=
  match a, b with
  | Num p, Num q => Qle_bool p q
  | Str s, Str t => String.leb s t
  | Day d, Day e => d <=? e
  | _, _ => true
  end.

Definition occurrences (c : cell) (l : list cell) : nat :=
  List.length (filter (cell_eqb c) l).

(** [a] comes before [b] among the modes of [l]: more frequent, or as
    frequent and not larger. *)
Definition beats (l : list cell) (a b : cell) : bool :=
  (occurrences b l <? occurrences a l)%nat ||
  ((occurrences a l =? occurrences b l)%nat && cell_leb a b).

(** [Series.mode()[0]]: the most frequent present value, the smallest
    one on a tie; [KeyError] on a column without a present value. *)
Definition mode0 (l : list cell) : result cell :=
  match dropna l with
  | [] => Raise KeyError
  | c :: r =>
      Ok (fold_left (fun best x => if beats (dropna l) x best then x else best)
                    r c)
  end.

(** Join keys compare like cells, and two missing keys match. *)
Definition key_eqb (a b : cell) : bool :=
  match a, b with
  | NaN, NaN => true
  | _, _ => cell_eqb a b
  end.

(** Positions, from [j] on, of the right keys equal to [k]. *)
Fixpoint matches_from (k : cell) (rk : list cell) (j : nat) : list nat :=
  match rk with
  | [] => []
  | c :: r =>
      if key_eqb k c then j :: matches_from k r (S j)
      else matches_from k r (S j)
  end.

(** The row indexer of a left join: for every left row, in order, its
    matching right rows, or no right row at all. *)
Definition left_indexer (lk rk : list cell) : list (nat * option nat) :=
  flat_map
    (fun ik : nat * cell =>
       match matches_from (snd ik) rk 0 with
       | [] => [(fst ik, None)]
       | js => map (fun j => (fst ik, Some j)) js
       end)
    (combine (seq 0 (List.length lk)) lk).

Definition take (idx : list nat) (l : list cell) : list cell :=
  map (fun i => nth i l NaN) idx.

Definition take_opt (idx : list (option nat)) (l : list cell) : list cell :=
  map (fun o => match o with Some j => nth j l NaN | None => NaN end) idx.

(** [left.merge(right, left_on=.., right_on=.., how='left')].  A key
    column named alike on both sides appears once; any other name
    present on both sides gets the suffixes [_x] and [_y]. *)
Definition merge (left right : DataFrame) (left_on right_on : string)
  : result DataFrame :=
  lk <- getitem left left_on ;;
  rk <- getitem right right_on ;;
  let idx := left_indexer (values lk) (values rk) in
  let right' :=
    if String.eqb left_on right_on
    then filter (fun ns : string * Series =>
                   negb (String.eqb (fst ns) right_on)) right
    else right in
  let lcols :=
    map (fun ns : string * Series =>
           ((if has_column right' (fst ns) then fst ns ++ "_x" else fst ns)%string,
            mkSeries (dt (snd ns)) (take (map fst idx) (values (snd ns)))))
        left in
  let rcols :=
    map (fun ns : string * Series =>
           ((if has_column left (fst ns) then fst ns ++ "_y" else fst ns)%string,
            mkSeries (dt (snd ns)) (take_opt (map snd idx) (values (snd ns)))))
        right' in
  Ok (lcols ++ rcols).

End Frame.

(** ** Feature builder

    Lines 128-141 of [load_and_prepare_data]. *)

Module FeatureBuilder.
Import CalendarCompleter Frame.

(** [Series.dt.dayofweek]: Monday is 0; 1970-01-01 was a Thursday. *)
Definition dayofweek (d : Z) : Z := (d + 3) mod 7.

(** Year, month and day of a day number (proleptic Gregorian). *)
Definition civil (z : Z) : Z * Z * Z :=
  let z := z + 719468 in
  let era := z / 146097 in
  let doe := z - era * 146097 in
  let yoe := (doe - doe / 1460 + doe / 36524 - doe / 146096) / 365 in
  let y := yoe + era * 400 in
  let doy := doe - (365 * yoe + yoe / 4 - yoe / 100) in
  let mp := (5 * doy + 2) / 153 in
  let d := doy - (153 * mp + 2) / 5 + 1 in
  let m := if mp <? 10 then mp + 3 else mp - 9 in
  ((if m <=? 2 then y + 1 else y), m, d).

Definition year (d : Z) : Z := fst (fst (civil d)).
Definition month (d : Z) : Z := snd (fst (civil d)).
Definition day (d : Z) : Z := snd (civil d).
Definition quarter (d : Z) : Z := (month d - 1) / 3 + 1.
Definition is_weekend (d : Z) : Z := if dayofweek d >=? 5 then 1 else 0.

(** A [.dt] accessor over a column; a missing date gives a missing
    value. *)
Definition dt_field (f : Z -> Z) (s : Series) : Series :=
  mkSeries Numeric
    (map (fun c => match c with Day d => Num (inject_Z (f d)) | _ => NaN end)
         (values s)).

(** [(df['dayofweek'] >= 5).astype(int)] *)
Definition weekend_flag (s : Series) : Series :=
  mkSeries Numeric
    (map (fun c => match c with
                   | Num q => Num (if Qle_bool 5 q then 1 else 0)
                   | _ => Num 0
                   end)
         (values s)).

Definition calendar_names : list string :=
  ["dayofweek"; "month"; "day"; "year"; "quarter"; "is_weekend"].

(** The six assignments [df['dayofweek'] = df['date'].dt.dayofweek],
    ..., shared by the feature build and the forecast. *)
Definition add_calendar (df : DataFrame) : result DataFrame :=
  d <- getitem df "date" ;;
  let df := setitem df "dayofweek" (dt_field dayofweek d) in
  d <- getitem df "date" ;;
  let df := setitem df "month" (dt_field month d) in
  d <- getitem df "date" ;;
  let df := setitem df "day" (dt_field day d) in
  d <- getitem df "date" ;;
  let df := setitem df "year" (dt_field year d) in
  d <- getitem df "date" ;;
  let df := setitem df "quarter" (dt_field quarter d) in
  w <- getitem df "dayofweek" ;;
  Ok (setitem df "is_weekend" (weekend_flag w)).

(** The six columns [add_calendar] derives from the date column [d]. *)
Definition calendar_of (d : Series) : DataFrame :=
  [ ("dayofweek", dt_field dayofweek d);
    ("month", dt_field month d);
    ("day", dt_field day d);
    ("year", dt_field year d);
    ("quarter", dt_field quarter d);
    ("is_weekend", weekend_flag (dt_field dayofweek d)) ].

(** The completed grid as a frame of three columns. *)
Definition to_frame (category_col : string) (rows : list SalesRecord)
  : DataFrame :=
  [ ("date", mkSeries Datetime (map (fun r => Day (date r)) rows));
    (category_col, mkSeries Object (map (fun r => Str (category r)) rows));
    ("quantity_sold",
     mkSeries Numeric (map (fun r => Num (quantity_sold r)) rows)) ].

(** [df[cols] = df[cols].fillna(method='ffill')] *)
Fixpoint ffill_columns (df : DataFrame) (cols : list string)
  : result DataFrame :=
  match cols with
  | [] => Ok df
  | c :: rest =>
      s <- getitem df c ;;
      ffill_columns (setitem df c (mkSeries (dt s) (ffill (values s)))) rest
  end.

Definition build_features (category_col : string)
    (complete_sales : list SalesRecord)
    (external_factors : DataFrame) (external_factors_date_col : string)
  : result DataFrame :=
  complete_sales <- add_calendar (to_frame category_col complete_sales) ;;
  complete_sales <-
    merge complete_sales external_factors "date" external_factors_date_col ;;
  let external_factor_cols :=
    filter (fun col => negb (String.eqb col external_factors_date_col))
           (columns external_factors) in
  ffill_columns complete_sales external_factor_cols.

(** The value of the factor column [fs] on day [d] in an external
    table with date column [ek]: the cell of the first row dated [d],
    missing when no row has that date. *)
Definition factor_on (ek fs : list cell) (d : Z) : cell :=
  match matches_from (Day d) ek 0 with
  | [] => NaN
  | j :: _ => nth j fs NaN
  end.

(** The columns of the grid before the join. *)
Definition grid_columns (category_col : string) : list string :=
  ["date"; category_col; "quantity_sold"] ++ calendar_names.

(** No column name is taken twice: the category column is none of the
    fixed names, and a column of the external table is either its date
    key named [date] or none of the grid's columns. *)
Definition names_ok (category_col : string) (external_factors : DataFrame)
    (external_factors_date_col : string) : bool :=
  negb (existsb (String.eqb category_col)
                (["date"; "quantity_sold"] ++ calendar_names)) &&
  forallb
    (fun n =>
       (String.eqb n external_factors_date_col &&
        String.eqb external_factors_date_col "date") ||
       negb (existsb (String.eqb n) (grid_columns category_col)))
    (columns external_factors).


(** [load_and_prepare_data] from the aggregated sales on. *)
Definition load_and_prepare_data (category_col : string)
    (daily_sales : list SalesRecord) (external_factors : DataFrame)
  : result DataFrame :=
  external_factors_date_col <-
    SchemaResolver.find_column_by_pattern external_factors ["date"] ;;
  complete_sales <- complete daily_sales ;;
  build_features category_col complete_sales external_factors
                 external_factors_date_col.

(** Scenario B: a factor known on 2024-01-01 and absent on
    2024-01-02. *)
Definition scenario_B_sales : list SalesRecord :=
  [mkSale 19723 "rifle" 2%Q; mkSale 19724 "handgun" 1%Q].

Definition scenario_B_factors : DataFrame :=
  [ ("date", mkSeries Datetime [Day 19723]);
    ("political_climate", mkSeries Numeric [Num 3]) ].



End FeatureBuilder.

(** ** Category model trainer: [prepare_features]

    Column labels of a frame are distinct, so the loop
    [for col in feature_data.columns] visits every column once. *)

Module Trainer.
Import Frame.

(** [df[category_col] == selected_category] *)
Definition category_mask (cat : Series) (selected_category : string)
  : list bool :=
  map (fun c => cell_eqb c (Str selected_category)) (values cat).

(** [df[mask]]: every column restricted to the selected rows. *)
Definition filter_rows (mask : list bool) (df : DataFrame) : DataFrame :=
  map (fun ns : string * Series =>
         (fst ns, mkSeries (dt (snd ns)) (select mask (values (snd ns)))))
      df.

(** [pd.api.types.is_numeric_dtype] *)
Definition is_numeric_dtype (s : Series) : bool :=
  match dt s with Numeric => true | _ => false end.

Section FloatMean.
Variable float_mean : list Q -> Q.

(** The body of the imputation loop for one column. *)
Definition impute (s : Series) : result Series :=
  if existsb isna (values s) then
    if is_numeric_dtype s
    then Ok (mkSeries (dt s) (fillna (mean float_mean (values s)) (values s)))
    else m <- mode0 (values s) ;;
         Ok (mkSeries (dt s) (fillna m (values s)))
  else Ok s.

Fixpoint impute_columns (feature_data : DataFrame) : result DataFrame :=
  match feature_data with
  | [] => Ok []
  | (col, s) :: rest =>
      s' <- impute s ;;
      rest' <- impute_columns rest ;;
      Ok ((col, s') :: rest')
  end.

Definition prepare_features (df : DataFrame) (category_col : string)
    (selected_category : string) : result (DataFrame * Series) :=
  cat <- getitem df category_col ;;
  let category_data :=
    filter_rows (category_mask cat selected_category) df in
  feature_data <- drop ["date"; category_col] category_data ;;
  feature_data <- impute_columns feature_data ;;
  X <- drop ["quantity_sold"] feature_data ;;
  y <- getitem feature_data "quantity_sold" ;;
  Ok (X, y).

End FloatMean.

(** Scenario C: ten rows of one category, one of them without its
    numeric factor, next to rows of another category. *)
Definition scenario_C : DataFrame :=
  [ ("date",
     mkSeries Datetime
       [Day 19723; Day 19723; Day 19724; Day 19724; Day 19725; Day 19726;
        Day 19727; Day 19728; Day 19729; Day 19730; Day 19731; Day 19732]);
    ("category",
     mkSeries Object
       [Str "rifle"; Str "handgun"; Str "rifle"; Str "handgun"; Str "rifle";
        Str "rifle"; Str "rifle"; Str "rifle"; Str "rifle"; Str "rifle";
        Str "rifle"; Str "rifle"]);
    ("quantity_sold",
     mkSeries Numeric
       [Num 2; Num 1; Num 0; Num 3; Num 1; Num 0; Num 4; Num 2; Num 1; Num 0;
        Num 5; Num 2]);
    ("political_climate",
     mkSeries Numeric
       [Num 1; Num 100; Num 2; Num 200; Num 3; NaN; Num 5; Num 6; Num 7;
        Num 8; Num 9; Num 4]);
    ("event",
     mkSeries Object
       [Str "none"; Str "expo"; NaN; Str "expo"; Str "none"; Str "sale";
        Str "none"; Str "sale"; Str "sale"; Str "none"; Str "expo";
        Str "none"]) ].

End Trainer.

(** ** Forecast generator

    The regressor is a parameter: [predict m X] is [model.predict(X)] of
    scikit-learn, which may raise. *)

Module Forecast.
Import CalendarCompleter Frame FeatureBuilder.

(** [data['date'].max()], [None] for [NaT]. *)
Definition series_max (s : Series) : option Z :=
  date_max (flat_map (fun c => match c with Day d => [d] | _ => [] end)
                     (values s)).

(** The last day of [datetime64[ns]]: 2262-04-11. *)
Definition max_day : Z := 106751.

(** [last_date + timedelta(days=1)]: [NaT] stays [NaT]; a day past the
    last representable one raises [OutOfBoundsDatetime]. *)
Definition next_day (t : option Z) : result (option Z) :=
  match t with
  | None => Ok None
  | Some d =>
      if d + 1 <=? max_day then Ok (Some (d + 1))
      else Raise OutOfBoundsDatetime
  end.

(** [pd.date_range(start=.., periods=..)]: [ValueError] on a [NaT]
    start, [OutOfBoundsDatetime] when the last day of the range is past
    the last representable one. *)
Definition date_range_periods (start : option Z) (periods : nat)
  : result (list Z) :=
  match start with
  | Some a =>
      if (periods =? 0)%nat || (a + Z.of_nat periods - 1 <=? max_day)
      then Ok (days_from a periods)
      else Raise OutOfBoundsDatetime
  | None => Raise ValueError
  end.

(** The names the source excludes when it collects the external-factor
    columns of [data]. *)
Definition non_factor_columns (category_col : string) : list string :=
  ["date"; category_col; "quantity_sold"; "dayofweek"; "month"; "day";
   "year"; "quarter"; "is_weekend"].

Definition external_factor_cols (data : DataFrame) (category_col : string)
  : list string :=
  filter (fun col =>
            negb (existsb (String.eqb col) (non_factor_columns category_col)))
         (columns data).

(** [data[col].dropna().iloc[-1] if not data[col].dropna().empty else 0] *)
Definition last_val (l : list cell) : cell :=
  match rev (dropna l) with
  | [] => Num 0
  | v :: _ => v
  end.

Definition scalar_dtype (c : cell) : dtype :=
  match c with
  | Str _ => Object
  | Day _ => Datetime
  | _ => Numeric
  end.

(** The loop [for col in external_factor_cols: forecast_df[col] =
    last_val], the scalar broadcast over the [days] rows. *)
Fixpoint hold_last (data forecast_df : DataFrame) (cols : list string)
    (days : nat) : result DataFrame :=
  match cols with
  | [] => Ok forecast_df
  | col :: rest =>
      s <- getitem data col ;;
      let v := last_val (values s) in
      hold_last data
        (setitem forecast_df col (mkSeries (scalar_dtype v) (repeat v days)))
        rest days
  end.

(** Lines 243-269 of [generate_forecast]: the future feature rows. *)
Definition future_features (data : DataFrame) (category_col : string)
    (days : nat) : result DataFrame :=
  d <- getitem data "date" ;;
  let last_date := series_max d in
  start <- next_day last_date ;;
  forecast_dates <- date_range_periods start days ;;
  let forecast_df := [("date", mkSeries Datetime (map Day forecast_dates))] in
  forecast_df <- add_calendar forecast_df ;;
  hold_last data forecast_df (external_factor_cols data category_col) days.

Section WithModel.
Variable Model : Type.
Variable predict : Model -> DataFrame -> result (list cell).

(** The feature matrix the loop hands to a model. *)
Definition X_forecast (forecast_df : DataFrame) : result DataFrame :=
  drop ["date"] forecast_df.

(** One turn of [for category, model in models.items()]. *)
Definition predict_step (forecast_df : DataFrame) (cm : string * Model)
  : result DataFrame :=
  X <- X_forecast forecast_df ;;
  y_forecast <- predict (snd cm) X ;;
  Ok (setitem forecast_df (fst cm) (mkSeries Numeric y_forecast)).

Fixpoint predict_loop (forecast_df : DataFrame)
    (models : list (string * Model)) : result DataFrame :=
  match models with
  | [] => Ok forecast_df
  | cm :: rest =>
      forecast_df <- predict_step forecast_df cm ;;
      predict_loop forecast_df rest
  end.

Definition generate_forecast (models : list (string * Model))
    (data : DataFrame) (category_col : string) (days : nat)
  : result DataFrame :=
  forecast_df <- future_features data category_col days ;;
  predict_loop forecast_df models.

End WithModel.

(** A regressor that accepts any matrix and predicts 0 on every row, as
    one fitted on arrays without feature names does. *)
Definition lenient_predict (m : unit) (X : DataFrame) : result (list cell) :=
  Ok (repeat (Num 0) (nrows X)).

(** A regressor that, as scikit-learn's does, refuses a matrix whose
    columns are not the ones it was fitted on; it predicts 0 on every
    row.  The model is its training schema ([feature_names_in_]). *)
Definition schema_eqb (a b : list string) : bool :=
  (List.length a =? List.length b)%nat &&
  forallb (fun p : string * string => String.eqb (fst p) (snd p)) (combine a b).

Definition checked_predict (schema : list string) (X : DataFrame)
  : result (list cell) :=
  if schema_eqb (columns X) schema
  then Ok (repeat (Num 0) (nrows X))
  else Raise ValueError.

(** Sales of two categories over five days, with one external factor
    known on two days and one never known. *)
Definition two_category_sales : list SalesRecord :=
  [ mkSale 19723 "accessories" 2%Q; mkSale 19723 "ammunition" 5%Q;
    mkSale 19724 "ammunition" 1%Q; mkSale 19727 "accessories" 4%Q ].

Definition two_factors : DataFrame :=
  [ ("date", mkSeries Datetime [Day 19723; Day 19724; Day 19725]);
    ("political_climate", mkSeries Numeric [Num 3; NaN; Num 4]);
    ("legislation_risk", mkSeries Numeric [NaN; NaN; NaN]) ].

(** The feature table [load_and_prepare_data] builds from them: ten
    rows, five for each category. *)
Definition prepared_data : DataFrame :=
  match load_and_prepare_data "category" two_category_sales two_factors with
  | Ok data => data
  | Raise _ => []
  end.

(** The columns of the training matrix [X] of either category. *)
Definition training_schema : list string :=
  ["dayofweek"; "month"; "day"; "year"; "quarter"; "is_weekend";
   "political_climate"; "legislation_risk"].

End Forecast.

(** ** The training fan-out of [main] *)

Module Main.
Import CalendarCompleter Frame FeatureBuilder Trainer Forecast.

(** [config/main_config.py] *)
Definition PRODUCT_CATEGORIES : list string :=
  ["accessories"; "ammunition"; "handgun"; "rifle"; "shotgun"].

(** [d[k] = v] on a dict kept in insertion order. *)
Fixpoint dict_set {V : Type} (d : list (string * V)) (k : string) (v : V)
  : list (string * V) :=
  match d with
  | [] => [(k, v)]
  | (k', v') :: rest =>
      if String.eqb k' k then (k', v) :: rest
      else (k', v') :: dict_set rest k v
  end.

Section WithRegressor.
Variable Model : Type.
(** [evaluate_model(RandomForestRegressor(..), X, y)['model']]: the
    fitted regressor, or the exception scikit-learn raises. *)
Variable evaluate_model : DataFrame -> Series -> result Model.
Variable predict : Model -> DataFrame -> result (list cell).
Variable float_mean : list Q -> Q.

(** The model files written so far, by file name. *)
Definition store : Type := list (string * Model).

(** [train_model]: prepares the slice, fits, and dumps the model to
    [sales_forecast_<category>.pkl]. *)
Definition train_model (category : string) (data : DataFrame)
    (category_col : string) (files : store) : result (Model * store) :=
  Xy <- prepare_features float_mean data category_col category ;;
  model <- evaluate_model (fst Xy) (snd Xy) ;;
  let model_path := ("sales_forecast_" ++ category ++ ".pkl")%string in
  Ok (model, dict_set files model_path model).

(** [for category in categories: models[category] = train_model(..)] *)
Fixpoint train_loop (categories : list string) (data : DataFrame)
    (category_col : string) (models : list (string * Model))
    (files : store) : result (list (string * Model) * store) :=
  match categories with
  | [] => Ok (models, files)
  | category :: rest =>
      r <- train_model category data category_col files ;;
      train_loop rest data category_col
                 (dict_set models category (fst r)) (snd r)
  end.

(** [main] from the aggregated sales on: the trained models, the
    files written, and the forecast. *)
Definition main (category_col : string) (daily_sales : list SalesRecord)
    (external_factors : DataFrame)
  : result (list (string * Model) * store * DataFrame) :=
  data <- load_and_prepare_data category_col daily_sales external_factors ;;
  ms <- train_loop PRODUCT_CATEGORIES data category_col [] [] ;;
  forecast <- generate_forecast Model predict (fst ms) data category_col 90 ;;
  Ok (fst ms, snd ms, forecast).

End WithRegressor.

(** A trainer that, as the five-fold cross-validation of
    [evaluate_model] does, refuses a slice of fewer than five rows; the
    fitted model is its training schema. *)
Definition schema_trainer (X : DataFrame) (y : Series)
  : result (list string) :=
  if (nrows X <? 5)%nat then Raise ValueError else Ok (columns X).

(** Sales over five days of the five configured categories and of one
    more. *)
Definition six_category_sales : list SalesRecord :=
  [ mkSale 19723 "accessories" 1%Q; mkSale 19723 "ammunition" 7%Q;
    mkSale 19723 "handgun" 2%Q; mkSale 19723 "rifle" 1%Q;
    mkSale 19723 "shotgun" 1%Q; mkSale 19723 "knife" 3%Q;
    mkSale 19727 "knife" 1%Q ].

Definition no_factors : DataFrame :=
  [("date", mkSeries Datetime [Day 19723])].

(** Their feature table: thirty rows, five for each of six categories. *)
Definition six_category_data : DataFrame :=
  match load_and_prepare_data "category" six_category_sales no_factors with
  | Ok data => data
  | Raise _ => []
  end.

End Main.

(** ** The words of the specification

    The notions the properties are stated with, written after the
    specification's words and independently of the functions above. *)

Module Spec.

(** Modelled from the spec: ASCII text, every byte below 128. *)
Definition ascii_char (c : ascii) : Prop := (N_of_ascii c < 128)%N.

(** Modelled from the spec: a text all of whose bytes are ASCII. *)
Fixpoint ascii_text (s : string) : Prop :=
  match s with
  | EmptyString => True
  | String c s' => ascii_char c /\ ascii_text s'
  end.

(** Modelled from the spec: two letters alike up to case. *)
Definition same_letter (a b : ascii) : Prop :=
  let x := N_of_ascii a in
  let y := N_of_ascii b in
  (x = y \/ (65 <= x <= 90 /\ y = x + 32) \/ (65 <= y <= 90 /\ x = y + 32))%N.

(** Modelled from the spec: two texts alike up to the case of their
    letters. *)
Fixpoint same_text (s t : string) : Prop :=
  match s, t with
  | EmptyString, EmptyString => True
  | String a s', String b t' => same_letter a b /\ same_text s' t'
  | _, _ => False
  end.

(** Modelled from the spec: [pattern] occurs in [name] as a
    case-insensitive substring. *)
Definition occurs_in (pattern name : string) : Prop :=
  exists before inside after,
    name = (before ++ inside ++ after)%string /\ same_text inside pattern.










(** Modelled from the spec: the sum of a list of integers. *)
Fixpoint total (l : list Z) : Z :=
  match l with
  | [] => 0
  | z :: r => z + total r
  end.

(** Modelled from the spec: an int64 value. *)
Definition int64 (z : Z) : Prop := - 2 ^ 63 <= z < 2 ^ 63.

(** Modelled from the spec: the joined sales rows that have a date and a
    category, as (date, category, quantity). *)
Definition complete_rows (rows : list (option Z * option string * Z))
  : list (Z * string * Z) :=
  flat_map (fun row =>
              match row with
              | (Some d, Some c, q) => [(d, c, q)]
              | _ => []
              end) rows.

(** Modelled from the spec: the quantities of the joined rows of day [d]
    and category [c]. *)
Definition sold_on (d : Z) (c : string)
    (rows : list (option Z * option string * Z)) : list Z :=
  map snd
      (filter (fun r => (fst (fst r) =? d) && String.eqb (snd (fst r)) c)
              (complete_rows rows)).

End Spec.

From Stdlib Require Import OrderedTypeEx.

(** ** Schema resolution up to case *)

Module ResolverCase.
Import SchemaResolver.

(** The value of a run, up to the case of the column it names. *)
Definition lower_result (r : result string) : result string :=
  match r with
  | Ok c => Ok (lower c)
  | Raise e => Raise e
  end.

End ResolverCase.

(** ** Dataset loader: [find_file]

    The same function in [sales_prediction_model.py],
    [external_factors.py] and [scope/utils/file_utils.py].  The file
    system is the predicate [os.path.exists]. *)

Module Loader.

Definition upper_ascii (c : ascii) : ascii :=
  let n := N_of_ascii c in
  if ((97 <=? n) && (n <=? 122))%N then ascii_of_N (n - 32) else c.

(** [str.capitalize()] on ASCII text: first character upper-cased, the
    rest lower-cased. *)
Definition capitalize (s : string) : string :=
  match s with
  | EmptyString => EmptyString
  | String c s' => String (upper_ascii c) (SchemaResolver.lower s')
  end.

Definition starts_with_sep (s : string) : bool :=
  match s with
  | String "/" _ => true
  | _ => false
  end.

Fixpoint ends_with_sep (s : string) : bool :=
  match s with
  | EmptyString => false
  | String c EmptyString => Ascii.eqb c "/"
  | String _ s' => ends_with_sep s'
  end.

(** [os.path.join(directory, filename)] of [posixpath]. *)
Definition path_join (directory filename : string) : string :=
  if starts_with_sep filename then filename
  else if (String.eqb directory "" || ends_with_sep directory)%bool
       then (directory ++ filename)%string
       else (directory ++ "/" ++ filename)%string.

Section FileSystem.
Variable exists_ : string -> bool.

Definition find_file (filename directory : string) : string :=
  let exact_path := path_join directory filename in
  if exists_ exact_path then exact_path
  else
    let lowercase_path :=
      path_join directory ("lowercase_" ++ filename)%string in
    if exists_ lowercase_path then lowercase_path
    else
      let capitalized_path := path_join directory (capitalize filename) in
      if exists_ capitalized_path then capitalized_path
      else exact_path.

End FileSystem.

(** [path.endswith(suffix)], used by the mocks of [tests/test_utils.py]. *)
Definition endswith (path suffix : string) : bool :=
  let n := String.length path in
  let m := String.length suffix in
  (m <=? n)%nat && String.eqb (String.substring (n - m) m path) suffix.

End Loader.

(** ** Sales aggregator

    Lines 102-112 of [load_and_prepare_data] (and of [load_data] in
    [external_factors.py], and [prepare_sales_data]): the two inner joins
    and the grouped sum.  Each table is given by the columns the source
    resolves in it; an id, a date or a category may be missing, and the
    quantity column is a column of whole numbers, which [read_csv] reads
    as int64.  The order of the rows an inner join returns differs
    between pandas versions; the grouped sum, which sorts its keys and
    adds modulo 2^64, makes it immaterial. *)

Module SalesAggregator.
Import CalendarCompleter Frame.

(** A row of [transactions]: its id and its day (the [date] column the
    source adds); either may be missing. *)
Record Transaction : Type := mkTransaction {
  transaction_id : option string;
  transaction_date : option Z
}.

(** A row of [transaction_items]; the quantity column is int64. *)
Record Item : Type := mkItem {
  item_transaction : option string;
  item_product : option string;
  quantity : Z
}.

(** A row of [products[[product_id_col, category_col]]]. *)
Record Product : Type := mkProduct {
  product_id : option string;
  product_category : option string
}.

(** Equality of join keys: [merge] matches a missing key with a missing
    key. *)
Definition id_eqb (a b : option string) : bool :=
  match a, b with
  | Some x, Some y => String.eqb x y
  | None, None => true
  | _, _ => false
  end.

Definition of_transaction (i : Item) (t : Transaction) : bool :=
  id_eqb (transaction_id t) (item_transaction i).

Definition of_product (i : Item) (p : Product) : bool :=
  id_eqb (product_id p) (item_product i).

(** [transaction_items.merge(transactions, on=transaction_id_col)]:
    an item is paired with every transaction of its id, and dropped when
    there is none. *)
Definition merge_transactions (transaction_items : list Item)
    (transactions : list Transaction) : list (Item * Transaction) :=
  flat_map (fun i => map (pair i) (filter (of_transaction i) transactions))
           transaction_items.

(** [sales_data.merge(products[[..]], on=product_id_col)] *)
Definition merge_products (sales_data : list (Item * Transaction))
    (products : list Product) : list (Item * Transaction * Product) :=
  flat_map (fun it => map (pair it) (filter (of_product (fst it)) products))
           sales_data.

(** The three columns the grouping reads off a joined row. *)
Definition sale_of (row : Item * Transaction * Product)
  : option Z * option string * Z :=
  (transaction_date (snd (fst row)), product_category (snd row),
   quantity (fst (fst row))).

Definition sales_rows (transaction_items : list Item)
    (transactions : list Transaction) (products : list Product)
  : list (option Z * option string * Z) :=
  map sale_of
      (merge_products (merge_transactions transaction_items transactions)
                      products).

Definition key_eqb (a b : Z * string) : bool :=
  (fst a =? fst b) && String.eqb (snd a) (snd b).

(** Group keys are ordered by date, then by category. *)
Definition key_ltb (a b : Z * string) : bool :=
  (fst a <? fst b) || ((fst a =? fst b) && String.ltb (snd a) (snd b)).

(** int64 addition wraps around. *)
Definition wrap64 (z : Z) : Z := (z + 2 ^ 63) mod 2 ^ 64 - 2 ^ 63.

(** A group: its key and the int64 sum of its rows so far. *)
Definition group : Type := (Z * string) * Z.

(** One row enters its group: the group's sum grows, or a new group is
    opened at its place in key order. *)
Fixpoint add_to_group (k : Z * string) (q : Z) (groups : list group)
  : list group :=
  match groups with
  | [] => [(k, wrap64 q)]
  | g :: rest =>
      if key_eqb k (fst g)
      then (fst g, wrap64 (snd g + q)) :: rest
      else if key_ltb k (fst g)
           then (k, wrap64 q) :: g :: rest
           else g :: add_to_group k q rest
  end.

(** [groupby] drops a row whose date or category is missing
    ([dropna=True], the default). *)
Definition add_row (groups : list group)
    (row : option Z * option string * Z) : list group :=
  match row with
  | (Some d, Some c, q) => add_to_group (d, c) q groups
  | _ => groups
  end.

Definition record_of (g : group) : SalesRecord :=
  mkSale (fst (fst g)) (snd (fst g)) (inject_Z (snd g)).

(** [groupby(['date', category_col]).agg({quantity_col: 'sum'})
    .reset_index()] and the renaming to [quantity_sold]. *)
Definition groupby_sum (rows : list (option Z * option string * Z))
  : list SalesRecord :=
  map record_of (fold_left add_row rows []).

Definition daily_sales (transaction_items : list Item)
    (transactions : list Transaction) (products : list Product)
  : list SalesRecord :=
  groupby_sum (sales_rows transaction_items transactions products).

Definition key_lt (a b : Z * string) : Prop := key_ltb a b = true.

(** Modelled from the spec: the summed quantity the records hold for key
    [k]. *)
Definition group_quantity (k : Z * string) (groups : list SalesRecord) : Q :=
  Qsum (map quantity_sold (filter (same_key (fst k) (snd k)) groups)).

(** Modelled from the spec: the sum the groups hold for key [k]. *)
Definition group_value (k : Z * string) (groups : list group) : Z :=
  Spec.total (map snd (filter (fun g => key_eqb k (fst g)) groups)).

Definition is_some {A} (o : option A) : bool :=
  match o with Some _ => true | None => false end.

(** Modelled from the spec: an item that has a dated transaction and a
    product with a category. *)
Definition joined (transactions : list Transaction) (products : list Product)
    (i : Item) : Prop :=
  exists t p,
    In t transactions /\ In p products /\
    transaction_id t = item_transaction i /\
    product_id p = item_product i /\
    transaction_date t <> None /\ product_category p <> None.

(** Modelled from the spec: the same, decided. *)
Definition joins (transactions : list Transaction) (products : list Product)
    (i : Item) : bool :=
  existsb (fun t => of_transaction i t && is_some (transaction_date t))
          transactions &&
  existsb (fun p => of_product i p && is_some (product_category p))
          products.

(** Scenario A: one transaction, one item, one product. *)
Definition scenario_A_transactions : list Transaction :=
  [mkTransaction (Some "T1") (Some 19723)].
Definition scenario_A_items : list Item :=
  [mkItem (Some "T1") (Some "P1") 2].
Definition scenario_A_products : list Product :=
  [mkProduct (Some "P1") (Some "rifle")].

(** Items of four transactions; one names an unknown transaction, one an
    unknown product, one a transaction without a date, one a product
    without a category. *)
Definition week_transactions : list Transaction :=
  [ mkTransaction (Some "T1") (Some 19725);
    mkTransaction (Some "T2") (Some 19723);
    mkTransaction (Some "T3") (Some 19723);
    mkTransaction (Some "T4") None ].
Definition week_items : list Item :=
  [ mkItem (Some "T1") (Some "P1") 2; mkItem (Some "T2") (Some "P2") 1;
    mkItem (Some "T3") (Some "P1") 3; mkItem (Some "T2") (Some "P1") 1;
    mkItem (Some "T9") (Some "P1") 5; mkItem (Some "T1") (Some "P7") 4;
    mkItem (Some "T4") (Some "P1") 7; mkItem (Some "T3") (Some "P3") 9 ].
Definition week_products : list Product :=
  [ mkProduct (Some "P1") (Some "rifle");
    mkProduct (Some "P2") (Some "handgun");
    mkProduct (Some "P3") None ].

(** Two sales of one day and category whose int64 sum overflows. *)
Definition overflowing_rows : list (option Z * option string * Z) :=
  [ (Some 19723, Some "rifle", 2 ^ 62); (Some 19723, Some "rifle", 2 ^ 62) ].

End SalesAggregator.

(** ** External-factor analysis: [TEST/scripts/external_factors.py] *)

Module ExternalFactors.
Import CalendarCompleter Frame FeatureBuilder.

(** [load_data] from the aggregated sales on: the left join with the
    external table, with no calendar completion and no fill. *)
Definition load_data (category_col : string)
    (daily_sales : list SalesRecord) (external_factors : DataFrame)
  : result (DataFrame * string) :=
  external_factors_date_col <-
    SchemaResolver.find_column_by_pattern external_factors ["date"] ;;
  merged_data <-
    merge (to_frame category_col daily_sales) external_factors
          "date" external_factors_date_col ;;
  Ok (merged_data, external_factors_date_col).

(** [strftime('%b')] of a month number. *)
Definition month_abbr (m : Z) : string :=
  nth (Z.to_nat (m - 1))
      ["Jan"; "Feb"; "Mar"; "Apr"; "May"; "Jun";
       "Jul"; "Aug"; "Sep"; "Oct"; "Nov"; "Dec"] "".

(** The dict of [analyze_seasonal_impact]; [Series.map] gives a missing
    value on a key the dict does not have. *)
Definition season_of (m : Z) : cell :=
  if (m =? 12) || (m =? 1) || (m =? 2) then Str "Winter"
  else if (m =? 3) || (m =? 4) || (m =? 5) then Str "Spring"
  else if (m =? 6) || (m =? 7) || (m =? 8) then Str "Summer"
  else if (m =? 9) || (m =? 10) || (m =? 11) then Str "Fall"
  else NaN.

Definition month_name_column (d : Series) : Series :=
  mkSeries Object
    (map (fun c => match c with
                   | Day x => Str (month_abbr (month x))
                   | _ => NaN
                   end) (values d)).

Definition season_column (d : Series) : Series :=
  mkSeries Object
    (map (fun c => match c with
                   | Day x => season_of (month x)
                   | _ => NaN
                   end) (values d)).

(** The two assignments by which [analyze_seasonal_impact] changes the
    table it is given, which is the caller's. *)
Definition add_seasons (data : DataFrame) : result DataFrame :=
  d <- getitem data "date" ;;
  let data := setitem data "month_name" (month_name_column d) in
  d <- getitem data "date" ;;
  Ok (setitem data "season" (season_column d)).

Definition event_patterns : list string :=
  ["event"; "promot"; "hunt"; "season"; "holiday"].

(** The columns [analyze_events_impact] takes for events: for each
    pattern in turn, the columns whose lower-cased name contains it. *)
Definition event_cols (data : DataFrame) : list string :=
  flat_map
    (fun pattern =>
       filter (fun col => SchemaResolver.contains (SchemaResolver.lower col)
                                                  pattern)
              (columns data))
    event_patterns.

(** Aggregated sales of three days and an external table that knows two
    of them. *)
Definition sparse_sales : list SalesRecord :=
  [ mkSale 19723 "handgun" 1%Q; mkSale 19723 "rifle" 4%Q;
    mkSale 19725 "rifle" 2%Q; mkSale 19727 "rifle" 3%Q ].

Definition sparse_factors : DataFrame :=
  [ ("Date", mkSeries Datetime [Day 19723; Day 19727]);
    ("political_climate", mkSeries Numeric [Num 3; Num 5]) ].

End ExternalFactors.

(** ** Theorems *)

(** *** Facts on lists shared by the stages *)

Module ListFacts.

Section Filter.
Context {A : Type}.
Variable f : A -> bool.

Lemma filter_nil_none (l : list A) :
  filter f l = [] -> forall x, In x l -> f x = false.
Proof.
  induction l as [|a l IH]; simpl; intros Hf x Hx; [contradiction|].
  destruct (f a) eqn:Ea; [discriminate|].
  destruct Hx as [->|Hx]; auto.
Qed.

Lemma none_filter_nil (l : list A) :
  (forall x, In x l -> f x = false) -> filter f l = [].
Proof.
  induction l as [|a l IH]; simpl; intros Hf; [reflexivity|].
  rewrite (Hf a) by (now left). apply IH. intros; apply Hf; now right.
Qed.

Lemma filter_head_first (l : list A) (c : A) (t : list A) :
  filter f l = c :: t ->
  exists before after,
    l = before ++ c :: after /\ f c = true /\
    forall x, In x before -> f x = false.
Proof.
  induction l as [|a l IH]; simpl; intros Hf; [discriminate|].
  destruct (f a) eqn:Ea.
  - inversion Hf; subst. exists [], l. repeat split; auto.
    intros x [].
  - destruct (IH Hf) as (b & af & -> & Hc & Hb).
    exists (a :: b), af. repeat split; auto.
    intros x [->|Hx]; auto.
Qed.

Lemma filter_singleton (l : list A) (x : A) :
  NoDup l -> In x l -> f x = true ->
  (forall y, In y l -> f y = true -> y = x) ->
  filter f l = [x].
Proof.
  induction l as [|a l IH]; intros Hnd Hin Hp Huniq; [contradiction|].
  inversion Hnd as [|? ? Hnotin Hnd']; subst. simpl.
  destruct (f a) eqn:Ea.
  - assert (a = x) by (apply Huniq; simpl; auto). subst a.
    f_equal. apply none_filter_nil.
    intros y Hy. destruct (f y) eqn:Ey; auto.
    assert (y = x) by (apply Huniq; simpl; auto). subst y. contradiction.
  - destruct Hin as [->|Hin]; [congruence|].
    apply IH; auto. intros y Hy. apply Huniq. now right.
Qed.
End Filter.

Lemma NoDup_list_prod {A B} (l : list A) (l' : list B) :
  NoDup l -> NoDup l' -> NoDup (list_prod l l').
Proof.
  intros Hl Hl'. induction Hl as [|a l Ha Hl IH]; simpl; [constructor|].
  apply NoDup_app; auto.
  - clear -Hl'. induction Hl' as [|b l' Hb Hl' IH]; simpl; constructor; auto.
    rewrite in_map_iff. intros (y & [= ->] & Hy). contradiction.
  - intros [x y] Hin1 Hin2. apply in_map_iff in Hin1.
    destruct Hin1 as (y' & [= -> ->] & _).
    apply in_prod_iff in Hin2. tauto.
Qed.

End ListFacts.

(** *** Schema resolver *)

Module SchemaResolverFacts.
Import SchemaResolver ListFacts.

Lemma found_in_columns df ps c :
  find_column_by_pattern df ps = Ok c -> In c (columns df).
Proof.
  induction ps as [|p ps IH]; simpl.
  - destruct (columns df); [discriminate|]. intros [= ->]. now left.
  - destruct (filter (col_matches p) (columns df)) as [|c' t] eqn:Ef; auto.
    intros [= ->].
    assert (Hin : In c (filter (col_matches p) (columns df)))
      by (rewrite Ef; now left).
    apply filter_In in Hin. tauto.
Qed.

Lemma fallback_first df ps :
  none_match ps (columns df) ->
  find_column_by_pattern df ps = find_column_by_pattern df [].
Proof.
  induction ps as [|p ps IH]; intros Hn; [reflexivity|].
  cbn [find_column_by_pattern].
  rewrite (none_filter_nil (col_matches p) (columns df)).
  - apply IH. intros q c Hq Hc. apply Hn; simpl; auto.
  - intros c Hc. apply Hn; simpl; auto.
Qed.

Lemma first_pattern_wins df skipped p later c :
  none_match skipped (columns df) ->
  first_match p (columns df) c ->
  find_column_by_pattern df (skipped ++ p :: later) = Ok c.
Proof.
  induction skipped as [|q qs IH]; intros Hn Hf; cbn [app find_column_by_pattern].
  - destruct Hf as (b & a & E & Hc & Hb). rewrite E, filter_app.
    rewrite (none_filter_nil (col_matches p) b Hb). simpl. now rewrite Hc.
  - rewrite (none_filter_nil (col_matches q) (columns df)).
    + apply IH; auto. intros r x Hr Hx. apply Hn; simpl; auto.
    + intros x Hx. apply Hn; simpl; auto.
Qed.

Lemma resolves_on_columns df ps :
  columns df <> [] -> exists c, find_column_by_pattern df ps = Ok c.
Proof.
  intros Hne. induction ps as [|p ps IH]; simpl.
  - destruct (columns df); [congruence|eauto].
  - destruct (filter (col_matches p) (columns df)); eauto.
Qed.

(** **** Matching, in the words of the specification *)

Lemma prefix_app p s :
  String.prefix p s = true <-> exists post, s = (p ++ post)%string.
Proof.
  revert s. induction p as [|a p IH]; intros s.
  - destruct s; cbn; split; eauto.
  - destruct s as [|b s]; cbn [String.prefix String.append].
    + split; [discriminate|]. intros (post & H). discriminate.
    + destruct (ascii_dec a b) as [->|Hne].
      * rewrite IH. split; intros (post & H); exists post; congruence.
      * split; [discriminate|]. intros (post & H). congruence.
Qed.

Lemma contains_app s p :
  contains s p = true <->
  exists before after, s = (before ++ p ++ after)%string.
Proof.
  induction s as [|c s IH].
  - cbn [contains]. rewrite orb_false_r, prefix_app. split.
    + intros (post & H). exists EmptyString, post. exact H.
    + intros (before & after & H). destruct before; [eauto|discriminate].
  - cbn [contains]. rewrite orb_true_iff, prefix_app, IH. split.
    + intros [(post & H)|(before & after & H)].
      * exists EmptyString, post. exact H.
      * exists (String c before), after. cbn. now rewrite H.
    + intros (before & after & H). destruct before as [|c' before].
      * left. eauto.
      * right. exists before, after. cbn in H. congruence.
Qed.

Lemma lower_ascii_code c :
  N_of_ascii (lower_ascii c) =
  (if ((65 <=? N_of_ascii c) && (N_of_ascii c <=? 90))%N
   then N_of_ascii c + 32 else N_of_ascii c)%N.
Proof.
  unfold lower_ascii. cbv zeta.
  destruct ((65 <=? N_of_ascii c) && (N_of_ascii c <=? 90))%N eqn:E;
    [|reflexivity].
  apply N_ascii_embedding. apply andb_true_iff in E. destruct E as [_ E].
  apply N.leb_le in E. lia.
Qed.

Lemma same_letter_lower a b :
  Spec.same_letter a b <-> lower_ascii a = lower_ascii b.
Proof.
  assert (Hinj : lower_ascii a = lower_ascii b <->
                 N_of_ascii (lower_ascii a) = N_of_ascii (lower_ascii b)).
  { split; [now intros ->|]. intros H.
    rewrite <- (ascii_N_embedding (lower_ascii a)), H.
    apply ascii_N_embedding. }
  rewrite Hinj, !lower_ascii_code. unfold Spec.same_letter. cbv zeta.
  pose proof (N_ascii_bounded a). pose proof (N_ascii_bounded b).
  assert (Hab : a = b <-> N_of_ascii a = N_of_ascii b).
  { split; [now intros ->|]. intros H'.
    rewrite <- (ascii_N_embedding a), H'. apply ascii_N_embedding. }
  destruct (N.leb_spec 65 (N_of_ascii a)), (N.leb_spec (N_of_ascii a) 90),
           (N.leb_spec 65 (N_of_ascii b)), (N.leb_spec (N_of_ascii b) 90);
    cbn [andb]; lia.
Qed.

Lemma same_text_lower s t : Spec.same_text s t <-> lower s = lower t.
Proof.
  revert t. induction s as [|a s IH]; intros [|b t]; cbn [Spec.same_text lower].
  - tauto.
  - split; [contradiction|discriminate].
  - split; [contradiction|discriminate].
  - rewrite same_letter_lower, IH. split.
    + intros [-> ->]. reflexivity.
    + intros [= H1 H2]. auto.
Qed.

Lemma lower_append a b : lower (a ++ b) = (lower a ++ lower b)%string.
Proof.
  induction a as [|c a IH]; cbn [lower String.append]; [reflexivity|].
  now rewrite IH.
Qed.

Lemma lower_split c a b :
  lower c = (a ++ b)%string ->
  exists c1 c2, c = (c1 ++ c2)%string /\ lower c1 = a /\ lower c2 = b.
Proof.
  revert c. induction a as [|x a IH]; intros c H.
  - exists EmptyString, c. auto.
  - destruct c as [|y c]; [discriminate|]. cbn in H.
    inversion H as [[Hx Hr]]. destruct (IH c Hr) as (c1 & c2 & -> & H1 & H2).
    exists (String y c1), c2. cbn. rewrite H1. auto.
Qed.

(** The test of the source is the specification's: the pattern occurs in
    the name as a case-insensitive substring. *)
Lemma col_matches_occurs p c : col_matches p c = true <-> Spec.occurs_in p c.
Proof.
  unfold col_matches, Spec.occurs_in. rewrite contains_app. split.
  - intros (before & after & H).
    destruct (lower_split _ _ _ H) as (c1 & r & -> & H1 & Hr).
    destruct (lower_split _ _ _ Hr) as (c2 & c3 & -> & H2 & H3).
    exists c1, c2, c3. split; [reflexivity|]. now apply same_text_lower.
  - intros (before & inside & after & -> & H). apply same_text_lower in H.
    exists (lower before), (lower after). now rewrite !lower_append, H.
Qed.

Lemma no_match_occurs (ps cols : list string) :
  none_match ps cols <->
  forall p c, In p ps -> In c cols -> ~ Spec.occurs_in p c.
Proof.
  unfold none_match. split; intros H p c Hp Hc.
  - rewrite <- col_matches_occurs. rewrite (H p c Hp Hc). discriminate.
  - destruct (col_matches p c) eqn:E; [|reflexivity].
    exfalso. apply (H p c Hp Hc). now apply col_matches_occurs.
Qed.

(** C5. On a table of ASCII names with at least one column and for ASCII
    patterns, [find_column_by_pattern] returns a name among the table's
    columns.  When some pattern occurs in a column name as a
    case-insensitive substring, the result is the first column, in column
    order, in which the first such pattern occurs; when no pattern
    occurs in any column name the result is the table's first column. *)
Theorem find_column_by_pattern_resolves (df : DataFrame) (P : list string)
    (Hcols : columns df <> [])
    (Hnames : forall c, In c (columns df) -> Spec.ascii_text c)
    (Hpatterns : forall p, In p P -> Spec.ascii_text p) :
  exists c,
    find_column_by_pattern df P = Ok c /\
    In c (columns df) /\
    (forall skipped p later,
        P = skipped ++ p :: later ->
        (forall q c', In q skipped -> In c' (columns df) ->
                      ~ Spec.occurs_in q c') ->
        (exists c', In c' (columns df) /\ Spec.occurs_in p c') ->
        exists before after,
          columns df = before ++ c :: after /\
          Spec.occurs_in p c /\
          forall c', In c' before -> ~ Spec.occurs_in p c') /\
    ((forall q c', In q P -> In c' (columns df) -> ~ Spec.occurs_in q c') ->
     Some c = hd_error (columns df)).
Proof.
  destruct (resolves_on_columns df P Hcols) as [c Hc].
  exists c. split; [exact Hc|].
  split; [eapply found_in_columns; eauto|]. split.
  - intros skipped p later -> Hn (c' & Hin & Hm).
    apply no_match_occurs in Hn. apply col_matches_occurs in Hm.
    destruct (filter (col_matches p) (columns df)) as [|c1 t] eqn:Ef.
    + rewrite (filter_nil_none _ _ Ef c' Hin) in Hm. discriminate.
    + pose proof (filter_head_first _ _ _ _ Ef) as Hfm.
      assert (Hf : first_match p (columns df) c1) by exact Hfm.
      rewrite (first_pattern_wins _ _ _ later _ Hn Hf) in Hc.
      inversion Hc; subst c1.
      destruct Hfm as (before & after & E & Hp & Hb).
      exists before, after. split; [exact E|].
      split; [now apply col_matches_occurs|].
      intros x Hx Ho. apply col_matches_occurs in Ho.
      rewrite (Hb x Hx) in Ho. discriminate.
  - intros Hn. apply no_match_occurs in Hn.
    rewrite (fallback_first _ _ Hn) in Hc. simpl in Hc.
    destruct (columns df); [congruence|]. inversion Hc; subst. reflexivity.
Qed.

Lemma find_column_by_pattern_resolves_witness :
  exists c,
    find_column_by_pattern test_frame ["time"; "DATE"] = Ok c /\
    In c (columns test_frame) /\
    (forall skipped p later,
        ["time"; "DATE"] = skipped ++ p :: later ->
        (forall q c', In q skipped -> In c' (columns test_frame) ->
                      ~ Spec.occurs_in q c') ->
        (exists c', In c' (columns test_frame) /\ Spec.occurs_in p c') ->
        exists before after,
          columns test_frame = before ++ c :: after /\
          Spec.occurs_in p c /\
          forall c', In c' before -> ~ Spec.occurs_in p c') /\
    ((forall q c', In q ["time"; "DATE"] -> In c' (columns test_frame) ->
                   ~ Spec.occurs_in q c') ->
     Some c = hd_error (columns test_frame)).
Proof.
  apply (find_column_by_pattern_resolves test_frame ["time"; "DATE"]).
  - simpl; discriminate.
  - intros c [<-|[<-|[<-|[]]]]; cbn; repeat split; reflexivity.
  - intros p [<-|[<-|[]]]; cbn; repeat split; reflexivity.
Defined.

(** The capitalised column is the one in which [DATE] occurs, ignoring
    case; [time] occurs in no column. *)
Example test_frame_resolved :
  find_column_by_pattern test_frame ["time"; "DATE"] = Ok "Transaction_Date" /\
  Spec.occurs_in "DATE" "Transaction_Date" /\
  ~ Spec.occurs_in "DATE" "customer_id".
Proof.
  split; [reflexivity|]. split.
  - exists "Transaction_", "Date", "". split; [reflexivity|].
    cbn. unfold Spec.same_letter. cbn. repeat split; lia.
  - intros H. apply col_matches_occurs in H. discriminate.
Qed.

(** The three cases of [tests/test_utils.py]. *)
Example test_find_column_by_pattern_match :
  find_column_by_pattern test_match_frame ["date"; "time"]
  = Ok "transaction_date".
Proof. reflexivity. Qed.

Example test_find_column_by_pattern_no_match :
  find_column_by_pattern test_no_match_frame ["date"; "time"]
  = Ok "customer_id".
Proof. reflexivity. Qed.

Example test_find_column_by_pattern_multiple_matches :
  find_column_by_pattern test_multiple_frame ["date"]
  = Ok "transaction_date".
Proof. reflexivity. Qed.

(** The capitalised name is found by a pattern in capitals. *)
Example find_column_by_pattern_case_insensitive :
  find_column_by_pattern test_frame ["time"; "DATE"] = Ok "Transaction_Date".
Proof. reflexivity. Qed.

(** A frame without columns has no first column to fall back on. *)
Example find_column_by_pattern_no_columns :
  find_column_by_pattern [] ["date"] = Raise IndexError.
Proof. reflexivity. Qed.

End SchemaResolverFacts.

(** *** Calendar completer *)

Module CalendarCompleterFacts.
Import CalendarCompleter ListFacts.

(** **** Bounds of the date column *)

Lemma fold_min_spec (r : list Z) (d : Z) :
  In (fold_left Z.min r d) (d :: r) /\
  forall x, In x (d :: r) -> fold_left Z.min r d <= x.
Proof.
  revert d. induction r as [|a r IH]; intros d; simpl.
  - split; [now left|]. intros x [->|[]]. lia.
  - destruct (IH (Z.min d a)) as [Hin Hle]. split.
    + destruct Hin as [Hin|Hin]; [|now right; right].
      rewrite <- Hin. destruct (Z.min_spec d a) as [[_ ->]|[_ ->]]; auto.
    + intros x Hx.
      assert (Hm : fold_left Z.min r (Z.min d a) <= Z.min d a)
        by (apply Hle; now left).
      destruct Hx as [->|[->|Hx]]; [lia|lia|]. apply Hle. now right.
Qed.

Lemma fold_max_spec (r : list Z) (d : Z) :
  In (fold_left Z.max r d) (d :: r) /\
  forall x, In x (d :: r) -> x <= fold_left Z.max r d.
Proof.
  revert d. induction r as [|a r IH]; intros d; simpl.
  - split; [now left|]. intros x [->|[]]. lia.
  - destruct (IH (Z.max d a)) as [Hin Hle]. split.
    + destruct Hin as [Hin|Hin]; [|now right; right].
      rewrite <- Hin. destruct (Z.max_spec d a) as [[_ ->]|[_ ->]]; auto.
    + intros x Hx.
      assert (Hm : Z.max d a <= fold_left Z.max r (Z.max d a))
        by (apply Hle; now left).
      destruct Hx as [->|[->|Hx]]; [lia|lia|]. apply Hle. now right.
Qed.

Lemma date_min_least (l : list Z) (lo : Z) :
  In lo l -> (forall d, In d l -> lo <= d) -> date_min l = Some lo.
Proof.
  destruct l as [|d r]; [contradiction|]. intros Hin Hle. simpl.
  destruct (fold_min_spec r d) as [Hm Hmle].
  f_equal. apply Z.le_antisymm; auto.
Qed.

Lemma date_max_greatest (l : list Z) (hi : Z) :
  In hi l -> (forall d, In d l -> d <= hi) -> date_max l = Some hi.
Proof.
  destruct l as [|d r]; [contradiction|]. intros Hin Hle. simpl.
  destruct (fold_max_spec r d) as [Hm Hmle].
  f_equal. apply Z.le_antisymm; auto.
Qed.

(** **** The daily range *)

Lemma length_days_from a n : List.length (days_from a n) = n.
Proof. unfold days_from. now rewrite length_map, length_seq. Qed.

Lemma in_days_from a n d :
  In d (days_from a n) <-> a <= d < a + Z.of_nat n.
Proof.
  unfold days_from. rewrite in_map_iff. split.
  - intros (k & <- & Hk). apply in_seq in Hk. lia.
  - intros Hd. exists (Z.to_nat (d - a)). split; [lia|].
    apply in_seq. lia.
Qed.

Lemma NoDup_days_from a n : NoDup (days_from a n).
Proof.
  unfold days_from. generalize 0%nat as s.
  induction n as [|n IH]; intros s; simpl; constructor; auto.
  rewrite in_map_iff. intros (k & Hk & Hin). apply in_seq in Hin. lia.
Qed.

(** **** Distinct categories *)

Lemma in_unique l x : In x (unique l) <-> In x l.
Proof.
  induction l as [|a l IH]; simpl; [tauto|].
  rewrite filter_In, IH. split.
  - intros [->|[H _]]; auto.
  - intros [->|H]; auto.
    destruct (String.eqb a x) eqn:E.
    + apply String.eqb_eq in E. auto.
    + right. split; [exact H | reflexivity].
Qed.

Lemma NoDup_unique l : NoDup (unique l).
Proof.
  induction l as [|a l IH]; simpl; constructor.
  - rewrite filter_In. cbv beta. rewrite String.eqb_refl. intros [_ H]. discriminate.
  - now apply NoDup_filter.
Qed.

Lemma length_unique l :
  List.length (unique l) = List.length (nodup string_dec l).
Proof.
  apply Permutation_length, NoDup_Permutation.
  - apply NoDup_unique.
  - apply NoDup_nodup.
  - intros x. now rewrite in_unique, nodup_In.
Qed.

(** **** The left join on unique keys *)

Lemma same_key_iff d c r : same_key d c r = true <-> key r = (d, c).
Proof.
  unfold same_key, key. rewrite andb_true_iff, Z.eqb_eq, String.eqb_eq.
  split; [intros [-> ->]; reflexivity | intros [= -> ->]; auto].
Qed.

Lemma unique_key_match (S : list SalesRecord) d c :
  NoDup (map key S) ->
  filter (same_key d c) S = [] \/
  exists r, filter (same_key d c) S = [r] /\ In r S /\ key r = (d, c).
Proof.
  induction S as [|a S IH]; intros Hnd; [now left|].
  inversion Hnd as [|? ? Hnotin Hnd']; subst. simpl.
  destruct (same_key d c a) eqn:Ea.
  - right. exists a. apply same_key_iff in Ea. repeat split; auto.
    f_equal. apply none_filter_nil. intros x Hx.
    destruct (same_key d c x) eqn:Ex; auto.
    apply same_key_iff in Ex. exfalso. apply Hnotin.
    rewrite Ea, <- Ex. now apply in_map.
  - destruct (IH Hnd') as [E|(r & E & Hin & Hk)]; [now left|].
    right. exists r. auto.
Qed.

Lemma merge_on_unique_keys (S : list SalesRecord) (grid : list (Z * string)) :
  NoDup (map key S) ->
  map fill_quantity (merge_sales grid S) = map (cell_at S) grid.
Proof.
  intros Hnd. induction grid as [|[d c] grid IH]; [reflexivity|].
  change (merge_sales ((d, c) :: grid) S)
    with (match filter (same_key d c) S with
          | [] => [(d, c, None)]
          | ms => map (fun r => (d, c, Some (quantity_sold r))) ms
          end ++ merge_sales grid S).
  rewrite map_app, IH. cbn [map]. unfold cell_at at 2. cbn [fst snd].
  destruct (unique_key_match S d c Hnd) as [E|(r & E & _)]; rewrite E;
    reflexivity.
Qed.

Lemma cell_at_key S dc : key (cell_at S dc) = dc.
Proof.
  unfold cell_at. destruct dc as [d c]; cbn [fst snd].
  destruct (filter (same_key d c) S); reflexivity.
Qed.


(** C1 (as the code has it). On an empty sales frame the grid step
    returns no grid: [min]/[max] of the empty date column are [NaT] and
    [pd.date_range] raises its [ValueError]. *)
Theorem complete_empty_raises_ValueError :
  complete [] = Raise ValueError /\
  forall grid, complete [] <> Ok grid.
Proof. split; [reflexivity | intros grid; discriminate]. Qed.

(** C1 as stated fails: the exception raised on the empty input is not
    an [EmptyInputError]. *)
Lemma complete_empty_not_EmptyInputError :
  complete [] <> Raise (Exn "EmptyInputError").
Proof. discriminate. Qed.




(** The grid of [three_days]: three days by two categories. *)
Example three_days_grid :
  complete three_days
  = Ok [ mkSale 19723 "rifle" 4%Q; mkSale 19723 "handgun" 1%Q;
         mkSale 19724 "rifle" 0%Q; mkSale 19724 "handgun" 0%Q;
         mkSale 19725 "rifle" 2%Q; mkSale 19725 "handgun" 0%Q ].
Proof. reflexivity. Qed.

(** Scenario A: one sale of one category on one day gives a grid of
    exactly that cell. *)
Example scenario_A_grid :
  complete scenario_A = Ok [mkSale 19723 "rifle" 2%Q].
Proof. reflexivity. Qed.

End CalendarCompleterFacts.

(** *** Frames: columns, forward fill *)

Module FrameFacts.
Import Frame ListFacts.

(** **** Reading and writing columns *)

Lemma getitem_setitem_same df n s : getitem (setitem df n s) n = Ok s.
Proof.
  induction df as [|[m x] df IH]; simpl.
  - now rewrite String.eqb_refl.
  - destruct (String.eqb m n) eqn:E; simpl; rewrite E; auto.
Qed.

Lemma getitem_setitem_other df n m s :
  n <> m -> getitem (setitem df n s) m = getitem df m.
Proof.
  intros Hne. induction df as [|[k x] df IH]; simpl.
  - apply String.eqb_neq in Hne. now rewrite Hne.
  - destruct (String.eqb k n) eqn:E; simpl.
    + apply String.eqb_eq in E. subst k.
      apply String.eqb_neq in Hne. now rewrite Hne.
    + destruct (String.eqb k m); auto.
Qed.

Lemma getitem_In df n s : getitem df n = Ok s -> In n (columns df).
Proof.
  induction df as [|[k x] df IH]; simpl; [discriminate|].
  destruct (String.eqb k n) eqn:E; auto.
  apply String.eqb_eq in E. auto.
Qed.

Lemma In_getitem df n : In n (columns df) -> exists s, getitem df n = Ok s.
Proof.
  induction df as [|[k x] df IH]; simpl; [contradiction|].
  intros [->|Hin].
  - rewrite String.eqb_refl. eauto.
  - destruct (String.eqb k n); eauto.
Qed.

Lemma getitem_not_In {df n} :
  ~ In n (columns df) -> getitem df n = Raise KeyError.
Proof.
  induction df as [|[k x] df IH]; simpl; [reflexivity|].
  intros Hn. destruct (String.eqb k n) eqn:E.
  - apply String.eqb_eq in E. tauto.
  - apply IH. tauto.
Qed.

Lemma getitem_app_l df df' n s :
  getitem df n = Ok s -> getitem (df ++ df') n = Ok s.
Proof.
  induction df as [|[k x] df IH]; simpl; [discriminate|].
  destruct (String.eqb k n); auto.
Qed.

Lemma getitem_app_r df df' n :
  ~ In n (columns df) -> getitem (df ++ df') n = getitem df' n.
Proof.
  induction df as [|[k x] df IH]; simpl; [reflexivity|].
  intros Hn. destruct (String.eqb k n) eqn:E.
  - apply String.eqb_eq in E. tauto.
  - apply IH. tauto.
Qed.

Lemma setitem_same df n s : getitem df n = Ok s -> setitem df n s = df.
Proof.
  induction df as [|[k x] df IH]; simpl; [discriminate|].
  destruct (String.eqb k n) eqn:E.
  - now intros [= ->].
  - intros H. now rewrite IH.
Qed.

Lemma columns_setitem_present df n s :
  In n (columns df) -> columns (setitem df n s) = columns df.
Proof.
  induction df as [|[k x] df IH]; simpl; [contradiction|].
  intros Hin. destruct (String.eqb k n) eqn:E; simpl; [reflexivity|].
  f_equal. apply IH. destruct Hin as [->|Hin]; auto.
  now rewrite String.eqb_refl in E.
Qed.

Lemma columns_setitem_absent df n s :
  ~ In n (columns df) -> setitem df n s = df ++ [(n, s)].
Proof.
  induction df as [|[k x] df IH]; simpl; [reflexivity|].
  intros Hn. destruct (String.eqb k n) eqn:E.
  - apply String.eqb_eq in E. tauto.
  - f_equal. apply IH. tauto.
Qed.

Lemma has_column_iff df n : has_column df n = true <-> In n (columns df).
Proof.
  unfold has_column. rewrite existsb_exists. split.
  - intros (x & Hx & E). apply String.eqb_eq in E. now subst.
  - intros H. exists n. split; auto. apply String.eqb_refl.
Qed.

Lemma has_column_false df n : has_column df n = false <-> ~ In n (columns df).
Proof.
  rewrite <- has_column_iff. destruct (has_column df n); split; intros;
    congruence.
Qed.

(** **** Forward fill *)

Lemma ffill_from_idem last l :
  ffill_from last (ffill_from last l) = ffill_from last l.
Proof.
  revert last. induction l as [|c r IH]; intros last; [reflexivity|].
  simpl. destruct (isna c) eqn:Ec; simpl.
  - destruct (isna last); now rewrite IH.
  - now rewrite Ec, IH.
Qed.

Lemma length_ffill_from last l :
  List.length (ffill_from last l) = List.length l.
Proof.
  revert last. induction l as [|c r IH]; intros last; simpl; auto.
  destruct (isna c); simpl; now rewrite IH.
Qed.

Lemma ffilled_column_kept df cols df' c s :
  FeatureBuilder.ffill_columns df cols = Ok df' ->
  getitem df c = Ok s -> ffill (values s) = values s ->
  getitem df' c = Ok s.
Proof.
  revert df. induction cols as [|k cols IH]; intros df; simpl.
  - now intros [= ->].
  - destruct (getitem df k) as [x|e] eqn:Ek; simpl; [|discriminate].
    intros Hrun Hc Hfix. apply (IH _ Hrun); auto.
    destruct (string_dec k c) as [->|Hne].
    + rewrite getitem_setitem_same. rewrite Hc in Ek. inversion Ek; subst x.
      rewrite Hfix. now destruct s.
    + now rewrite getitem_setitem_other.
Qed.

Lemma ffill_columns_fills df cols df' c :
  FeatureBuilder.ffill_columns df cols = Ok df' -> In c cols ->
  exists s, getitem df' c = Ok s /\ ffill (values s) = values s.
Proof.
  revert df. induction cols as [|k cols IH]; intros df; simpl; [tauto|].
  destruct (getitem df k) as [x|e] eqn:Ek; simpl; [|discriminate].
  intros Hrun [->|Hin]; [|eauto].
  eexists. split.
  - eapply ffilled_column_kept; [exact Hrun | apply getitem_setitem_same |].
    apply ffill_from_idem.
  - apply ffill_from_idem.
Qed.

(** C8. Forward fill is idempotent: on a column, [ffill (ffill l)] is
    [ffill l]; on a frame, filling again the columns that
    [load_and_prepare_data] has filled returns the same frame. *)
Theorem ffill_idempotent :
  (forall l : list cell, ffill (ffill l) = ffill l) /\
  (forall df cols df',
      FeatureBuilder.ffill_columns df cols = Ok df' ->
      FeatureBuilder.ffill_columns df' cols = Ok df').
Proof.
  split; [intros l; apply ffill_from_idem|].
  intros df cols df' Hrun.
  assert (Hall : forall c, In c cols ->
            exists s, getitem df' c = Ok s /\ ffill (values s) = values s)
    by (intros c Hc; eapply ffill_columns_fills; eauto).
  clear Hrun df. induction cols as [|k cols IH]; [reflexivity|].
  simpl. destruct (Hall k (or_introl eq_refl)) as (s & Hs & Hfix).
  rewrite Hs. simpl. rewrite Hfix.
  replace {| dt := dt s; values := values s |} with s by (now destruct s).
  rewrite (setitem_same _ _ _ Hs). apply IH.
  intros c Hc. apply Hall. now right.
Qed.

Lemma ffill_idempotent_witness :
  let df := [("political_climate",
              mkSeries Numeric [NaN; Num 3; NaN; Num 4; NaN])] in
  let df' := [("political_climate",
               mkSeries Numeric [NaN; Num 3; Num 3; Num 4; Num 4])] in
  FeatureBuilder.ffill_columns df ["political_climate"] = Ok df' /\
  FeatureBuilder.ffill_columns df' ["political_climate"] = Ok df'.
Proof.
  split; [reflexivity|].
  apply (proj2 ffill_idempotent
           [("political_climate",
             mkSeries Numeric [NaN; Num 3; NaN; Num 4; NaN])]).
  reflexivity.
Defined.

End FrameFacts.

(** *** Forward fill along a column ordered by date *)

Module FillFacts.
Import Frame ListFacts.

Lemma last_known_app a l1 l2 :
  last_known a (l1 ++ l2) = last_known (last_known a l1) l2.
Proof. unfold last_known. apply fold_left_app. Qed.



(** The filled cell at a position is the last present value up to it. *)
Lemma nth_ffill_from a l i :
  (i < List.length l)%nat ->
  nth i (ffill_from a l) NaN = last_known a (firstn (S i) l).
Proof.
  revert a i. induction l as [|c r IH]; intros a i Hi; simpl in Hi; [lia|].
  destruct i as [|i].
  - simpl. destruct (isna c); reflexivity.
  - change (firstn (S (S i)) (c :: r)) with (c :: firstn (S i) r).
    simpl ffill_from. simpl last_known.
    destruct (isna c); simpl nth; apply IH; lia.
Qed.


(** **** Sorted dates *)



Section Carry.
Variable g : Z -> cell.




End Carry.

End FillFacts.

(** *** Feature builder *)

Module FeatureBuilderFacts.
Import CalendarCompleter Frame FeatureBuilder.
Import ListFacts FrameFacts FillFacts CalendarCompleterFacts.

(** **** The row indexer on unique right keys *)

Lemma key_eqb_day d c : key_eqb (Day d) c = true -> c = Day d.
Proof.
  destruct c; simpl; try discriminate.
  intros H. apply Z.eqb_eq in H. now subst.
Qed.








(** **** Columns of mapped and filtered frames *)


(** **** Filling the listed columns *)


(** **** Calendar columns *)

Lemma setitem_app_fresh (df extra : DataFrame) n s :
  ~ In n (columns df) -> ~ In n (columns extra) ->
  setitem (df ++ extra) n s = df ++ extra ++ [(n, s)].
Proof.
  intros H1 H2. rewrite columns_setitem_absent, <- app_assoc; auto.
  unfold columns. rewrite map_app, in_app_iff. tauto.
Qed.

Lemma add_calendar_fresh (df : DataFrame) (d : Series) :
  getitem df "date" = Ok d ->
  (forall n, In n calendar_names -> ~ In n (columns df)) ->
  add_calendar df = Ok (df ++ calendar_of d).
Proof.
  intros Hd Hfresh. unfold add_calendar, calendar_names in *.
  assert (Hnot : forall n extra,
            In n ["dayofweek"; "month"; "day"; "year"; "quarter"; "is_weekend"] ->
            ~ In n (columns extra) ->
            forall s, setitem (df ++ extra) n s = df ++ extra ++ [(n, s)]).
  { intros n extra Hn He s. apply setitem_app_fresh; auto. }
  rewrite Hd. cbn [bind].
  rewrite (columns_setitem_absent df "dayofweek")
    by (apply Hfresh; simpl; auto).
  rewrite (getitem_app_l _ _ _ _ Hd). cbn [bind app].
  rewrite Hnot by (simpl; intuition discriminate).
  rewrite (getitem_app_l _ _ _ _ Hd). cbn [bind app].
  rewrite Hnot by (simpl; intuition discriminate).
  rewrite (getitem_app_l _ _ _ _ Hd). cbn [bind app].
  rewrite Hnot by (simpl; intuition discriminate).
  rewrite (getitem_app_l _ _ _ _ Hd). cbn [bind app].
  rewrite Hnot by (simpl; intuition discriminate).
  rewrite getitem_app_r by (apply Hfresh; simpl; auto).
  cbn [getitem String.eqb Ascii.eqb Bool.eqb bind app].
  rewrite Hnot by (simpl; intuition discriminate).
  reflexivity.
Qed.

(** **** The join with the external factors *)


Lemma getitem_map_values (h : Series -> Series) (df : DataFrame) n :
  getitem (map (fun ns : string * Series => (fst ns, h (snd ns))) df) n =
  match getitem df n with
  | Ok s => Ok (h s)
  | Raise e => Raise e
  end.
Proof.
  induction df as [|[k x] df IH]; simpl; [reflexivity|].
  destruct (String.eqb k n); auto.
Qed.


Lemma in_columns_filter_other (df : DataFrame) e m :
  In m (columns
          (filter (fun ns : string * Series => negb (String.eqb (fst ns) e)) df))
  <-> m <> e /\ In m (columns df).
Proof.
  unfold columns. rewrite !in_map_iff. split.
  - intros ([k x] & <- & Hin). apply filter_In in Hin. destruct Hin as [Hin Hne].
    cbn [fst] in *. split.
    + intros ->. now rewrite String.eqb_refl in Hne.
    + exists (k, x). auto.
  - intros (Hne & [k x] & <- & Hin). exists (k, x). split; auto.
    apply filter_In. split; auto. cbn [fst] in *.
    apply String.eqb_neq in Hne. now rewrite Hne.
Qed.

(** **** The dates of the completed grid are in order *)







Lemma complete_nonempty (S : list SalesRecord) :
  S <> [] -> exists grid, complete S = Ok grid.
Proof.
  destruct S as [|r S]; [congruence|]. intros _. unfold complete.
  cbn [map date_min date_max date_range bind]. eauto.
Qed.

(** **** The feature frame *)

Lemma existsb_eqb_In x l : existsb (String.eqb x) l = true <-> In x l.
Proof.
  rewrite existsb_exists. split.
  - intros (y & Hy & E). apply String.eqb_eq in E. now subst.
  - intros H. exists x. split; auto. apply String.eqb_refl.
Qed.

Lemma names_ok_category cc ext edc :
  names_ok cc ext edc = true ->
  ~ In cc (["date"; "quantity_sold"] ++ calendar_names).
Proof.
  unfold names_ok. rewrite andb_true_iff, negb_true_iff.
  intros [H _] Hin. apply existsb_eqb_In in Hin. congruence.
Qed.

Lemma names_ok_external cc ext edc m :
  names_ok cc ext edc = true -> In m (columns ext) ->
  (m = edc /\ edc = "date") \/ ~ In m (grid_columns cc).
Proof.
  unfold names_ok. rewrite andb_true_iff, forallb_forall.
  intros [_ H] Hin. specialize (H m Hin).
  apply orb_true_iff in H. destruct H as [H|H].
  - apply andb_true_iff in H. destruct H as [H1 H2].
    apply String.eqb_eq in H1, H2. auto.
  - right. intros Hg. apply existsb_eqb_In in Hg.
    rewrite Hg in H. discriminate.
Qed.



(** **** The join against the rows of the external table *)

Lemma matches_from_spec k rk s j :
  In j (matches_from k rk s) <->
  exists i c, j = (s + i)%nat /\ nth_error rk i = Some c /\ key_eqb k c = true.
Proof.
  revert s. induction rk as [|c rk IH]; intros s; cbn [matches_from].
  - split; [contradiction|]. intros (i & c & _ & H & _).
    destruct i; discriminate.
  - destruct (key_eqb k c) eqn:E.
    + cbn [In]. rewrite IH. split.
      * intros [<-|(i & c' & -> & Hi & Hc)].
        -- exists 0%nat, c. repeat split; auto; lia.
        -- exists (S i), c'. repeat split; auto; lia.
      * intros (i & c' & -> & Hi & Hc). destruct i as [|i].
        -- left. lia.
        -- right. exists i, c'. repeat split; auto; lia.
    + rewrite IH. split.
      * intros (i & c' & -> & Hi & Hc). exists (S i), c'.
        repeat split; auto; lia.
      * intros (i & c' & -> & Hi & Hc). destruct i as [|i].
        -- cbn in Hi. inversion Hi; subst. congruence.
        -- exists i, c'. repeat split; auto; lia.
Qed.

Lemma row_of_date (ek : list cell) (d : Z) (j : nat) :
  In j (matches_from (Day d) ek 0) <-> nth_error ek j = Some (Day d).
Proof.
  rewrite matches_from_spec. split.
  - intros (i & c & -> & Hi & Hc). apply key_eqb_day in Hc. now subst.
  - intros H. exists j, (Day d). repeat split; auto.
    cbn. apply Z.eqb_refl.
Qed.


Lemma factor_on_no_row (ek fs : list cell) (d : Z) :
  (forall j, nth_error ek j <> Some (Day d)) -> factor_on ek fs d = NaN.
Proof.
  intros H. unfold factor_on.
  destruct (matches_from (Day d) ek 0) as [|j l] eqn:E; [reflexivity|].
  exfalso. apply (H j). apply row_of_date. rewrite E. now left.
Qed.






(** Scenario B, evaluated: the rows of 2024-01-02 hold the 3 of
    2024-01-01. *)
Example scenario_B_filled :
  exists data,
    load_and_prepare_data "category" scenario_B_sales scenario_B_factors
      = Ok data /\
    getitem data "date"
      = Ok (mkSeries Datetime [Day 19723; Day 19723; Day 19724; Day 19724]) /\
    getitem data "political_climate"
      = Ok (mkSeries Numeric [Num 3; Num 3; Num 3; Num 3]).
Proof. eexists. repeat split. Qed.

End FeatureBuilderFacts.

(** *** Category model trainer *)

Module TrainerFacts.
Import Frame Trainer.
Import ListFacts FrameFacts.

Lemma columns_filter_rows mask df : columns (filter_rows mask df) = columns df.
Proof. unfold filter_rows, columns. now rewrite map_map. Qed.


Lemma drop_present labels df :
  (forall l, In l labels -> In l (columns df)) ->
  drop labels df =
    Ok (filter (fun ns : string * Series =>
                  negb (existsb (String.eqb (fst ns)) labels)) df).
Proof.
  intros H. unfold drop.
  replace (forallb (has_column df) labels) with true; [reflexivity|].
  symmetry. apply forallb_forall. intros l Hl. apply has_column_iff. auto.
Qed.


(** **** One column *)



Lemma isna_iff c : isna c = true <-> c = NaN.
Proof. destruct c; simpl; split; congruence. Qed.

Section FloatMean.
Variable float_mean : list Q -> Q.



(** **** All columns *)

Lemma impute_columns_ok (fd : DataFrame) :
  (forall n s, In (n, s) fd -> exists s', impute float_mean s = Ok s') ->
  exists fd',
    impute_columns float_mean fd = Ok fd' /\
    columns fd' = columns fd /\
    forall n s, In (n, s) fd ->
      exists s', In (n, s') fd' /\ impute float_mean s = Ok s'.
Proof.
  induction fd as [|[k x] fd IH]; intros Hall.
  - exists []. simpl. repeat split; auto. intros n s [].
  - destruct (Hall k x (or_introl eq_refl)) as (x' & Hx).
    destruct IH as (fd' & Hrun & Hcols & Hin).
    { intros n s Hns. apply (Hall n s). now right. }
    exists ((k, x') :: fd'). cbn [impute_columns]. rewrite Hx, Hrun.
    cbn [bind]. split; [reflexivity|]. split.
    + simpl. now rewrite Hcols.
    + intros n s [[= -> ->]|Hns].
      * exists x'. split; auto. now left.
      * destruct (Hin n s Hns) as (s' & Hs' & Hi). exists s'. split; auto.
        now right.
Qed.



(** **** The slice and its statistics, in the words of the specification *)









End FloatMean.


(** Scenario C, evaluated: the one missing cell of the ten rifle rows
    becomes 5, the mean of the other nine values 1, 2, 3, 5, 6, 7, 8, 9, 4;
    the handgun rows (100 and 200) play no part. *)
Example scenario_C_imputed :
  exists X y,
    prepare_features exact_mean scenario_C "category" "rifle" = Ok (X, y) /\
    getitem X "political_climate"
      = Ok (mkSeries Numeric
              [Num 1; Num 2; Num 3; Num 5; Num 5; Num 6; Num 7; Num 8; Num 9;
               Num 4]) /\
    getitem X "event"
      = Ok (mkSeries Object
              [Str "none"; Str "none"; Str "none"; Str "sale"; Str "none";
               Str "sale"; Str "sale"; Str "none"; Str "expo"; Str "none"]).
Proof. do 2 eexists. split; [vm_compute; reflexivity|]. split; reflexivity. Qed.

End TrainerFacts.

(** *** Forecast generator *)

Module ForecastFacts.
Import CalendarCompleter Frame FeatureBuilder Forecast.
Import ListFacts FrameFacts CalendarCompleterFacts FeatureBuilderFacts.
Import TrainerFacts.

(** **** The last observed date *)


(** **** The value held over the horizon *)





Lemma hold_last_spec (data fdf : DataFrame) (cols : list string) (h : nat) :
  (forall c, In c cols -> In c (columns data)) ->
  exists out,
    hold_last data fdf cols h = Ok out /\
    (forall c s, In c cols -> getitem data c = Ok s ->
       getitem out c =
         Ok (mkSeries (scalar_dtype (last_val (values s)))
                      (repeat (last_val (values s)) h))) /\
    (forall c, ~ In c cols -> getitem out c = getitem fdf c) /\
    ((forall n s, In (n, s) fdf -> List.length (values s) = h) ->
     forall n s, In (n, s) out -> List.length (values s) = h).
Proof.
  revert fdf. induction cols as [|k cols IH]; intros fdf Hin.
  - exists fdf. simpl. repeat split; auto. intros c s [].
  - destruct (In_getitem data k (Hin k (or_introl eq_refl))) as (x & Hx).
    cbn [hold_last]. rewrite Hx. cbn [bind].
    set (col := mkSeries (scalar_dtype (last_val (values x)))
                         (repeat (last_val (values x)) h)).
    destruct (IH (setitem fdf k col)) as (out & Hrun & Hheld & Hkept & Hlen).
    { intros c Hc. apply Hin. now right. }
    exists out. split; [exact Hrun|]. split; [|split].
    + intros c s Hc Hs. destruct (in_dec string_dec c cols) as [Hc'|Hc'].
      * now apply Hheld.
      * destruct Hc as [->|Hc]; [|contradiction].
        rewrite (Hkept c Hc'), getitem_setitem_same.
        unfold col. congruence.
    + intros c Hc. rewrite Hkept by (simpl in Hc; tauto).
      apply getitem_setitem_other. simpl in Hc. intros ->. tauto.
    + intros Hfdf. apply Hlen. clear -Hfdf. intros n s.
      induction fdf as [|[m y] fdf IHf]; simpl.
      * intros [[= <- <-]|[]]. unfold col. cbn [values]. apply repeat_length.
      * destruct (String.eqb m k); simpl.
        -- intros [[= <- <-]|Hns].
           ++ unfold col. cbn [values]. apply repeat_length.
           ++ apply (Hfdf n s). now right.
        -- intros [[= <- <-]|Hns].
           ++ apply (Hfdf m y). now left.
           ++ apply IHf; auto. intros n' s' H'. apply (Hfdf n' s'). now right.
Qed.

Lemma external_factor_cols_spec data cc c :
  In c (external_factor_cols data cc) <->
  In c (columns data) /\ ~ In c (non_factor_columns cc).
Proof.
  unfold external_factor_cols. rewrite filter_In, negb_true_iff.
  split; intros [H1 H2]; split; auto.
  - intros Hin. apply existsb_eqb_In in Hin. congruence.
  - destruct (existsb (String.eqb c) (non_factor_columns cc)) eqn:E; auto.
    apply existsb_eqb_In in E. contradiction.
Qed.

(** **** The prediction loop writes category columns only *)

Section Loop.
Variable Model : Type.
Variable predict : Model -> DataFrame -> result (list cell).






End Loop.

(** **** Calendar columns of the future rows *)










(** Scenario D with a lenient regressor and two categories: five rows,
    the factors of the last observed date, one prediction column per
    category. *)
Example two_categories_forecast :
  generate_forecast unit lenient_predict
    [("accessories", tt); ("ammunition", tt)] prepared_data "category" 5
  = Ok [ ("date", mkSeries Datetime
                    [Day 19728; Day 19729; Day 19730; Day 19731; Day 19732]);
         ("dayofweek", mkSeries Numeric [Num 5; Num 6; Num 0; Num 1; Num 2]);
         ("month", mkSeries Numeric [Num 1; Num 1; Num 1; Num 1; Num 1]);
         ("day", mkSeries Numeric [Num 6; Num 7; Num 8; Num 9; Num 10]);
         ("year", mkSeries Numeric
                    [Num 2024; Num 2024; Num 2024; Num 2024; Num 2024]);
         ("quarter", mkSeries Numeric [Num 1; Num 1; Num 1; Num 1; Num 1]);
         ("is_weekend", mkSeries Numeric [Num 1; Num 1; Num 0; Num 0; Num 0]);
         ("political_climate",
          mkSeries Numeric [Num 4; Num 4; Num 4; Num 4; Num 4]);
         ("legislation_risk",
          mkSeries Numeric [Num 0; Num 0; Num 0; Num 0; Num 0]);
         ("accessories", mkSeries Numeric [Num 0; Num 0; Num 0; Num 0; Num 0]);
         ("ammunition", mkSeries Numeric [Num 0; Num 0; Num 0; Num 0; Num 0]) ].
Proof. reflexivity. Qed.

(** The frames of the examples are the pipeline's own. *)
Example prepared_data_built :
  load_and_prepare_data "category" two_category_sales two_factors
  = Ok prepared_data /\
  getitem prepared_data "political_climate"
  = Ok (mkSeries Numeric
          [Num 3; Num 3; Num 3; Num 3; Num 4; Num 4; Num 4; Num 4; Num 4;
           Num 4]) /\
  (exists X, Trainer.prepare_features exact_mean prepared_data "category" "accessories"
             = Ok (X, mkSeries Numeric [Num 2; Num 0; Num 0; Num 0; Num 4]) /\
             columns X = training_schema) /\
  (exists X, Trainer.prepare_features exact_mean prepared_data "category" "ammunition"
             = Ok (X, mkSeries Numeric [Num 5; Num 1; Num 0; Num 0; Num 0]) /\
             columns X = training_schema).
Proof.
  split; [reflexivity|]. split; [reflexivity|].
  split; eexists; split; reflexivity.
Qed.

(** Scenario D: a horizon of 5 days and one trained category give 5 rows,
    the known factor held at its last value 4, the calendar columns
    following the dates 2024-01-06 .. 2024-01-10. *)
Example scenario_D_forecast :
  generate_forecast (list string) checked_predict
    [("ammunition", training_schema)] prepared_data "category" 5
  = Ok [ ("date", mkSeries Datetime
                    [Day 19728; Day 19729; Day 19730; Day 19731; Day 19732]);
         ("dayofweek", mkSeries Numeric [Num 5; Num 6; Num 0; Num 1; Num 2]);
         ("month", mkSeries Numeric [Num 1; Num 1; Num 1; Num 1; Num 1]);
         ("day", mkSeries Numeric [Num 6; Num 7; Num 8; Num 9; Num 10]);
         ("year", mkSeries Numeric
                    [Num 2024; Num 2024; Num 2024; Num 2024; Num 2024]);
         ("quarter", mkSeries Numeric [Num 1; Num 1; Num 1; Num 1; Num 1]);
         ("is_weekend", mkSeries Numeric [Num 1; Num 1; Num 0; Num 0; Num 0]);
         ("political_climate",
          mkSeries Numeric [Num 4; Num 4; Num 4; Num 4; Num 4]);
         ("legislation_risk",
          mkSeries Numeric [Num 0; Num 0; Num 0; Num 0; Num 0]);
         ("ammunition", mkSeries Numeric [Num 0; Num 0; Num 0; Num 0; Num 0]) ].
Proof. reflexivity. Qed.

(** **** Unresolved factors, stage by stage *)

Lemma ffill_leading_missing (l : list cell) (i : nat) :
  (forall j, (j <= i)%nat -> nth j l NaN = NaN) ->
  nth i (ffill l) NaN = NaN.
Proof.
  unfold ffill. revert i. induction l as [|c r IH]; intros i Hlead.
  - destruct i; reflexivity.
  - pose proof (Hlead 0%nat (Nat.le_0_l i)) as H0. simpl in H0. subst c.
    cbn [ffill_from isna]. destruct i as [|i]; [reflexivity|].
    cbn [nth]. apply IH. intros j Hj. apply (Hlead (S j)). lia.
Qed.





(** **** What a model is handed *)

Lemma later_model_sees_earlier_prediction
    (Model : Type) (predict : Model -> DataFrame -> result (list cell))
    (forecast_df df1 X0 : DataFrame) (c1 : string) (m1 : Model) :
  X_forecast forecast_df = Ok X0 ->
  ~ In c1 (columns forecast_df) ->
  predict_step Model predict forecast_df (c1, m1) = Ok df1 ->
  exists X1, X_forecast df1 = Ok X1 /\ columns X1 = columns X0 ++ [c1].
Proof.
  intros HX Hfresh. unfold predict_step. rewrite HX. cbn [bind fst snd].
  destruct (predict m1 X0) as [y|e]; cbn [bind]; [|discriminate].
  intros [= <-]. rewrite (columns_setitem_absent _ _ _ Hfresh).
  unfold X_forecast, drop in *. cbn [forallb] in *.
  destruct (has_column forecast_df "date") eqn:Hd; [|discriminate].
  assert (Hd' : has_column (forecast_df ++ [(c1, mkSeries Numeric y)]) "date"
                = true).
  { apply has_column_iff. unfold columns. rewrite map_app.
    apply in_or_app. left. now apply has_column_iff. }
  rewrite Hd'. cbn [andb]. eexists. split; [reflexivity|].
  inversion HX; subst X0. rewrite filter_app. unfold columns.
  rewrite map_app. f_equal. cbn [filter fst existsb].
  assert (Hne : String.eqb c1 "date" = false).
  { apply String.eqb_neq. intros ->. apply Hfresh. now apply has_column_iff. }
  rewrite Hne. reflexivity.
Qed.

(** C2, at two trained categories.  The first model is handed the future
    rows under the training schema; the second is handed the same rows
    with the first category's prediction as a further column; a regressor
    that checks its input schema raises there, and no forecast is made. *)
Theorem second_category_gets_first_prediction_column :
  exists forecast_df df1 X0 X1,
    future_features prepared_data "category" 5 = Ok forecast_df /\
    X_forecast forecast_df = Ok X0 /\
    columns X0 = training_schema /\
    predict_step (list string) checked_predict forecast_df
      ("accessories", training_schema) = Ok df1 /\
    X_forecast df1 = Ok X1 /\
    columns X1 = training_schema ++ ["accessories"] /\
    generate_forecast (list string) checked_predict
      [("accessories", training_schema); ("ammunition", training_schema)]
      prepared_data "category" 5 = Raise ValueError.
Proof.
  do 4 eexists. repeat split; reflexivity.
Qed.

End ForecastFacts.

(** *** The training fan-out *)

Module MainFacts.
Import CalendarCompleter Frame FeatureBuilder Trainer Forecast Main.

Section Regressor.
Variable Model : Type.
Variable evaluate_model : DataFrame -> Series -> result Model.
Variable float_mean : list Q -> Q.

Lemma train_loop_keys (categories : list string) (data : DataFrame)
    (category_col : string) (models models' : list (string * Model))
    (files files' : store Model) :
  train_loop Model evaluate_model float_mean categories data category_col
             models files
    = Ok (models', files') ->
  forall c, In c (map fst models') <-> In c (map fst models) \/ In c categories.
Proof.
  revert models files. induction categories as [|k cats IH]; intros models files.
  - simpl. intros [= <- <-] c. tauto.
  - cbn [train_loop].
    destruct (train_model Model evaluate_model float_mean k data category_col
                files)
      as [[m f]|e]; cbn [bind fst snd]; [|discriminate].
    intros Hrun c. rewrite (IH _ _ Hrun c). clear.
    assert (Hset : In c (map fst (dict_set models k m))
                   <-> In c (map fst models) \/ c = k).
    { induction models as [|[k' v'] models IHm]; simpl.
      - intuition.
      - destruct (String.eqb k' k) eqn:E; simpl.
        + apply String.eqb_eq in E. subst. intuition.
        + intuition. }
    rewrite Hset. simpl. intuition.
Qed.

(** The loop completes exactly when every category of its list can be
    prepared and fitted. *)
Lemma train_loop_completes (categories : list string) (data : DataFrame)
    (category_col : string) (models : list (string * Model))
    (files : store Model) :
  (exists r,
     train_loop Model evaluate_model float_mean categories data category_col
                models files = Ok r) <->
  (forall c, In c categories ->
     exists Xy m,
       prepare_features float_mean data category_col c = Ok Xy /\
       evaluate_model (fst Xy) (snd Xy) = Ok m).
Proof.
  revert models files.
  induction categories as [|k cats IH]; intros models files.
  - split; [intros _ c []|intros _; eexists; reflexivity].
  - cbn [train_loop]. unfold train_model at 1.
    destruct (prepare_features float_mean data category_col k) as [Xy|e] eqn:P;
      cbn [bind].
    + destruct (evaluate_model (fst Xy) (snd Xy)) as [m|e] eqn:E;
        cbn [bind fst snd].
      * rewrite IH. split.
        -- intros H c [<-|Hc]; [exists Xy, m; auto|now apply H].
        -- intros H c Hc. apply H. now right.
      * split; [intros [r [=]]|].
        intros H. destruct (H k (or_introl eq_refl)) as (Xy' & m & P' & E').
        rewrite P in P'. inversion P'; subst Xy'. congruence.
    + split; [intros [r [=]]|].
      intros H. destruct (H k (or_introl eq_refl)) as (Xy' & m & P' & _).
      congruence.
Qed.

(** When the five configured names can be prepared and fitted, the loop
    returns their models, in the configured order. *)
Lemma train_loop_configured (data : DataFrame) (category_col : string) :
  (forall c, In c PRODUCT_CATEGORIES ->
     exists Xy m,
       prepare_features float_mean data category_col c = Ok Xy /\
       evaluate_model (fst Xy) (snd Xy) = Ok m) ->
  exists models files,
    train_loop Model evaluate_model float_mean PRODUCT_CATEGORIES data
               category_col [] []
      = Ok (models, files) /\
    map fst models = PRODUCT_CATEGORIES /\
    map fst files =
      map (fun c => ("sales_forecast_" ++ c ++ ".pkl")%string)
          PRODUCT_CATEGORIES /\
    forall c m, In (c, m) models ->
      exists Xy,
        prepare_features float_mean data category_col c = Ok Xy /\
        evaluate_model (fst Xy) (snd Xy) = Ok m.
Proof.
  intros Htrain. unfold PRODUCT_CATEGORIES in *.
  destruct (Htrain "accessories") as (Xy1 & m1 & P1 & E1); [simpl; auto|].
  destruct (Htrain "ammunition") as (Xy2 & m2 & P2 & E2); [simpl; auto|].
  destruct (Htrain "handgun") as (Xy3 & m3 & P3 & E3); [simpl; auto|].
  destruct (Htrain "rifle") as (Xy4 & m4 & P4 & E4); [simpl; auto 10|].
  destruct (Htrain "shotgun") as (Xy5 & m5 & P5 & E5); [simpl; auto 10|].
  exists [("accessories", m1); ("ammunition", m2); ("handgun", m3);
          ("rifle", m4); ("shotgun", m5)].
  eexists. split; [|split; [reflexivity|split]].
  - cbn [train_loop]. unfold train_model.
    rewrite P1; cbn [bind]; rewrite E1; cbn [bind fst snd dict_set].
    rewrite P2; cbn [bind]; rewrite E2; cbn [bind fst snd]. simpl dict_set.
    rewrite P3; cbn [bind]; rewrite E3; cbn [bind fst snd]. simpl dict_set.
    rewrite P4; cbn [bind]; rewrite E4; cbn [bind fst snd]. simpl dict_set.
    rewrite P5; cbn [bind]; rewrite E5; cbn [bind fst snd]. simpl dict_set.
    reflexivity.
  - reflexivity.
  - intros c m Hin. simpl in Hin.
    destruct Hin as [[= <- <-]|[[= <- <-]|[[= <- <-]|[[= <- <-]|[[= <- <-]|[]]]]]];
      eauto.
Qed.

End Regressor.

(** C10 as stated fails: on sales of six categories the models trained
    are those of the five configured names; the sixth observed category
    gets none. *)
Lemma observed_category_without_model :
  load_and_prepare_data "category" six_category_sales no_factors
    = Ok six_category_data /\
  In "knife" (unique (map category six_category_sales)) /\
  exists models files,
    train_loop (list string) schema_trainer exact_mean PRODUCT_CATEGORIES
               six_category_data "category" [] [] = Ok (models, files) /\
    map fst models = PRODUCT_CATEGORIES /\
    ~ In "knife" (map fst models).
Proof.
  split; [reflexivity|]. split; [simpl; auto 10|].
  do 2 eexists. split; [vm_compute; reflexivity|].
  split; [reflexivity|]. simpl. intuition discriminate.
Qed.

(** C10 (as the code has it). [main] trains one model for each name of
    the configured [PRODUCT_CATEGORIES], in that order, not for the
    categories observed in the sales data.  The training loop completes
    exactly when feature preparation and fitting succeed for every
    configured name.  When it completes, the models are keyed by exactly
    the five configured names, each is fitted on the slice of its name,
    one file [sales_forecast_<name>.pkl] is written per name, and a name
    outside the configured list has no model.  When it does not, it
    raises and no model is returned. *)
Theorem training_fans_out_over_configured_categories
    (Model : Type) (evaluate_model : DataFrame -> Series -> result Model)
    (float_mean : list Q -> Q)
    (data : DataFrame) (category_col : string) :
  let run :=
    train_loop Model evaluate_model float_mean PRODUCT_CATEGORIES data
               category_col [] [] in
  let trainable :=
    forall c, In c PRODUCT_CATEGORIES ->
      exists Xy m,
        prepare_features float_mean data category_col c = Ok Xy /\
        evaluate_model (fst Xy) (snd Xy) = Ok m in
  ((exists models files, run = Ok (models, files)) <-> trainable) /\
  (forall models files, run = Ok (models, files) ->
     map fst models = PRODUCT_CATEGORIES /\
     map fst files =
       map (fun c => ("sales_forecast_" ++ c ++ ".pkl")%string)
           PRODUCT_CATEGORIES /\
     (forall c m, In (c, m) models ->
        exists Xy,
          prepare_features float_mean data category_col c = Ok Xy /\
          evaluate_model (fst Xy) (snd Xy) = Ok m) /\
     (forall c, ~ In c PRODUCT_CATEGORIES -> ~ In c (map fst models))) /\
  (~ trainable -> exists e, run = Raise e).
Proof.
  intros run trainable.
  assert (Hiff : (exists models files, run = Ok (models, files))
                 <-> trainable).
  { unfold trainable. rewrite <- (train_loop_completes Model evaluate_model
                                    float_mean PRODUCT_CATEGORIES data
                                    category_col [] []).
    fold run. split.
    - intros (models & files & H). eauto.
    - intros ([models files] & H). eauto. }
  split; [exact Hiff|]. split.
  - intros models files Hrun.
    assert (Htrain : trainable) by (apply Hiff; eauto).
    destruct (train_loop_configured Model evaluate_model float_mean data
                category_col Htrain)
      as (models' & files' & Hrun' & Hkeys & Hfiles & Hfit).
    fold run in Hrun'. rewrite Hrun in Hrun'.
    inversion Hrun'; subst models' files'.
    split; [exact Hkeys|]. split; [exact Hfiles|]. split; [exact Hfit|].
    intros c Hc. now rewrite Hkeys.
  - intros Hnot. destruct run as [[models files]|e] eqn:E.
    + exfalso. apply Hnot, Hiff. eauto.
    + eauto.
Qed.

Lemma training_fans_out_over_configured_categories_witness :
  (exists models files,
     train_loop (list string) schema_trainer exact_mean PRODUCT_CATEGORIES
       six_category_data "category" [] [] = Ok (models, files)) /\
  (forall c, In c PRODUCT_CATEGORIES ->
     exists Xy m,
       prepare_features exact_mean six_category_data "category" c = Ok Xy /\
       schema_trainer (fst Xy) (snd Xy) = Ok m).
Proof.
  assert (Hrun : exists models files,
            train_loop (list string) schema_trainer exact_mean
              PRODUCT_CATEGORIES six_category_data "category" [] []
            = Ok (models, files)).
  { do 2 eexists. vm_compute. reflexivity. }
  split; [exact Hrun|].
  exact (proj1 (proj1 (training_fans_out_over_configured_categories
                         (list string) schema_trainer exact_mean
                         six_category_data "category")) Hrun).
Defined.

(** The whole of [main] on these sales, with a regressor that checks its
    input schema: the five models are trained, and the forecast stops at
    the second of them. *)
Example main_stops_at_second_forecast :
  main (list string) schema_trainer checked_predict exact_mean "category"
       six_category_sales no_factors
  = Raise ValueError.
Proof. vm_compute. reflexivity. Qed.

End MainFacts.

(** *** The sales aggregator *)

Module SalesAggregatorFacts.
Import ListFacts CalendarCompleter CalendarCompleterFacts Frame SalesAggregator.

Lemma string_ltb_trans a b c :
  String.ltb a b = true -> String.ltb b c = true -> String.ltb a c = true.
Proof.
  unfold String.ltb. intros Hab Hbc.
  destruct (String.compare a b) eqn:Eab; try discriminate.
  destruct (String.compare b c) eqn:Ebc; try discriminate.
  apply String_as_OT.cmp_lt in Eab, Ebc.
  pose proof (String_as_OT.lt_trans _ _ _ Eab Ebc) as H.
  apply String_as_OT.cmp_lt in H. unfold String_as_OT.cmp in H.
  now rewrite H.
Qed.

Lemma string_ltb_irrefl a : String.ltb a a = false.
Proof.
  unfold String.ltb.
  destruct (String.compare a a) eqn:E; auto.
  apply String_as_OT.cmp_lt in E.
  exfalso. now apply (String_as_OT.lt_not_eq _ _ E).
Qed.

Lemma string_ltb_total a b :
  String.ltb a b = false -> String.eqb a b = false -> String.ltb b a = true.
Proof.
  unfold String.ltb. intros Hlt Hne.
  rewrite (String.compare_antisym b a).
  destruct (String.compare a b) eqn:E; simpl; auto; try discriminate.
  apply String.compare_eq_iff in E. subst. now rewrite String.eqb_refl in Hne.
Qed.

Lemma key_ltb_trans a b c :
  key_ltb a b = true -> key_ltb b c = true -> key_ltb a c = true.
Proof.
  unfold key_ltb. intros Hab Hbc.
  apply orb_true_iff in Hab, Hbc. apply orb_true_iff.
  destruct Hab as [Hab|Hab], Hbc as [Hbc|Hbc];
    rewrite ?andb_true_iff, ?Z.ltb_lt, ?Z.eqb_eq in *.
  - left; lia.
  - left; lia.
  - left; lia.
  - right. split; [lia|]. eapply string_ltb_trans; [apply Hab|apply Hbc].
Qed.

Lemma key_ltb_irrefl a : key_ltb a a = false.
Proof.
  unfold key_ltb. now rewrite Z.ltb_irrefl, Z.eqb_refl, string_ltb_irrefl.
Qed.

Lemma key_eqb_iff a b : key_eqb a b = true <-> a = b.
Proof.
  unfold key_eqb. rewrite andb_true_iff, Z.eqb_eq, String.eqb_eq.
  destruct a, b; cbn [fst snd]. split; [intros [-> ->]|intros [= -> ->]]; auto.
Qed.

Lemma key_eqb_refl a : key_eqb a a = true.
Proof. now apply key_eqb_iff. Qed.

Lemma key_eqb_sym a b : key_eqb a b = key_eqb b a.
Proof.
  unfold key_eqb. now rewrite Z.eqb_sym, String.eqb_sym.
Qed.

Lemma key_ltb_total k k' :
  key_eqb k k' = false -> key_ltb k k' = false -> key_ltb k' k = true.
Proof.
  unfold key_eqb, key_ltb. intros Hs Hl.
  apply orb_false_iff in Hl. destruct Hl as [Hlt Hl].
  apply Z.ltb_ge in Hlt. apply orb_true_iff.
  destruct (Z.eqb_spec (fst k') (fst k)) as [E|E].
  - right. rewrite E, Z.eqb_refl in *. cbn [andb] in *.
    apply string_ltb_total; auto.
  - left. apply Z.ltb_lt. lia.
Qed.

(** **** Keys and order *)

Lemma key_add_to_group k q groups k' :
  In k' (map fst (add_to_group k q groups)) <->
  k' = k \/ In k' (map fst groups).
Proof.
  induction groups as [|g rest IH]; cbn [add_to_group map In fst].
  - intuition.
  - destruct (key_eqb k (fst g)) eqn:Es.
    + apply key_eqb_iff in Es. cbn [map In fst]. subst k. intuition.
    + destruct (key_ltb k (fst g)).
      * cbn [map In fst]. intuition.
      * cbn [map In]. rewrite IH. intuition.
Qed.

Lemma add_to_group_sorted k q groups :
  StronglySorted key_lt (map fst groups) ->
  StronglySorted key_lt (map fst (add_to_group k q groups)).
Proof.
  induction groups as [|g rest IH]; cbn [add_to_group map]; intros Hs.
  - repeat constructor.
  - inversion Hs as [|? ? Hrest Hall]; subst.
    destruct (key_eqb k (fst g)) eqn:Es.
    + cbn [map fst]. now constructor.
    + destruct (key_ltb k (fst g)) eqn:El.
      * cbn [map fst].
        constructor; [assumption|].
        constructor; [exact El|].
        rewrite Forall_forall in *. intros x Hx.
        eapply key_ltb_trans; [exact El|]. now apply Hall.
      * cbn [map]. constructor; [auto|].
        rewrite Forall_forall in *. intros x Hx.
        apply key_add_to_group in Hx. destruct Hx as [->|Hx]; [|auto].
        now apply key_ltb_total.
Qed.

Lemma sorted_keys_NoDup (ks : list (Z * string)) :
  StronglySorted key_lt ks -> NoDup ks.
Proof.
  induction 1 as [|a l Hs IH Hall]; constructor; auto.
  intros Hin. rewrite Forall_forall in Hall.
  specialize (Hall _ Hin). unfold key_lt in Hall.
  now rewrite key_ltb_irrefl in Hall.
Qed.

Lemma groupby_fold_sorted rows groups :
  StronglySorted key_lt (map fst groups) ->
  StronglySorted key_lt (map fst (fold_left add_row rows groups)).
Proof.
  revert groups. induction rows as [|row rows IH]; cbn [fold_left]; auto.
  intros groups Hs. apply IH.
  destruct row as [[[d|] [c|]] q]; cbn [add_row]; auto.
  now apply add_to_group_sorted.
Qed.

Lemma in_complete_rows rows d c q :
  In (d, c, q) (Spec.complete_rows rows) <-> In (Some d, Some c, q) rows.
Proof.
  unfold Spec.complete_rows. rewrite in_flat_map. split.
  - intros ([[[d'|] [c'|]] q'] & Hin & H); cbn in H; try contradiction.
    destruct H as [[= -> -> ->]|[]]. exact Hin.
  - intros H. eexists. split; [exact H|]. now left.
Qed.

Lemma complete_rows_cons row rows :
  Spec.complete_rows (row :: rows) =
  match row with
  | (Some d, Some c, q) => (d, c, q) :: Spec.complete_rows rows
  | _ => Spec.complete_rows rows
  end.
Proof.
  unfold Spec.complete_rows. cbn [flat_map].
  destruct row as [[[d|] [c|]] q]; reflexivity.
Qed.

Lemma groupby_fold_keys rows groups k :
  In k (map fst (fold_left add_row rows groups)) <->
  In k (map fst (Spec.complete_rows rows)) \/ In k (map fst groups).
Proof.
  revert groups. induction rows as [|row rows IH]; cbn [fold_left];
    intros groups; [cbn; tauto|].
  rewrite IH, complete_rows_cons.
  destruct row as [[[d|] [c|]] q]; cbn [add_row]; try tauto.
  rewrite key_add_to_group. cbn [map In fst]. intuition.
Qed.

Lemma key_record_of g : key (record_of g) = fst g.
Proof. unfold key, record_of. cbn. now destruct (fst g). Qed.

Lemma keys_of_records groups : map key (map record_of groups) = map fst groups.
Proof.
  rewrite map_map. apply map_ext. intros g. apply key_record_of.
Qed.

Lemma in_groupby_sum_key rows k :
  In k (map key (groupby_sum rows)) <->
  In k (map fst (Spec.complete_rows rows)).
Proof.
  unfold groupby_sum. rewrite keys_of_records, groupby_fold_keys. cbn. tauto.
Qed.

Lemma NoDup_groupby_sum rows : NoDup (map key (groupby_sum rows)).
Proof.
  unfold groupby_sum. rewrite keys_of_records.
  apply sorted_keys_NoDup. apply groupby_fold_sorted. constructor.
Qed.

(** **** int64 sums *)

Lemma wrap64_range z : Spec.int64 (wrap64 z).
Proof.
  unfold Spec.int64, wrap64.
  assert (H := Z.mod_pos_bound (z + 2 ^ 63) (2 ^ 64) eq_refl).
  change (2 ^ 64) with (2 * 2 ^ 63) in *. lia.
Qed.

Lemma wrap64_small z : Spec.int64 z -> wrap64 z = z.
Proof.
  unfold Spec.int64, wrap64. intros H.
  rewrite Z.mod_small; [lia|].
  change (2 ^ 64) with (2 * 2 ^ 63). lia.
Qed.

Lemma wrap64_add_l a b : wrap64 (wrap64 a + b) = wrap64 (a + b).
Proof.
  unfold wrap64. f_equal.
  replace ((a + 2 ^ 63) mod 2 ^ 64 - 2 ^ 63 + b + 2 ^ 63)
    with ((a + 2 ^ 63) mod 2 ^ 64 + b) by lia.
  rewrite Zplus_mod_idemp_l. f_equal. lia.
Qed.

Lemma wrap64_add_r a b : wrap64 (a + wrap64 b) = wrap64 (a + b).
Proof. now rewrite Z.add_comm, wrap64_add_l, Z.add_comm. Qed.

Lemma wrap64_congruent z : (wrap64 z - z) mod 2 ^ 64 = 0.
Proof.
  unfold wrap64. rewrite (Z.mod_eq (z + 2 ^ 63) (2 ^ 64)) by discriminate.
  replace (z + 2 ^ 63 - 2 ^ 64 * ((z + 2 ^ 63) / 2 ^ 64) - 2 ^ 63 - z)
    with (- ((z + 2 ^ 63) / 2 ^ 64) * 2 ^ 64) by lia.
  apply Z.mod_mul. discriminate.
Qed.

Lemma total_app l l' : Spec.total (l ++ l') = Spec.total l + Spec.total l'.
Proof. induction l as [|a l IH]; cbn [app Spec.total]; lia. Qed.

Lemma total_abs l : Z.abs (Spec.total l) <= Spec.total (map Z.abs l).
Proof. induction l as [|a l IH]; cbn [map Spec.total]; lia. Qed.

Lemma total_abs_nonneg l : 0 <= Spec.total (map Z.abs l).
Proof. induction l as [|a l IH]; cbn [map Spec.total]; lia. Qed.

Lemma group_value_cons k g groups :
  group_value k (g :: groups) =
  (if key_eqb k (fst g) then snd g else 0) + group_value k groups.
Proof.
  unfold group_value. cbn [filter].
  destruct (key_eqb k (fst g)); cbn [map Spec.total]; lia.
Qed.

(** One more row moves the sum held for its own key by its quantity, up
    to wrap-around, and no other. *)
Lemma group_value_add k q groups k' :
  wrap64 (group_value k' (add_to_group k q groups)) =
  wrap64 (group_value k' groups + (if key_eqb k' k then q else 0)).
Proof.
  induction groups as [|g rest IH]; cbn [add_to_group].
  - rewrite group_value_cons. cbn [fst snd]. unfold group_value.
    cbn [filter map Spec.total].
    destruct (key_eqb k' k); [|reflexivity].
    rewrite wrap64_add_l. f_equal. lia.
  - destruct (key_eqb k (fst g)) eqn:Es.
    + apply key_eqb_iff in Es. subst k.
      rewrite !group_value_cons. cbn [fst snd].
      destruct (key_eqb k' (fst g)).
      * rewrite wrap64_add_l. f_equal. lia.
      * f_equal. lia.
    + destruct (key_ltb k (fst g)).
      * rewrite !group_value_cons. cbn [fst snd].
        destruct (key_eqb k' k).
        -- rewrite wrap64_add_l. f_equal. lia.
        -- f_equal. lia.
      * rewrite !group_value_cons.
        rewrite <- wrap64_add_r, IH, wrap64_add_r. f_equal. lia.
Qed.

Lemma sold_on_cons d c row rows :
  Spec.sold_on d c (row :: rows) =
  match row with
  | (Some d', Some c', q) =>
      if key_eqb (d, c) (d', c') then q :: Spec.sold_on d c rows
      else Spec.sold_on d c rows
  | _ => Spec.sold_on d c rows
  end.
Proof.
  unfold Spec.sold_on. rewrite complete_rows_cons.
  destruct row as [[[d'|] [c'|]] q]; try reflexivity.
  cbn [filter fst snd]. unfold key_eqb. cbn [fst snd].
  rewrite (Z.eqb_sym d d'), (String.eqb_sym c c').
  destruct ((d' =? d) && String.eqb c' c); reflexivity.
Qed.

Lemma group_value_fold rows groups k :
  wrap64 (group_value k (fold_left add_row rows groups)) =
  wrap64 (group_value k groups
          + Spec.total (Spec.sold_on (fst k) (snd k) rows)).
Proof.
  revert groups. induction rows as [|row rows IH]; cbn [fold_left];
    intros groups.
  - unfold Spec.sold_on. cbn. now rewrite Z.add_0_r.
  - rewrite IH, sold_on_cons.
    destruct row as [[[d|] [c|]] q]; cbn [add_row]; try reflexivity.
    rewrite <- wrap64_add_l, group_value_add, wrap64_add_l.
    replace (fst k, snd k) with k by (now destruct k).
    destruct (key_eqb k (d, c)); cbn [Spec.total]; f_equal; lia.
Qed.

Lemma add_to_group_int64 k q groups :
  Forall (fun g => Spec.int64 (snd g)) groups ->
  Forall (fun g => Spec.int64 (snd g)) (add_to_group k q groups).
Proof.
  induction 1 as [|g rest Hg Hrest IH]; cbn [add_to_group].
  - constructor; [apply wrap64_range|constructor].
  - destruct (key_eqb k (fst g)).
    + constructor; [apply wrap64_range|assumption].
    + destruct (key_ltb k (fst g)).
      * constructor; [apply wrap64_range|]. now constructor.
      * now constructor.
Qed.

Lemma groupby_fold_int64 rows groups :
  Forall (fun g => Spec.int64 (snd g)) groups ->
  Forall (fun g => Spec.int64 (snd g)) (fold_left add_row rows groups).
Proof.
  revert groups. induction rows as [|row rows IH]; cbn [fold_left]; auto.
  intros groups H. apply IH.
  destruct row as [[[d|] [c|]] q]; cbn [add_row]; auto.
  now apply add_to_group_int64.
Qed.

(** Among groups of pairwise distinct keys, a key holds the sum of at
    most one group. *)
Lemma group_value_absent k groups :
  ~ In k (map fst groups) -> group_value k groups = 0.
Proof.
  induction groups as [|g rest IH]; intros Hn; [reflexivity|].
  rewrite group_value_cons.
  destruct (key_eqb k (fst g)) eqn:E.
  - apply key_eqb_iff in E. exfalso. apply Hn. left. now symmetry.
  - rewrite IH; [reflexivity|]. intros H. apply Hn. now right.
Qed.

Lemma group_value_member g groups :
  NoDup (map fst groups) -> In g groups ->
  group_value (fst g) groups = snd g.
Proof.
  induction groups as [|g' rest IH]; intros Hnd Hin; [contradiction|].
  inversion Hnd as [|? ? Hnotin Hnd']; subst.
  rewrite group_value_cons. destruct Hin as [->|Hin].
  - rewrite key_eqb_refl, group_value_absent by assumption. lia.
  - destruct (key_eqb (fst g) (fst g')) eqn:E.
    + apply key_eqb_iff in E. exfalso. apply Hnotin. rewrite <- E.
      now apply in_map.
    + rewrite IH by assumption. lia.
Qed.

Lemma group_value_int64 k groups :
  NoDup (map fst groups) ->
  Forall (fun g => Spec.int64 (snd g)) groups ->
  Spec.int64 (group_value k groups).
Proof.
  induction groups as [|g rest IH]; intros Hnd Hall.
  - unfold Spec.int64. cbn. lia.
  - inversion Hnd as [|? ? Hnotin Hnd']; subst.
    inversion Hall as [|? ? Hg Hrest]; subst.
    rewrite group_value_cons.
    destruct (key_eqb k (fst g)) eqn:E.
    + apply key_eqb_iff in E. subst k.
      rewrite group_value_absent by assumption. now rewrite Z.add_0_r.
    + rewrite Z.add_0_l. now apply IH.
Qed.

(** The sum the groups hold for a key is the int64 sum of the rows of
    that key. *)
Lemma group_value_groupby rows k :
  group_value k (fold_left add_row rows []) =
  wrap64 (Spec.total (Spec.sold_on (fst k) (snd k) rows)).
Proof.
  rewrite <- (wrap64_small (group_value k _)).
  - rewrite group_value_fold. reflexivity.
  - apply group_value_int64.
    + apply sorted_keys_NoDup, groupby_fold_sorted. constructor.
    + apply groupby_fold_int64. constructor.
Qed.

Lemma same_key_record_of d c g :
  same_key d c (record_of g) = key_eqb (d, c) (fst g).
Proof.
  unfold same_key, record_of, key_eqb. cbn [date category fst snd].
  now rewrite (Z.eqb_sym d), (String.eqb_sym c).
Qed.

Lemma group_quantity_records k groups :
  group_quantity k (map record_of groups) == inject_Z (group_value k groups).
Proof.
  unfold group_quantity.
  induction groups as [|g rest IH]; [reflexivity|].
  rewrite group_value_cons. cbn [map filter].
  rewrite same_key_record_of.
  replace (fst k, snd k) with k by (now destruct k).
  destruct (key_eqb k (fst g)).
  - cbn [map Qsum fold_right quantity_sold record_of].
    fold (Qsum (map quantity_sold
                    (filter (same_key (fst k) (snd k))
                            (map record_of rest)))).
    rewrite IH, inject_Z_plus. reflexivity.
  - rewrite IH. now rewrite Z.add_0_l.
Qed.

Lemma group_quantity_groupby rows k :
  group_quantity k (groupby_sum rows) ==
  inject_Z (wrap64 (Spec.total (Spec.sold_on (fst k) (snd k) rows))).
Proof.
  unfold groupby_sum.
  now rewrite group_quantity_records, group_value_groupby.
Qed.

Lemma sold_on_abs d c rows :
  Spec.total (map Z.abs (Spec.sold_on d c rows)) <=
  Spec.total (map Z.abs (map snd (Spec.complete_rows rows))).
Proof.
  induction rows as [|row rows IH]; [cbn; lia|].
  rewrite sold_on_cons, complete_rows_cons.
  destruct row as [[[d'|] [c'|]] q]; try exact IH.
  destruct (key_eqb (d, c) (d', c')); cbn [map Spec.total snd]; lia.
Qed.

(** Within the int64 range no sum wraps. *)
Lemma sold_on_exact d c rows :
  Spec.total (map Z.abs (map snd (Spec.complete_rows rows))) < 2 ^ 63 ->
  wrap64 (Spec.total (Spec.sold_on d c rows)) =
  Spec.total (Spec.sold_on d c rows).
Proof.
  intros Hb. apply wrap64_small. unfold Spec.int64.
  pose proof (total_abs (Spec.sold_on d c rows)).
  pose proof (sold_on_abs d c rows). lia.
Qed.

(** **** The total over all groups *)

Lemma total_add_to_group k q groups :
  Spec.total (map Z.abs (map snd groups)) + Z.abs q < 2 ^ 63 ->
  Spec.total (map snd (add_to_group k q groups))
    = Spec.total (map snd groups) + q /\
  Spec.total (map Z.abs (map snd (add_to_group k q groups)))
    <= Spec.total (map Z.abs (map snd groups)) + Z.abs q.
Proof.
  induction groups as [|g rest IH]; cbn [add_to_group]; intros Hb.
  - cbn [map Spec.total snd] in *.
    rewrite wrap64_small by (unfold Spec.int64; lia). lia.
  - cbn [map Spec.total] in Hb.
    pose proof (total_abs_nonneg (map snd rest)).
    destruct (key_eqb k (fst g)).
    + cbn [map Spec.total snd].
      rewrite wrap64_small by (unfold Spec.int64; lia). lia.
    + destruct (key_ltb k (fst g)).
      * cbn [map Spec.total snd].
        rewrite wrap64_small by (unfold Spec.int64; lia). lia.
      * cbn [map Spec.total]. destruct IH as [IH1 IH2]; lia.
Qed.

Lemma total_fold rows groups :
  Spec.total (map Z.abs (map snd groups))
  + Spec.total (map Z.abs (map snd (Spec.complete_rows rows))) < 2 ^ 63 ->
  Spec.total (map snd (fold_left add_row rows groups))
  = Spec.total (map snd groups)
    + Spec.total (map snd (Spec.complete_rows rows)).
Proof.
  revert groups. induction rows as [|row rows IH]; cbn [fold_left];
    intros groups Hb.
  - cbn. lia.
  - rewrite complete_rows_cons in *.
    destruct row as [[[d|] [c|]] q]; cbn [add_row]; try (now apply IH).
    cbn [map Spec.total snd] in *.
    pose proof (total_abs_nonneg (map snd (Spec.complete_rows rows))).
    destruct (total_add_to_group (d, c) q groups) as [H1 H2]; [lia|].
    rewrite IH by lia. lia.
Qed.

Lemma Qsum_records groups :
  Qsum (map quantity_sold (map record_of groups))
  == inject_Z (Spec.total (map snd groups)).
Proof.
  induction groups as [|g rest IH]; [reflexivity|].
  cbn [map Qsum fold_right Spec.total quantity_sold record_of].
  fold (Qsum (map quantity_sold (map record_of rest))).
  rewrite IH, inject_Z_plus. reflexivity.
Qed.

(** **** The joins *)

Lemma id_eqb_iff a b : id_eqb a b = true <-> a = b.
Proof.
  destruct a as [x|], b as [y|]; cbn [id_eqb];
    rewrite ?String.eqb_eq; split; congruence.
Qed.

Lemma existsb_filter {A} (f : A -> bool) (l : list A) :
  existsb f l = match filter f l with [] => false | _ => true end.
Proof.
  induction l as [|a l IH]; cbn [existsb filter]; [reflexivity|].
  destruct (f a); cbn [orb]; auto.
Qed.

Lemma existsb_and_filter {A} (f g : A -> bool) (l : list A) :
  existsb (fun x => f x && g x) l = existsb g (filter f l).
Proof.
  induction l as [|a l IH]; cbn [existsb filter]; [reflexivity|].
  destruct (f a); cbn [andb orb existsb]; now rewrite IH.
Qed.

(** Among rows with pairwise distinct ids at most one has a given id. *)
Lemma unique_id_match {A} (id : A -> option string) (l : list A)
    (v : option string) :
  NoDup (map id l) ->
  filter (fun x => id_eqb (id x) v) l = [] \/
  exists x, filter (fun x => id_eqb (id x) v) l = [x].
Proof.
  induction l as [|a l IH]; cbn [map filter]; intros Hnd; [now left|].
  inversion Hnd as [|? ? Hnotin Hnd']; subst.
  destruct (id_eqb (id a) v) eqn:E.
  - apply id_eqb_iff in E. right. exists a. f_equal. apply none_filter_nil.
    intros y Hy. destruct (id_eqb (id y) v) eqn:E'; auto.
    apply id_eqb_iff in E'.
    exfalso. apply Hnotin. rewrite E, <- E'. now apply in_map.
  - now apply IH.
Qed.

Lemma sales_rows_cons i items txs prods :
  sales_rows (i :: items) txs prods =
  map sale_of
      (merge_products (map (pair i) (filter (of_transaction i) txs)) prods)
  ++ sales_rows items txs prods.
Proof.
  unfold sales_rows, merge_transactions, merge_products.
  cbn [flat_map]. now rewrite flat_map_app, map_app.
Qed.

Lemma complete_rows_app rows rows' :
  Spec.complete_rows (rows ++ rows') =
  Spec.complete_rows rows ++ Spec.complete_rows rows'.
Proof. unfold Spec.complete_rows. apply flat_map_app. Qed.

(** The rows the joins return: one for each item, transaction of its id
    and product of its id. *)
Lemma in_sales_rows items txs prods row :
  In row (sales_rows items txs prods) <->
  exists i t p,
    In i items /\ In t txs /\ In p prods /\
    transaction_id t = item_transaction i /\
    product_id p = item_product i /\
    row = (transaction_date t, product_category p, quantity i).
Proof.
  unfold sales_rows, merge_products, merge_transactions.
  rewrite in_map_iff. split.
  - intros ([[i t] p] & <- & H). apply in_flat_map in H.
    destruct H as ([i' t'] & Hit & Hp). apply in_map_iff in Hp.
    destruct Hp as (p' & E & Hp). inversion E; subst i' t' p'. clear E.
    apply filter_In in Hp.
    destruct Hp as [Hp Ep]. apply in_flat_map in Hit.
    destruct Hit as (i'' & Hi & Ht). apply in_map_iff in Ht.
    destruct Ht as (t'' & E & Ht). inversion E; subst i'' t''. clear E.
    apply filter_In in Ht.
    destruct Ht as [Ht Et]. cbn [fst] in Ep.
    apply id_eqb_iff in Ep, Et.
    exists i, t, p. repeat split; auto.
  - intros (i & t & p & Hi & Ht & Hp & Et & Ep & ->).
    exists (i, t, p). split; [reflexivity|].
    apply in_flat_map. exists (i, t). split.
    + apply in_flat_map. exists i. split; [exact Hi|].
      apply in_map. apply filter_In. split; [exact Ht|].
      now apply id_eqb_iff.
    + apply in_map. apply filter_In. split; [exact Hp|].
      now apply id_eqb_iff.
Qed.

Lemma joins_joined txs prods i :
  joins txs prods i = true <-> joined txs prods i.
Proof.
  unfold joins, joined.
  rewrite andb_true_iff, !existsb_exists. split.
  - intros [(t & Ht & Et) (p & Hp & Ep)].
    apply andb_true_iff in Et, Ep. destruct Et as [Et Dt], Ep as [Ep Cp].
    apply id_eqb_iff in Et, Ep.
    exists t, p. repeat split; auto.
    + intros E. rewrite E in Dt. discriminate.
    + intros E. rewrite E in Cp. discriminate.
  - intros (t & p & Ht & Hp & Et & Ep & Dt & Cp). split.
    + exists t. split; [exact Ht|]. apply andb_true_iff. split.
      * now apply id_eqb_iff.
      * destruct (transaction_date t); [reflexivity|congruence].
    + exists p. split; [exact Hp|]. apply andb_true_iff. split.
      * now apply id_eqb_iff.
      * destruct (product_category p); [reflexivity|congruence].
Qed.

(** With pairwise distinct transaction ids and product ids, the joins and
    the grouping keep an item once when it has a dated transaction and a
    product with a category, and drop it otherwise. *)
Lemma sales_rows_unique_ids items txs prods :
  NoDup (map transaction_id txs) -> NoDup (map product_id prods) ->
  map snd (Spec.complete_rows (sales_rows items txs prods)) =
  map quantity (filter (joins txs prods) items).
Proof.
  intros Ht Hp. induction items as [|i items IH]; [reflexivity|].
  rewrite sales_rows_cons, complete_rows_app, map_app, IH. cbn [filter].
  unfold joins at 2. rewrite !existsb_and_filter.
  fold (of_transaction i). fold (of_product i).
  destruct (unique_id_match transaction_id txs (item_transaction i) Ht)
    as [E|(t & E)]; unfold of_transaction at 1 2; rewrite E;
    [reflexivity|].
  cbn [map]. unfold merge_products. cbn [flat_map fst].
  destruct (unique_id_match product_id prods (item_product i) Hp)
    as [E'|(p & E')]; unfold of_product at 1 2; rewrite E';
    cbn [existsb map app orb andb]; [now rewrite andb_false_r|].
  unfold sale_of. cbn [fst snd]. rewrite complete_rows_cons.
  destruct (transaction_date t) as [d|], (product_category p) as [c|];
    reflexivity.
Qed.

Lemma groupby_sum_nil rows :
  groupby_sum rows = [] <-> Spec.complete_rows rows = [].
Proof.
  split.
  - intros H. destruct (Spec.complete_rows rows) as [|r l] eqn:E;
      [reflexivity|]. exfalso.
    assert (Hin : In (fst r) (map key (groupby_sum rows))).
    { apply in_groupby_sum_key. rewrite E. now left. }
    now rewrite H in Hin.
  - intros H. destruct (groupby_sum rows) as [|r l] eqn:E; [reflexivity|].
    exfalso.
    assert (Hin : In (key r) (map key (groupby_sum rows)))
      by (rewrite E; now left).
    apply in_groupby_sum_key in Hin. now rewrite H in Hin.
Qed.

(** The week's items: the items of the unknown transaction, of the
    unknown product, of the undated transaction and of the product
    without a category are gone, the rest is summed per day and category,
    in key order. *)
Example week_daily_sales :
  daily_sales week_items week_transactions week_products
  = [ mkSale 19723 "handgun" 1%Q; mkSale 19723 "rifle" 4%Q;
      mkSale 19725 "rifle" 2%Q ].
Proof. vm_compute. reflexivity. Qed.

(** A sum past the int64 range wraps around. *)
Example overflowing_sum_wraps :
  groupby_sum overflowing_rows
  = [mkSale 19723 "rifle" (inject_Z (- 2 ^ 63))].
Proof. vm_compute. reflexivity. Qed.

(** The grid of [complete], given the least and the greatest date. *)
Lemma complete_grid (S : list SalesRecord) (lo hi : Z)
    (Hkeys : NoDup (map key S))
    (Hlo : In lo (map date S)) (Hlo_le : forall d, In d (map date S) -> lo <= d)
    (Hhi : In hi (map date S)) (Hhi_ge : forall d, In d (map date S) -> d <= hi) :
  complete S =
  Ok (map (cell_at S)
          (from_product (days_from lo (Z.to_nat (hi - lo + 1)))
                        (unique (map category S)))).
Proof.
  unfold complete.
  rewrite (date_min_least _ lo Hlo Hlo_le), (date_max_greatest _ hi Hhi Hhi_ge).
  cbn [date_range bind]. now rewrite (merge_on_unique_keys _ _ Hkeys).
Qed.

Lemma cell_at_quantity S d c :
  NoDup (map key S) ->
  quantity_sold (cell_at S (d, c)) == group_quantity (d, c) S.
Proof.
  intros Hk. unfold cell_at, group_quantity. cbn [fst snd].
  destruct (unique_key_match S d c Hk) as [E|(r & E & _)]; rewrite E; cbn.
  - reflexivity.
  - ring.
Qed.

Lemma grid_cell S (grid : list (Z * string)) d c :
  NoDup grid -> In (d, c) grid ->
  filter (same_key d c) (map (cell_at S) grid) = [cell_at S (d, c)].
Proof.
  intros Hnd Hin. rewrite filter_map_swap.
  rewrite (filter_singleton _ grid (d, c)); auto.
  - apply same_key_iff. now rewrite cell_at_key.
  - intros y _ Hy. apply same_key_iff in Hy. now rewrite cell_at_key in Hy.
Qed.

Lemma dates_of_groups rows d :
  In d (map date (groupby_sum rows)) <->
  In d (map fst (map fst (Spec.complete_rows rows))).
Proof.
  replace (map date (groupby_sum rows))
    with (map fst (map key (groupby_sum rows)))
    by (rewrite map_map; reflexivity).
  rewrite !in_map_iff. split; intros (k & <- & Hk); exists k; split; auto;
    now apply in_groupby_sum_key.
Qed.

Lemma categories_of_groups rows c :
  In c (map category (groupby_sum rows)) <->
  In c (map snd (map fst (Spec.complete_rows rows))).
Proof.
  replace (map category (groupby_sum rows))
    with (map snd (map key (groupby_sum rows)))
    by (rewrite map_map; reflexivity).
  rewrite !in_map_iff. split; intros (k & <- & Hk); exists k; split; auto;
    now apply in_groupby_sum_key.
Qed.

(** X1. The groups are in strictly increasing key order (date, then
    category), so no two of them share a key. *)
Theorem groupby_sum_sorted (rows : list (option Z * option string * Z)) :
  StronglySorted key_lt (map key (groupby_sum rows)) /\
  NoDup (map key (groupby_sum rows)).
Proof.
  split; [|apply NoDup_groupby_sum].
  unfold groupby_sum. rewrite keys_of_records.
  apply groupby_fold_sorted. constructor.
Qed.

(** X2. The groups are the (date, category) pairs of the rows that have
    both, a row without a date or without a category counting in none;
    each group holds the int64 sum of the quantities of the rows of its
    key: the int64 value congruent to their sum modulo 2^64, which is
    their sum when that is an int64 value. *)
Theorem groupby_sum_totals (rows : list (option Z * option string * Z)) :
  (forall d c, In (d, c) (map key (groupby_sum rows)) <->
               exists q, In (Some d, Some c, q) rows) /\
  (forall r, In r (groupby_sum rows) ->
     let sum := Spec.total (Spec.sold_on (date r) (category r) rows) in
     exists z,
       quantity_sold r = inject_Z z /\
       Spec.int64 z /\
       (z - sum) mod 2 ^ 64 = 0 /\
       (Spec.int64 sum -> z = sum)).
Proof.
  split.
  - intros d c. rewrite in_groupby_sum_key, in_map_iff. split.
    + intros ([[d' c'] q] & [= -> ->] & H). exists q.
      now apply in_complete_rows.
    + intros (q & H). exists (d, c, q). split; [reflexivity|].
      now apply in_complete_rows.
  - intros r Hr. cbv zeta. unfold groupby_sum in Hr.
    apply in_map_iff in Hr. destruct Hr as (g & <- & Hg).
    exists (snd g). split; [reflexivity|].
    assert (Hv : snd g
                 = wrap64 (Spec.total
                             (Spec.sold_on (fst (fst g)) (snd (fst g)) rows))).
    { rewrite <- group_value_groupby. symmetry.
      apply group_value_member; [|exact Hg].
      apply sorted_keys_NoDup, groupby_fold_sorted. constructor. }
    cbn [date category record_of]. rewrite Hv.
    split; [apply wrap64_range|]. split; [apply wrap64_congruent|].
    apply wrap64_small.
Qed.

(** X3. With pairwise distinct transaction ids and product ids and
    quantities whose absolute values add up to less than 2^63, the daily
    totals add up to the quantities of the items that have a dated
    transaction and a product with a category: an item without one is
    dropped by the inner joins or by the grouping and is missing from the
    totals. *)
Theorem daily_sales_total (transaction_items : list Item)
    (transactions : list Transaction) (products : list Product)
    (Htransactions : NoDup (map transaction_id transactions))
    (Hproducts : NoDup (map product_id products))
    (Hbound :
       Spec.total (map Z.abs
                     (map quantity
                        (filter (joins transactions products)
                                transaction_items))) < 2 ^ 63) :
  (forall i, joins transactions products i = true <->
             joined transactions products i) /\
  Qsum (map quantity_sold
            (daily_sales transaction_items transactions products)) ==
  inject_Z
    (Spec.total (map quantity
                   (filter (joins transactions products)
                           transaction_items))).
Proof.
  split; [intros i; apply joins_joined|].
  unfold daily_sales, groupby_sum. rewrite Qsum_records.
  rewrite <- (sales_rows_unique_ids _ _ _ Htransactions Hproducts) in *.
  rewrite total_fold; [reflexivity|]. cbn [map Spec.total]. lia.
Qed.

Lemma daily_sales_total_witness :
  (forall i, joins week_transactions week_products i = true <->
             joined week_transactions week_products i) /\
  Qsum (map quantity_sold
            (daily_sales week_items week_transactions week_products)) ==
  inject_Z
    (Spec.total (map quantity
                   (filter (joins week_transactions week_products)
                           week_items))).
Proof.
  apply (daily_sales_total week_items week_transactions week_products).
  - repeat constructor; cbn; intuition discriminate.
  - repeat constructor; cbn; intuition discriminate.
  - vm_compute. reflexivity.
Defined.

(** X4. Grouping followed by calendar completion.  When some joined row has a
    date and a category, and the absolute values of the quantities of
    such rows add up to no more than 2^53, the completed table has one
    row for every day between the first and the last date of these rows
    and every category of these rows, and nothing else; the row of a day
    and a category holds the total quantity of the joined rows of that
    day and category (zero when there is none). *)
Theorem grouped_sales_completed (rows : list (option Z * option string * Z))
    (Hne : exists d c q, In (Some d, Some c, q) rows)
    (Hbound :
       Spec.total (map Z.abs (map snd (Spec.complete_rows rows))) <= 2 ^ 53) :
  let dates := map fst (map fst (Spec.complete_rows rows)) in
  let categories := map snd (map fst (Spec.complete_rows rows)) in
  exists grid lo hi,
    complete (groupby_sum rows) = Ok grid /\
    (In lo dates /\ forall d, In d dates -> lo <= d) /\
    (In hi dates /\ forall d, In d dates -> d <= hi) /\
    List.length grid =
      (Z.to_nat (hi - lo + 1) *
       List.length (nodup string_dec categories))%nat /\
    (forall g, In g grid ->
       lo <= date g <= hi /\ In (category g) categories) /\
    (forall d c, lo <= d <= hi -> In c categories ->
       exists g, filter (same_key d c) grid = [g] /\
                 quantity_sold g ==
                 inject_Z (Spec.total (Spec.sold_on d c rows))).
Proof.
  cbv zeta.
  set (S := groupby_sum rows).
  assert (HS : map date S <> []).
  { intros H. apply map_eq_nil in H. apply groupby_sum_nil in H.
    destruct Hne as (d & c & q & Hin). apply in_complete_rows in Hin.
    now rewrite H in Hin. }
  destruct (map date S) as [|d0 ds] eqn:Eds; [congruence|].
  destruct (fold_min_spec ds d0) as [Hlo Hlo_le].
  destruct (fold_max_spec ds d0) as [Hhi Hhi_ge].
  set (lo := fold_left Z.min ds d0) in *.
  set (hi := fold_left Z.max ds d0) in *.
  rewrite <- Eds in Hlo, Hlo_le, Hhi, Hhi_ge.
  pose proof (NoDup_groupby_sum rows) as Hkeys. fold S in Hkeys.
  exists (map (cell_at S)
              (from_product (days_from lo (Z.to_nat (hi - lo + 1)))
                            (unique (map category S)))), lo, hi.
  split; [now apply complete_grid|].
  split; [split; [apply (proj1 (dates_of_groups rows lo)); exact Hlo|
                  intros d Hd; apply Hlo_le;
                  apply (proj2 (dates_of_groups rows d)); exact Hd]|].
  split; [split; [apply (proj1 (dates_of_groups rows hi)); exact Hhi|
                  intros d Hd; apply Hhi_ge;
                  apply (proj2 (dates_of_groups rows d)); exact Hd]|].
  split; [|split].
  - rewrite length_map. unfold from_product.
    rewrite length_prod, length_days_from, length_unique. f_equal.
    apply Permutation_length. apply NoDup_Permutation;
      try apply NoDup_nodup.
    intros c. rewrite !nodup_In. apply categories_of_groups.
  - intros g Hg. apply in_map_iff in Hg. destruct Hg as ([d c] & <- & Hdc).
    apply in_prod_iff in Hdc. destruct Hdc as [Hd Hc].
    apply in_days_from in Hd. apply (proj1 (in_unique _ _)) in Hc.
    pose proof (cell_at_key S (d, c)) as Hk. unfold key in Hk.
    assert (Hkd : date (cell_at S (d, c)) = d) by congruence.
    assert (Hkc : category (cell_at S (d, c)) = c) by congruence.
    rewrite Hkd, Hkc.
    split; [|apply (proj1 (categories_of_groups rows c)); exact Hc].
    assert (lo <= hi) by (now apply Hlo_le). lia.
  - intros d c Hd Hc. exists (cell_at S (d, c)). split.
    + apply grid_cell.
      * apply NoDup_list_prod; [apply NoDup_days_from | apply NoDup_unique].
      * apply in_prod.
        -- apply in_days_from. lia.
        -- apply in_unique.
           apply (proj2 (categories_of_groups rows c)); exact Hc.
    + rewrite (cell_at_quantity S d c Hkeys). unfold S.
      rewrite group_quantity_groupby. cbn [fst snd].
      rewrite sold_on_exact; [reflexivity|].
      assert (2 ^ 53 < 2 ^ 63) by reflexivity. lia.
Qed.

Lemma grouped_sales_completed_witness :
  let rows := sales_rows week_items week_transactions week_products in
  let dates := map fst (map fst (Spec.complete_rows rows)) in
  let categories := map snd (map fst (Spec.complete_rows rows)) in
  exists grid lo hi,
    complete (groupby_sum rows) = Ok grid /\
    (In lo dates /\ forall d, In d dates -> lo <= d) /\
    (In hi dates /\ forall d, In d dates -> d <= hi) /\
    List.length grid =
      (Z.to_nat (hi - lo + 1) *
       List.length (nodup string_dec categories))%nat /\
    (forall g, In g grid ->
       lo <= date g <= hi /\ In (category g) categories) /\
    (forall d c, lo <= d <= hi -> In c categories ->
       exists g, filter (same_key d c) grid = [g] /\
                 quantity_sold g ==
                 inject_Z (Spec.total (Spec.sold_on d c rows))).
Proof.
  apply (grouped_sales_completed
           (sales_rows week_items week_transactions week_products)).
  - exists 19725, "rifle", 2. vm_compute. auto.
  - vm_compute. discriminate.
Defined.

(** X5. Grid construction raises [ValueError] exactly when no item has both a
    dated transaction and a product with a category; it returns a table
    otherwise. *)
Theorem no_joined_item_raises_ValueError (transaction_items : list Item)
    (transactions : list Transaction) (products : list Product) :
  (complete (daily_sales transaction_items transactions products)
   = Raise ValueError
   <-> forall i, In i transaction_items ->
                 ~ joined transactions products i) /\
  ((exists i, In i transaction_items /\ joined transactions products i) ->
   exists grid,
     complete (daily_sales transaction_items transactions products)
     = Ok grid).
Proof.
  assert (Hnil : Spec.complete_rows
                   (sales_rows transaction_items transactions products) = []
                 <-> forall i, In i transaction_items ->
                               ~ joined transactions products i).
  { split.
    - intros H i Hi (t & p & Ht & Hp & Et & Ep & Dt & Cp).
      destruct (transaction_date t) as [d|] eqn:Ed; [|congruence].
      destruct (product_category p) as [c|] eqn:Ec; [|congruence].
      assert (Hin : In (d, c, quantity i)
                       (Spec.complete_rows
                          (sales_rows transaction_items transactions
                                      products))).
      { apply in_complete_rows. apply in_sales_rows.
        exists i, t, p. rewrite Ed, Ec. repeat split; auto. }
      now rewrite H in Hin.
    - intros H.
      destruct (Spec.complete_rows
                  (sales_rows transaction_items transactions products))
        as [|[[d c] q] l] eqn:E; [reflexivity|]. exfalso.
      assert (Hin : In (d, c, q)
                       (Spec.complete_rows
                          (sales_rows transaction_items transactions
                                      products)))
        by (rewrite E; now left).
      apply in_complete_rows, in_sales_rows in Hin.
      destruct Hin as (i & t & p & Hi & Ht & Hp & Et & Ep & [= Hd Hc _]).
      apply (H i Hi). exists t, p. repeat split; auto; congruence. }
  split.
  - rewrite <- Hnil, <- groupby_sum_nil. unfold daily_sales. split.
    + intros Hraise.
      destruct (groupby_sum
                  (sales_rows transaction_items transactions products))
        as [|r l] eqn:E; [reflexivity|]. exfalso.
      destruct (FeatureBuilderFacts.complete_nonempty (r :: l)) as (g & HOk);
        [discriminate|].
      rewrite HOk in Hraise. discriminate.
    + intros ->. reflexivity.
  - intros (i & Hi & Hj). apply FeatureBuilderFacts.complete_nonempty.
    unfold daily_sales. intros H. apply groupby_sum_nil in H.
    exact (proj1 Hnil H i Hi Hj).
Qed.

End SalesAggregatorFacts.

(** *** Calendar completion, once more *)

Module CompletionFacts.
Import ListFacts CalendarCompleter CalendarCompleterFacts Frame.
Import SalesAggregator SalesAggregatorFacts.

Lemma filter_filter_absorb {A} (p q : A -> bool) (l : list A) :
  (forall x, In x l -> p x = true -> q x = true) ->
  filter p (filter q l) = filter p l.
Proof.
  induction l as [|a l IH]; cbn [filter]; intros H; [reflexivity|].
  destruct (q a) eqn:Eq; cbn [filter].
  - destruct (p a); rewrite IH; auto; intros; apply H; auto; now right.
  - destruct (p a) eqn:Ep.
    + rewrite (H a) in Eq; [discriminate|now left|assumption].
    + apply IH. intros; apply H; auto; now right.
Qed.

Lemma filter_comm {A} (p q : A -> bool) (l : list A) :
  filter p (filter q l) = filter q (filter p l).
Proof.
  induction l as [|a l IH]; cbn [filter]; [reflexivity|].
  destruct (p a) eqn:Ep, (q a) eqn:Eq; cbn [filter];
    rewrite ?Ep, ?Eq, IH; reflexivity.
Qed.

(** Selecting values commutes with [unique]. *)
Lemma filter_unique (p : string -> bool) (l : list string) :
  filter p (unique l) = unique (filter p l).
Proof.
  induction l as [|x r IH]; cbn [unique filter]; [reflexivity|].
  destruct (p x) eqn:Ep; cbn [unique].
  - f_equal. rewrite filter_comm. now rewrite IH.
  - rewrite <- IH. apply filter_filter_absorb.
    intros y _ Hy. destruct (String.eqb_spec x y) as [->|]; [congruence|].
    reflexivity.
Qed.

Lemma filter_neq_absent (a : string) (l : list string) :
  ~ In a l -> filter (fun y => negb (String.eqb a y)) l = l.
Proof.
  induction l as [|x l IH]; cbn [filter]; intros H; [reflexivity|].
  destruct (String.eqb_spec a x) as [->|]; cbn [negb].
  - exfalso. apply H. now left.
  - f_equal. apply IH. intros Hin. apply H. now right.
Qed.

(** Values seen again later do not show in [unique]. *)
Lemma unique_app_absorb (l r : list string) :
  NoDup l -> (forall x, In x r -> In x l) -> unique (l ++ r) = l.
Proof.
  intros Hnd. revert r. induction Hnd as [|a l Ha Hnd IH]; intros r Hr.
  - destruct r as [|x r]; [reflexivity|]. destruct (Hr x). now left.
  - cbn [app unique]. f_equal.
    rewrite filter_unique, filter_app, (filter_neq_absent a l Ha).
    apply IH. intros x Hx. apply filter_In in Hx. destruct Hx as [Hx Hne].
    destruct (Hr x Hx) as [->|]; [|assumption].
    now rewrite String.eqb_refl in Hne.
Qed.

Lemma snd_list_prod_In {A B} (l : list A) (l' : list B) y :
  In y (map snd (list_prod l l')) -> In y l'.
Proof.
  rewrite in_map_iff. intros ([a b] & <- & H).
  apply in_prod_iff in H. tauto.
Qed.

Lemma snd_list_prod_cons {A B} (a : A) (l : list A) (l' : list B) :
  map snd (list_prod (a :: l) l') = l' ++ map snd (list_prod l l').
Proof.
  cbn [list_prod]. rewrite map_app, map_map. cbn [snd].
  now rewrite map_id.
Qed.

Lemma keys_of_grid S (P : list (Z * string)) : map key (map (cell_at S) P) = P.
Proof.
  rewrite map_map. rewrite <- (map_id P) at 2.
  apply map_ext. intros dc. apply cell_at_key.
Qed.

(** The grid of the grid: same days, same categories, same cells. *)
Lemma complete_fixed (S : list SalesRecord) (lo hi : Z)
    (Hkeys : NoDup (map key S))
    (Hlo : In lo (map date S)) (Hlo_le : forall d, In d (map date S) -> lo <= d)
    (Hhi : In hi (map date S)) (Hhi_ge : forall d, In d (map date S) -> d <= hi) :
  let grid :=
    map (cell_at S)
        (from_product (days_from lo (Z.to_nat (hi - lo + 1)))
                      (unique (map category S))) in
  complete grid = Ok grid.
Proof.
  set (n := Z.to_nat (hi - lo + 1)). set (cats := unique (map category S)).
  intros grid.
  assert (Hle : lo <= hi) by (now apply Hlo_le).
  assert (Hn : exists m, n = Datatypes.S m).
  { exists (Z.to_nat (hi - lo)). unfold n. lia. }
  assert (Hcats : cats <> []).
  { apply in_map_iff in Hlo. destruct Hlo as (r & _ & Hr).
    intros E. assert (Hin : In (category r) cats).
    { apply in_unique. now apply in_map. }
    now rewrite E in Hin. }
  assert (HP : NoDup (from_product (days_from lo n) cats)).
  { apply NoDup_list_prod; [apply NoDup_days_from | apply NoDup_unique]. }
  assert (Hk : map key grid = from_product (days_from lo n) cats)
    by (apply keys_of_grid).
  assert (Hdates : forall d, In d (map date grid) <-> lo <= d <= hi).
  { intros d.
    replace (map date grid) with (map fst (map key grid))
      by (rewrite map_map; reflexivity).
    rewrite Hk, in_map_iff. split.
    - intros ([d' c] & <- & H). apply in_prod_iff in H.
      destruct H as [H _]. apply in_days_from in H. cbn [fst].
      unfold n in H. lia.
    - intros Hd. destruct cats as [|c cats']; [congruence|].
      exists (d, c). split; [reflexivity|]. apply in_prod; [|now left].
      apply in_days_from. unfold n. lia. }
  assert (Hc : unique (map category grid) = cats).
  { replace (map category grid) with (map snd (map key grid))
      by (rewrite map_map; reflexivity).
    rewrite Hk. destruct Hn as (m & ->).
    unfold from_product, days_from. cbn [seq map].
    rewrite snd_list_prod_cons.
    apply unique_app_absorb; [apply NoDup_unique|].
    intros x Hx. now apply snd_list_prod_In in Hx. }
  rewrite (complete_grid grid lo hi).
  - rewrite Hc. fold n. f_equal. unfold grid at 2.
    apply map_ext_in. intros [d c] Hdc.
    unfold cell_at at 1. cbn [fst snd]. unfold grid.
    rewrite (grid_cell S _ d c HP Hdc).
    unfold cell_at. cbn [fst snd].
    destruct (filter (same_key d c) S); reflexivity.
  - now rewrite Hk.
  - apply Hdates. lia.
  - intros d Hd. apply Hdates in Hd. lia.
  - apply Hdates. lia.
  - intros d Hd. apply Hdates in Hd. lia.
Qed.

(** X6. Calendar completion is idempotent on records with pairwise distinct
    keys: completing a completed table gives the same table. *)
Theorem complete_idempotent (S grid : list SalesRecord)
    (Hkeys : NoDup (map key S))
    (Hgrid : complete S = Ok grid) :
  complete grid = Ok grid.
Proof.
  destruct (map date S) as [|d0 ds] eqn:Eds.
  - apply map_eq_nil in Eds. subst S. discriminate.
  - destruct (fold_min_spec ds d0) as [Hlo Hlo_le].
    destruct (fold_max_spec ds d0) as [Hhi Hhi_ge].
    rewrite <- Eds in Hlo, Hlo_le, Hhi, Hhi_ge.
    rewrite (complete_grid S _ _ Hkeys Hlo Hlo_le Hhi Hhi_ge) in Hgrid.
    inversion Hgrid as [Hg].
    apply (complete_fixed S _ _ Hkeys Hlo Hlo_le Hhi Hhi_ge).
Qed.

Lemma complete_idempotent_witness :
  NoDup (map key three_days) /\
  exists grid, complete three_days = Ok grid /\ complete grid = Ok grid.
Proof.
  assert (Hk : NoDup (map key three_days)).
  { repeat constructor; cbn; intuition discriminate. }
  split; [exact Hk|]. eexists. split; [reflexivity|].
  apply (complete_idempotent three_days _ Hk). reflexivity.
Defined.








End CompletionFacts.

(** *** Forward fill: where gaps remain *)

Module FillGapFacts.
Import Frame.
Import ListFacts FrameFacts FillFacts.

Lemma last_known_missing (l : list cell) :
  last_known NaN l = NaN <-> forall c, In c l -> c = NaN.
Proof.
  induction l as [|c l IH] using rev_ind.
  - cbn. split; [intros _ c []|reflexivity].
  - rewrite last_known_app. cbn [last_known fold_left].
    destruct c as [|q|s|d]; cbn [isna].
    + rewrite IH. split.
      * intros H c Hc. apply in_app_or in Hc.
        destruct Hc as [Hc|[<-|[]]]; auto.
      * intros H c Hc. apply H. apply in_or_app. now left.
    + split; [discriminate|]. intros H.
      apply (H (Num q)). apply in_or_app. right. now left.
    + split; [discriminate|]. intros H.
      apply (H (Str s)). apply in_or_app. right. now left.
    + split; [discriminate|]. intros H.
      apply (H (Day d)). apply in_or_app. right. now left.
Qed.

Lemma in_firstn_nth (l : list cell) (i : nat) :
  (i < List.length l)%nat ->
  ((forall c, In c (firstn (S i) l) -> c = NaN) <->
   (forall j, (j <= i)%nat -> nth j l NaN = NaN)).
Proof.
  intros Hi. split.
  - intros H j Hj. apply H.
    assert (E : nth j (firstn (S i) l) NaN = nth j l NaN).
    { rewrite nth_firstn.
      destruct (Nat.ltb_spec j (S i)); [reflexivity|lia]. }
    rewrite <- E. apply nth_In. rewrite length_firstn. lia.
  - intros H c Hc. apply (In_nth _ _ NaN) in Hc.
    destruct Hc as (j & Hj & Hc). rewrite length_firstn in Hj.
    rewrite nth_firstn in Hc.
    destruct (Nat.ltb_spec j (S i)); [|lia].
    rewrite <- Hc. apply H. lia.
Qed.

(** X8. After a forward fill the only gaps are the leading ones: a cell is
    still missing exactly when it and every cell above it were missing;
    a present cell is kept, and the column keeps its length. *)
Theorem ffill_leaves_leading_gaps (l : list cell) (i : nat)
    (Hi : (i < List.length l)%nat) :
  (nth i (ffill l) NaN = NaN <->
   forall j, (j <= i)%nat -> nth j l NaN = NaN) /\
  (nth i l NaN <> NaN -> nth i (ffill l) NaN = nth i l NaN) /\
  List.length (ffill l) = List.length l.
Proof.
  unfold ffill. rewrite (nth_ffill_from NaN l i Hi).
  split; [|split].
  - rewrite last_known_missing. now apply in_firstn_nth.
  - intros Hp.
    rewrite <- (firstn_skipn i l) at 1.
    assert (Hf : List.length (firstn i l) = i)
      by (rewrite length_firstn; lia).
    destruct (skipn i l) as [|c r] eqn:Es.
    + exfalso. apply (f_equal (@List.length cell)) in Es.
      rewrite length_skipn in Es. cbn in Es. lia.
    + assert (Hc : nth i l NaN = c).
      { rewrite <- (firstn_skipn i l), Es.
        rewrite app_nth2 by lia. rewrite Hf, Nat.sub_diag. reflexivity. }
      replace (S i) with (List.length (firstn i l) + 1)%nat by lia.
      rewrite firstn_app_2. cbn [firstn]. rewrite last_known_app.
      cbn [last_known fold_left]. rewrite Hc in *.
      destruct c; cbn [isna]; congruence.
  - apply length_ffill_from.
Qed.

Lemma ffill_leaves_leading_gaps_witness :
  (nth 1 (ffill [NaN; NaN; Num 3; NaN]) NaN = NaN <->
   forall j, (j <= 1)%nat -> nth j [NaN; NaN; Num 3; NaN] NaN = NaN) /\
  (nth 1 [NaN; NaN; Num 3; NaN] NaN <> NaN ->
   nth 1 (ffill [NaN; NaN; Num 3; NaN]) NaN
   = nth 1 [NaN; NaN; Num 3; NaN] NaN) /\
  List.length (ffill [NaN; NaN; Num 3; NaN])
  = List.length [NaN; NaN; Num 3; NaN].
Proof.
  apply (ffill_leaves_leading_gaps [NaN; NaN; Num 3; NaN] 1). cbn. lia.
Defined.

End FillGapFacts.

(** *** Schema resolution: edge cases *)

Module ResolverFacts.
Import ListFacts SchemaResolver SchemaResolverFacts ResolverCase.

Lemma find_on_no_columns df ps :
  columns df = [] -> find_column_by_pattern df ps = Raise IndexError.
Proof.
  intros E. induction ps as [|p ps IH]; cbn [find_column_by_pattern];
    rewrite E; [reflexivity|]. cbn [filter]. exact IH.
Qed.

(** X9. The resolver fails on a table without columns and on no other: the
    fallback [df.columns[0]] raises [IndexError] there, whatever the
    patterns. *)
Theorem find_column_by_pattern_raises (df : DataFrame) (patterns : list string)
    (e : exn) :
  find_column_by_pattern df patterns = Raise e <->
  columns df = [] /\ e = IndexError.
Proof.
  split.
  - intros H. destruct (columns df) as [|c cs] eqn:E.
    + rewrite (find_on_no_columns df patterns E) in H.
      inversion H. auto.
    + destruct (resolves_on_columns df patterns) as (c' & Hc');
        [rewrite E; discriminate|].
      rewrite Hc' in H. discriminate.
  - intros [E ->]. now apply find_on_no_columns.
Qed.

Lemma col_matches_lower p p' c c' :
  lower p = lower p' -> lower c = lower c' ->
  col_matches p c = col_matches p' c'.
Proof. unfold col_matches. now intros -> ->. Qed.

(** Two column lists alike up to case: the first match of a pattern is
    at the same place in both. *)
Lemma first_match_lower p p' (cols cols' : list string) :
  lower p = lower p' -> map lower cols = map lower cols' ->
  map lower (filter (col_matches p) cols)
  = map lower (filter (col_matches p') cols').
Proof.
  intros Hp. revert cols'.
  induction cols as [|c cols IH]; intros [|c' cols'] H; try discriminate;
    [reflexivity|].
  cbn [map] in H. inversion H as [[Hc Hr]]. cbn [filter].
  rewrite (col_matches_lower p p' c c' Hp Hc).
  destruct (col_matches p' c'); cbn [map]; rewrite (IH cols' Hr);
    now rewrite ?Hc.
Qed.

(** X10. Resolution ignores case on both sides: patterns alike up to case,
    on tables whose column names are alike up to case, resolve to the
    columns at the same place (names alike up to case), or fail
    alike. *)
Theorem find_column_by_pattern_ignores_case
    (df df' : DataFrame) (patterns patterns' : list string)
    (Hpatterns : map lower patterns = map lower patterns')
    (Hcolumns : map lower (columns df) = map lower (columns df')) :
  lower_result (find_column_by_pattern df patterns)
  = lower_result (find_column_by_pattern df' patterns').
Proof.
  revert patterns' Hpatterns.
  induction patterns as [|p ps IH]; intros [|p' ps'] H; try discriminate.
  - cbn [find_column_by_pattern].
    destruct (columns df) as [|c cs], (columns df') as [|c' cs'];
      try discriminate; [reflexivity|].
    cbn [map] in Hcolumns. inversion Hcolumns. cbn. congruence.
  - cbn [map] in H. inversion H as [[Hp Hr]].
    cbn [find_column_by_pattern].
    pose proof (first_match_lower p p' _ _ Hp Hcolumns) as Hm.
    destruct (filter (col_matches p) (columns df)) as [|c cs],
             (filter (col_matches p') (columns df')) as [|c' cs'];
      try discriminate.
    + now apply IH.
    + cbn [map] in Hm. inversion Hm. cbn. congruence.
Qed.

Lemma find_column_by_pattern_ignores_case_witness :
  lower_result (find_column_by_pattern test_frame ["time"; "DATE"])
  = lower_result
      (find_column_by_pattern
         [ ("CUSTOMER_ID", mkSeries Numeric [Num 1]);
           ("transaction_date", mkSeries Object [Str "2023-01-01"]);
           ("Delivery_Date", mkSeries Object [Str "2023-01-03"]) ]
         ["Time"; "date"]).
Proof.
  apply (find_column_by_pattern_ignores_case
           test_frame
           [ ("CUSTOMER_ID", mkSeries Numeric [Num 1]);
             ("transaction_date", mkSeries Object [Str "2023-01-01"]);
             ("Delivery_Date", mkSeries Object [Str "2023-01-03"]) ]
           ["time"; "DATE"] ["Time"; "date"]); reflexivity.
Defined.

End ResolverFacts.

(** *** The dataset loader *)

Module LoaderFacts.
Import SchemaResolver SchemaResolverFacts Loader.

Lemma lower_ascii_upper c : lower_ascii (upper_ascii c) = lower_ascii c.
Proof. destruct c as [[] [] [] [] [] [] [] []]; reflexivity. Qed.

Lemma lower_ascii_idem c : lower_ascii (lower_ascii c) = lower_ascii c.
Proof. destruct c as [[] [] [] [] [] [] [] []]; reflexivity. Qed.

Lemma upper_ascii_sep c : Ascii.eqb (upper_ascii c) "/" = Ascii.eqb c "/".
Proof. destruct c as [[] [] [] [] [] [] [] []]; reflexivity. Qed.

Lemma lower_idem s : lower (lower s) = lower s.
Proof.
  induction s as [|c s IH]; cbn [lower]; [reflexivity|].
  now rewrite lower_ascii_idem, IH.
Qed.

Lemma lower_capitalize s : lower (capitalize s) = lower s.
Proof.
  destruct s as [|c s]; cbn [capitalize lower]; [reflexivity|].
  now rewrite lower_ascii_upper, lower_idem.
Qed.

Lemma starts_with_sep_capitalize s :
  starts_with_sep (capitalize s) = starts_with_sep s.
Proof.
  destruct s as [|c s]; [reflexivity|]. cbn [capitalize].
  assert (H : forall a r, starts_with_sep (String a r) = Ascii.eqb a "/").
  { intros a r. destruct a as [[] [] [] [] [] [] [] []]; reflexivity. }
  now rewrite !H, upper_ascii_sep.
Qed.

(** The capitalised candidate is the exact path up to case. *)
Lemma lower_capitalized_path directory filename :
  lower (path_join directory (capitalize filename))
  = lower (path_join directory filename).
Proof.
  unfold path_join. rewrite starts_with_sep_capitalize.
  destruct (starts_with_sep filename); [apply lower_capitalize|].
  destruct (String.eqb directory "" || ends_with_sep directory)%bool;
    rewrite !lower_append, ?lower_capitalize; reflexivity.
Qed.

Section FileSystem.
Variable exists_ : string -> bool.

(** X11. [find_file] returns one of its three candidates, and a path that
    does not exist only when none of the three exists: the caller's
    [read_csv] then fails on the exact path. *)
Theorem find_file_found (filename directory : string) :
  let exact_path := path_join directory filename in
  let lowercase_path :=
    path_join directory ("lowercase_" ++ filename)%string in
  let capitalized_path := path_join directory (capitalize filename) in
  In (find_file exists_ filename directory)
     [exact_path; lowercase_path; capitalized_path] /\
  exists_ (find_file exists_ filename directory)
  = (exists_ exact_path || exists_ lowercase_path
     || exists_ capitalized_path)%bool /\
  (exists_ (find_file exists_ filename directory) = false ->
   find_file exists_ filename directory = exact_path).
Proof.
  cbv zeta. unfold find_file.
  destruct (exists_ (path_join directory filename)) eqn:E1;
    cbn [orb]; [rewrite E1; cbn; auto|].
  destruct (exists_ (path_join directory ("lowercase_" ++ filename)))
    eqn:E2; cbn [orb]; [rewrite E2; cbn; intuition discriminate|].
  destruct (exists_ (path_join directory (capitalize filename)))
    eqn:E3; [rewrite E3; cbn; intuition discriminate|].
  rewrite E1. cbn. auto.
Qed.

(** X12. On a file system that ignores the case of letters, and for a file
    name in ASCII, the capitalised probe finds nothing the exact probe
    has not found: the result is the exact path or the [lowercase_]
    path. *)
Theorem find_file_case_insensitive (filename directory : string)
    (Hname : Spec.ascii_text filename)
    (Hfs : forall p q, Spec.same_text p q -> exists_ p = exists_ q) :
  find_file exists_ filename directory =
  if exists_ (path_join directory filename)
  then path_join directory filename
  else if exists_ (path_join directory ("lowercase_" ++ filename)%string)
       then path_join directory ("lowercase_" ++ filename)%string
       else path_join directory filename.
Proof.
  unfold find_file.
  rewrite (Hfs (path_join directory (capitalize filename))
               (path_join directory filename))
    by (apply same_text_lower, lower_capitalized_path).
  destruct (exists_ (path_join directory filename)) eqn:E1; [reflexivity|].
  destruct (exists_ (path_join directory ("lowercase_" ++ filename)));
    reflexivity.
Qed.

End FileSystem.

Lemma find_file_case_insensitive_witness :
  find_file (fun p => String.eqb (lower p) "/data/lowercase_sales.csv")
            "Sales.CSV" "/data"
  = "/data/lowercase_Sales.CSV".
Proof.
  apply (find_file_case_insensitive
           (fun p => String.eqb (lower p) "/data/lowercase_sales.csv")
           "Sales.CSV" "/data").
  - cbn; repeat split; reflexivity.
  - intros p q H. apply same_text_lower in H. now rewrite H.
Defined.

(** The three tests of [TestFileUtils] in [tests/test_utils.py]. *)
Example test_find_file_exact_match :
  find_file (fun path => endswith path "test.csv") "test.csv" "/fake/dir"
  = "/fake/dir/test.csv".
Proof. reflexivity. Qed.

Example test_find_file_lowercase_match :
  find_file (fun path => endswith path "lowercase_test.csv")
            "test.csv" "/fake/dir"
  = "/fake/dir/lowercase_test.csv".
Proof. reflexivity. Qed.

Example test_find_file_no_match :
  find_file (fun _ => false) "test.csv" "/fake/dir" = "/fake/dir/test.csv".
Proof. reflexivity. Qed.

End LoaderFacts.

(** *** Calendar features *)

Module CalendarFacts.
Import Frame FeatureBuilder.

Lemma civil_ranges d : 1 <= month d <= 12 /\ 1 <= day d <= 31.
Proof.
  unfold month, day, civil. cbv zeta. cbn [fst snd].
  match goal with
  | |- context [if ?b then _ else _] =>
      let E := fresh "E" in
      destruct b eqn:E; rewrite ?Z.ltb_lt, ?Z.ltb_ge in E
  end;
    Z.to_euclidean_division_equations; lia.
Qed.

(** X13. The calendar features of any date are in range: the weekday is
    0..6, the month 1..12, the day 1..31, the quarter 1..4 and the
    quarter of the month; the weekend flag is 1 on weekdays 5 and 6 and
    0 on the others, and both repeat every seven days. *)
Theorem calendar_features_in_range (d : Z) :
  0 <= dayofweek d <= 6 /\
  1 <= month d <= 12 /\
  1 <= day d <= 31 /\
  (1 <= quarter d <= 4 /\ 3 * quarter d - 2 <= month d <= 3 * quarter d) /\
  (is_weekend d = 1 /\ 5 <= dayofweek d \/
   is_weekend d = 0 /\ dayofweek d < 5) /\
  dayofweek (d + 7) = dayofweek d /\
  is_weekend (d + 7) = is_weekend d.
Proof.
  destruct (civil_ranges d) as [Hm Hd].
  assert (Hw : dayofweek (d + 7) = dayofweek d).
  { unfold dayofweek. replace (d + 7 + 3) with (d + 3 + 1 * 7) by ring.
    apply Z.mod_add. discriminate. }
  assert (Hdow := Z.mod_pos_bound (d + 3) 7 eq_refl).
  fold (dayofweek d) in Hdow.
  split; [lia|]. split; [exact Hm|]. split; [exact Hd|].
  split; [unfold quarter; Z.to_euclidean_division_equations; lia|].
  split; [|split; [exact Hw|unfold is_weekend; now rewrite Hw]].
  unfold is_weekend. destruct (Z.geb_spec (dayofweek d) 5); [left|right];
    split; auto; lia.
Qed.

End CalendarFacts.

(** *** The training matrix *)

Module TrainingMatrixFacts.
Import Frame Trainer.
Import ListFacts FrameFacts TrainerFacts.

(** What a successful run of [prepare_features] went through. *)
Lemma prepare_features_inv {float_mean : list Q -> Q} df cc c X y :
  prepare_features float_mean df cc c = Ok (X, y) ->
  exists cat fd',
    getitem df cc = Ok cat /\
    In "date" (columns df) /\
    impute_columns float_mean
      (filter (fun ns : string * Series =>
                 negb (existsb (String.eqb (fst ns)) ["date"; cc]))
              (filter_rows (category_mask cat c) df)) = Ok fd' /\
    X = filter (fun ns : string * Series =>
                  negb (existsb (String.eqb (fst ns)) ["quantity_sold"])) fd' /\
    getitem fd' "quantity_sold" = Ok y.
Proof.
  unfold prepare_features.
  destruct (getitem df cc) as [cat|e] eqn:Hcat; [|discriminate].
  cbn [bind]. unfold drop at 1.
  destruct (forallb _ ["date"; cc]) eqn:Hd; [|discriminate]. cbn [bind].
  destruct (impute_columns float_mean _) as [fd'|e] eqn:Hi; [|discriminate]. cbn [bind].
  unfold drop.
  destruct (forallb _ ["quantity_sold"]); [|discriminate]. cbn [bind].
  destruct (getitem fd' "quantity_sold") as [y'|e] eqn:Hy; [|discriminate].
  cbn [bind]. intros [= <- <-]. exists cat, fd'.
  repeat split; auto.
  cbn [forallb] in Hd. apply andb_true_iff in Hd. destruct Hd as [Hd _].
  apply has_column_iff in Hd. now rewrite columns_filter_rows in Hd.
Qed.

Lemma impute_columns_inv {float_mean : list Q -> Q} fd fd' :
  impute_columns float_mean fd = Ok fd' ->
  Forall2 (fun ns ns' : string * Series =>
             fst ns = fst ns' /\ impute float_mean (snd ns) = Ok (snd ns')) fd fd'.
Proof.
  revert fd'. induction fd as [|[n s] fd IH]; cbn [impute_columns];
    intros fd' H.
  - inversion H. constructor.
  - destruct (impute float_mean s) as [s'|e] eqn:Hs; [|discriminate]. cbn [bind] in H.
    destruct (impute_columns float_mean fd) as [r|e]; [|discriminate]. cbn [bind] in H.
    inversion H. constructor; auto.
Qed.

Lemma imputed_columns {float_mean : list Q -> Q} fd fd' :
  impute_columns float_mean fd = Ok fd' -> columns fd' = columns fd.
Proof.
  intros H. apply impute_columns_inv in H. unfold columns.
  induction H as [|a b l l' [Hab _] _ IH]; cbn [map]; congruence.
Qed.

Lemma imputed_from {float_mean : list Q -> Q} fd fd' n s' :
  impute_columns float_mean fd = Ok fd' -> In (n, s') fd' ->
  exists s, In (n, s) fd /\ impute float_mean s = Ok s'.
Proof.
  intros H. apply impute_columns_inv in H.
  induction H as [|[k x] [k' x'] l l' [Hk Hx] _ IH]; intros Hin;
    [contradiction|].
  cbn [fst snd] in *. subst k'. destruct Hin as [[= -> ->]|Hin].
  - exists x. split; [now left|assumption].
  - destruct (IH Hin) as (s & Hs & Hi). exists s. split; [now right|assumption].
Qed.

Lemma columns_filter_names (p : string -> bool) (df : DataFrame) :
  columns (filter (fun ns : string * Series => p (fst ns)) df)
  = filter p (columns df).
Proof.
  unfold columns. induction df as [|[n s] df IH]; cbn [filter map fst];
    [reflexivity|].
  destruct (p n); cbn [map fst]; now rewrite IH.
Qed.

Lemma filter_filter_and {A} (p q : A -> bool) (l : list A) :
  filter p (filter q l) = filter (fun x => q x && p x) l.
Proof.
  induction l as [|a l IH]; cbn [filter]; [reflexivity|].
  destruct (q a); cbn [filter andb]; [destruct (p a)|]; now rewrite IH.
Qed.

Lemma prepare_features_columns {float_mean : list Q -> Q} df cc c X y :
  prepare_features float_mean df cc c = Ok (X, y) ->
  columns X =
  filter (fun n => negb (existsb (String.eqb n)
                                 ["date"; cc; "quantity_sold"]))
         (columns df).
Proof.
  intros H. apply prepare_features_inv in H.
  destruct H as (cat & fd' & _ & _ & Hi & -> & _).
  rewrite (columns_filter_names
             (fun n => negb (existsb (String.eqb n) ["quantity_sold"]))).
  rewrite (imputed_columns _ _ Hi).
  rewrite (columns_filter_names
             (fun n => negb (existsb (String.eqb n) ["date"; cc]))).
  rewrite columns_filter_rows, filter_filter_and.
  apply filter_ext. intros n. cbn [existsb].
  destruct (String.eqb n "date"), (String.eqb n cc),
           (String.eqb n "quantity_sold"); reflexivity.
Qed.

(** X14. The training matrix has the columns of the table other than the
    date, the category and the target, in the table's order; so every
    category is trained on the same schema. *)
Theorem prepare_features_schema (float_mean : list Q -> Q) (df : DataFrame)
    (category_col selected_category : string) (X : DataFrame) (y : Series)
    (Hrun : prepare_features float_mean df category_col selected_category = Ok (X, y)) :
  columns X =
    filter (fun n => negb (existsb (String.eqb n)
                                   ["date"; category_col; "quantity_sold"]))
           (columns df) /\
  forall other X' y',
    prepare_features float_mean df category_col other = Ok (X', y') ->
    columns X' = columns X.
Proof.
  split; [exact (prepare_features_columns _ _ _ _ _ Hrun)|].
  intros other X' y' H'.
  rewrite (prepare_features_columns _ _ _ _ _ H').
  now rewrite (prepare_features_columns _ _ _ _ _ Hrun).
Qed.

Lemma prepare_features_schema_witness :
  exists X y,
    prepare_features exact_mean scenario_C "category" "rifle" = Ok (X, y) /\
    columns X =
      filter (fun n => negb (existsb (String.eqb n)
                                     ["date"; "category"; "quantity_sold"]))
             (columns scenario_C) /\
    forall other X' y',
      prepare_features exact_mean scenario_C "category" other = Ok (X', y') ->
      columns X' = columns X.
Proof.
  eexists. eexists. split; [reflexivity|].
  eapply (prepare_features_schema exact_mean scenario_C "category" "rifle").
  reflexivity.
Defined.

(** **** No gap is left, but for a numeric column without a number *)

Lemma fold_pick_In {A} (better : A -> A -> bool) (l : list A) (c : A) :
  In (fold_left (fun best x => if better x best then x else best) l c)
     (c :: l).
Proof.
  revert c. induction l as [|a l IH]; intros c; cbn [fold_left];
    [now left|].
  destruct (better a c).
  - right. apply IH.
  - destruct (IH c) as [H|H]; [now left|right; now right].
Qed.

Lemma mode0_present l m : mode0 l = Ok m -> m <> NaN.
Proof.
  unfold mode0. destruct (dropna l) as [|c r] eqn:E; [discriminate|].
  intros [= <-].
  assert (Hin : In (fold_left (fun best x =>
                                 if beats (c :: r) x best then x else best)
                              r c) (dropna l))
    by (rewrite E; apply fold_pick_In).
  unfold dropna in Hin. apply filter_In in Hin.
  destruct Hin as [_ Hin]. intros Hn. rewrite Hn in Hin. discriminate.
Qed.

Lemma in_fillna v l x :
  In x (fillna v l) -> (x = v /\ In NaN l) \/ (In x l /\ x <> NaN).
Proof.
  unfold fillna. rewrite in_map_iff. intros (c & <- & Hc).
  destruct (isna c) eqn:E.
  - left. apply isna_iff in E. subst. auto.
  - right. split; auto. intros ->. discriminate.
Qed.

Lemma mean_missing {float_mean : list Q -> Q} l : mean float_mean l = NaN -> nums l = [].
Proof. unfold mean. destruct (nums l); [reflexivity|discriminate]. Qed.

Lemma nums_fillna_NaN l : nums (fillna NaN l) = nums l.
Proof.
  unfold nums, fillna. induction l as [|c l IH]; [reflexivity|].
  cbn [map flat_map]. rewrite IH. destruct c; reflexivity.
Qed.

Lemma impute_gap {float_mean : list Q -> Q} s s' :
  impute float_mean s = Ok s' -> In NaN (values s') ->
  dt s' = Numeric /\ nums (values s') = [].
Proof.
  unfold impute. destruct (existsb isna (values s)) eqn:Ena.
  - unfold is_numeric_dtype. destruct (dt s) eqn:Edt.
    + intros [= <-] Hin. cbn [dt values] in *. split; [reflexivity|].
      apply in_fillna in Hin. destruct Hin as [[Hm _]|[_ Hn]]; [|congruence].
      symmetry in Hm. rewrite Hm, nums_fillna_NaN.
      now apply (mean_missing (float_mean := float_mean)).
    + destruct (mode0 (values s)) as [m|e] eqn:Em; [|discriminate].
      cbn [bind]. intros [= <-] Hin. cbn [values] in Hin.
      apply in_fillna in Hin. destruct Hin as [[Hm _]|[_ Hn]]; [|congruence].
      symmetry in Hm. now apply mode0_present in Em.
    + destruct (mode0 (values s)) as [m|e] eqn:Em; [|discriminate].
      cbn [bind]. intros [= <-] Hin. cbn [values] in Hin.
      apply in_fillna in Hin. destruct Hin as [[Hm _]|[_ Hn]]; [|congruence].
      symmetry in Hm. now apply mode0_present in Em.
  - intros [= <-] Hin. exfalso.
    assert (Ht : existsb isna (values s) = true).
    { apply existsb_exists. exists NaN. auto. }
    congruence.
Qed.

(** X15. After [prepare_features] a missing value is left in the matrix or
    in the target only in a numeric column that holds no number at all
    for the category (its mean is missing too): every other gap has been
    filled. *)
Theorem prepare_features_leaves_no_gap (float_mean : list Q -> Q) (df : DataFrame)
    (category_col selected_category : string) (X : DataFrame) (y : Series)
    (Hrun : prepare_features float_mean df category_col selected_category = Ok (X, y)) :
  (forall n s, In (n, s) X -> In NaN (values s) ->
     dt s = Numeric /\ nums (values s) = []) /\
  (In NaN (values y) -> dt y = Numeric /\ nums (values y) = []).
Proof.
  apply prepare_features_inv in Hrun.
  destruct Hrun as (cat & fd' & _ & _ & Hi & -> & Hy).
  split.
  - intros n s Hin Hna. apply filter_In in Hin. destruct Hin as [Hin _].
    destruct (imputed_from _ _ _ _ Hi Hin) as (s0 & _ & Hs0).
    now apply (impute_gap (float_mean := float_mean) s0).
  - intros Hna.
    assert (Hin : exists n, In (n, y) fd').
    { exists "quantity_sold". clear -Hy.
      induction fd' as [|[k x] fd' IH]; [discriminate|].
      cbn [getitem] in Hy. unfold getitem in Hy. cbn in Hy.
      destruct (String.eqb k "quantity_sold") eqn:E.
      - apply String.eqb_eq in E. inversion Hy. subst. now left.
      - right. apply IH. exact Hy. }
    destruct Hin as (n & Hin).
    destruct (imputed_from _ _ _ _ Hi Hin) as (s0 & _ & Hs0).
    now apply (impute_gap (float_mean := float_mean) s0).
Qed.

Lemma prepare_features_leaves_no_gap_witness :
  exists X y,
    prepare_features exact_mean scenario_C "category" "rifle" = Ok (X, y) /\
    (forall n s, In (n, s) X -> In NaN (values s) ->
       dt s = Numeric /\ nums (values s) = []) /\
    (In NaN (values y) -> dt y = Numeric /\ nums (values y) = []).
Proof.
  eexists. eexists. split; [reflexivity|].
  eapply (prepare_features_leaves_no_gap exact_mean scenario_C "category" "rifle").
  reflexivity.
Defined.

(** **** Failures *)

Lemma getitem_raises df n e : getitem df n = Raise e -> e = KeyError.
Proof.
  induction df as [|[k x] df IH]; cbn [getitem]; [now intros [= <-]|].
  destruct (String.eqb k n); [discriminate|exact IH].
Qed.

Lemma drop_raises labels df e : drop labels df = Raise e -> e = KeyError.
Proof.
  unfold drop. destruct (forallb _ labels); [discriminate|now intros [= <-]].
Qed.

Lemma mode0_raises l e : mode0 l = Raise e -> e = KeyError.
Proof.
  unfold mode0. destruct (dropna l); [now intros [= <-]|discriminate].
Qed.

Lemma impute_raises {float_mean : list Q -> Q} s e : impute float_mean s = Raise e -> e = KeyError.
Proof.
  unfold impute. destruct (existsb isna (values s)); [|discriminate].
  destruct (is_numeric_dtype s); [discriminate|].
  destruct (mode0 (values s)) eqn:E; [discriminate|].
  cbn [bind]. intros [= <-]. now apply mode0_raises in E.
Qed.

Lemma impute_columns_raises {float_mean : list Q -> Q} fd e :
  impute_columns float_mean fd = Raise e -> e = KeyError.
Proof.
  induction fd as [|[k x] fd IH]; cbn [impute_columns]; [discriminate|].
  destruct (impute float_mean x) eqn:Ex; cbn [bind].
  - destruct (impute_columns float_mean fd); cbn [bind]; [discriminate|].
    intros [= <-]. now apply IH.
  - intros [= <-]. now apply impute_raises in Ex.
Qed.

Lemma prepare_features_KeyError_only {float_mean : list Q -> Q} df cc c e :
  prepare_features float_mean df cc c = Raise e -> e = KeyError.
Proof.
  unfold prepare_features.
  destruct (getitem df cc) eqn:E1; cbn [bind];
    [|intros [= <-]; now apply getitem_raises in E1].
  destruct (drop ["date"; cc] _) eqn:E2; cbn [bind];
    [|intros [= <-]; now apply drop_raises in E2].
  destruct (impute_columns float_mean _) as [fd'|] eqn:E3; cbn [bind];
    [|intros [= <-]; now apply impute_columns_raises in E3].
  destruct (drop ["quantity_sold"] fd') eqn:E4; cbn [bind];
    [|intros [= <-]; now apply drop_raises in E4].
  destruct (getitem fd' "quantity_sold") eqn:E5; cbn [bind];
    [discriminate|intros [= <-]; now apply getitem_raises in E5].
Qed.

(** X16. On a table with distinct column names, [prepare_features] raises
    no exception but [KeyError], and raises it whenever the table lacks
    the date, the category or the target column, or the category column
    is the target itself. *)
Theorem prepare_features_KeyError (float_mean : list Q -> Q) (df : DataFrame)
    (category_col selected_category : string)
    (Hcolumns : NoDup (columns df)) :
  (forall e, prepare_features float_mean df category_col selected_category = Raise e ->
             e = KeyError) /\
  (~ In "date" (columns df) \/ ~ In category_col (columns df) \/
   ~ In "quantity_sold" (columns df) \/ category_col = "quantity_sold" ->
   prepare_features float_mean df category_col selected_category = Raise KeyError).
Proof.
  split; [intros e; apply prepare_features_KeyError_only|].
  intros Hmiss.
  destruct (prepare_features float_mean df category_col selected_category)
    as [[X y]|e] eqn:Hrun.
  - exfalso. apply prepare_features_inv in Hrun.
    destruct Hrun as (cat & fd' & Hcat & Hdate & Hi & _ & Hy).
    apply getitem_In in Hcat. apply getitem_In in Hy.
    rewrite (imputed_columns _ _ Hi) in Hy.
    rewrite (columns_filter_names
               (fun n => negb (existsb (String.eqb n)
                                       ["date"; category_col]))) in Hy.
    apply filter_In in Hy. destruct Hy as [Hq Hne].
    rewrite columns_filter_rows in Hq.
    destruct Hmiss as [H|[H|[H|H]]]; try contradiction.
    subst category_col. cbn in Hne. discriminate.
  - f_equal. now apply prepare_features_KeyError_only in Hrun.
Qed.

Lemma prepare_features_KeyError_witness :
  NoDup (columns (tl scenario_C)) /\
  (forall e, prepare_features exact_mean (tl scenario_C) "category" "rifle" = Raise e ->
             e = KeyError) /\
  (~ In "date" (columns (tl scenario_C)) \/
   ~ In "category" (columns (tl scenario_C)) \/
   ~ In "quantity_sold" (columns (tl scenario_C)) \/
   "category" = "quantity_sold" ->
   prepare_features exact_mean (tl scenario_C) "category" "rifle" = Raise KeyError).
Proof.
  assert (H : NoDup (columns (tl scenario_C))).
  { repeat constructor; cbn; intuition discriminate. }
  split; [exact H|].
  apply (prepare_features_KeyError exact_mean (tl scenario_C) "category" "rifle" H).
Defined.

(** **** A category without rows *)

Lemma select_none mask l :
  (forall b, In b mask -> b = false) -> select mask l = [].
Proof.
  revert l. induction mask as [|b mask IH]; intros l H; [reflexivity|].
  destruct l as [|c l]; [reflexivity|]. cbn [select].
  rewrite (H b (or_introl eq_refl)). apply IH. intros; apply H; now right.
Qed.

Lemma category_mask_absent cat c :
  ~ In (Str c) (values cat) ->
  forall b, In b (category_mask cat c) -> b = false.
Proof.
  intros Habs b Hb. unfold category_mask in Hb. apply in_map_iff in Hb.
  destruct Hb as (x & <- & Hx).
  destruct x as [|q|s|d]; try reflexivity. cbn [cell_eqb].
  destruct (String.eqb_spec s c) as [->|]; [contradiction|reflexivity].
Qed.

Lemma absent_category_slice (float_mean : list Q -> Q) (df : DataFrame)
    (category_col selected_category : string) (cat : Series)
    (Hcat : getitem df category_col = Ok cat)
    (Habsent : ~ In (Str selected_category) (values cat))
    (Hdate : In "date" (columns df))
    (Hqty : In "quantity_sold" (columns df))
    (Hcc : category_col <> "quantity_sold") :
  exists X y,
    prepare_features float_mean df category_col selected_category = Ok (X, y) /\
    values y = [] /\
    forall n s, In (n, s) X -> values s = [].
Proof.
  pose proof (category_mask_absent cat selected_category Habsent) as Hmask.
  assert (Hfd : forall n s,
             In (n, s)
                (filter (fun ns : string * Series =>
                           negb (existsb (String.eqb (fst ns))
                                         ["date"; category_col]))
                        (filter_rows (category_mask cat selected_category) df))
             -> values s = []).
  { intros n s Hin. apply filter_In in Hin. destruct Hin as [Hin _].
    unfold filter_rows in Hin. apply in_map_iff in Hin.
    destruct Hin as ([k x] & [= <- <-] & _). cbn [values].
    now apply select_none. }
  assert (Himp : forall n s s',
             In (n, s)
                (filter (fun ns : string * Series =>
                           negb (existsb (String.eqb (fst ns))
                                         ["date"; category_col]))
                        (filter_rows (category_mask cat selected_category) df))
             -> impute float_mean s = Ok s' -> s' = s).
  { intros n s s' Hin. unfold impute. rewrite (Hfd n s Hin). cbn.
    now intros [= <-]. }
  destruct (prepare_features float_mean df category_col selected_category)
    as [[X y]|e] eqn:Hrun.
  - exists X, y. split; [reflexivity|].
    apply prepare_features_inv in Hrun.
    destruct Hrun as (cat' & fd' & Hcat' & _ & Hi & -> & Hy).
    rewrite Hcat in Hcat'. inversion Hcat'; subst cat'.
    assert (Hall : forall n s', In (n, s') fd' -> values s' = []).
    { intros n s' Hin.
      destruct (imputed_from _ _ _ _ Hi Hin) as (s0 & Hs0 & Himp0).
      rewrite (Himp n s0 s' Hs0 Himp0). now apply (Hfd n). }
    split.
    + clear -Hy Hall. induction fd' as [|[k x] fd' IH]; [discriminate|].
      cbn [getitem] in Hy. destruct (String.eqb k "quantity_sold").
      * inversion Hy. subst. apply (Hall k). now left.
      * apply IH; auto. intros n s' Hin. apply (Hall n). now right.
    + intros n s Hin. apply filter_In in Hin. destruct Hin as [Hin _].
      now apply (Hall n).
  - exfalso. unfold prepare_features in Hrun. rewrite Hcat in Hrun.
    cbn [bind] in Hrun. rewrite drop_present in Hrun.
    2:{ rewrite columns_filter_rows. intros l [<-|[<-|[]]]; auto.
        eapply getitem_In; eauto. }
    cbn [bind] in Hrun.
    destruct (impute_columns_ok float_mean
                (filter (fun ns : string * Series =>
                           negb (existsb (String.eqb (fst ns))
                                         ["date"; category_col]))
                        (filter_rows (category_mask cat selected_category) df)))
      as (fd' & Hi & Hcols & _).
    { intros n s Hin. exists s. unfold impute.
      rewrite (Hfd n s Hin). reflexivity. }
    rewrite Hi in Hrun. cbn [bind] in Hrun.
    assert (Hq : In "quantity_sold" (columns fd')).
    { rewrite Hcols.
      rewrite (columns_filter_names
                 (fun n => negb (existsb (String.eqb n)
                                         ["date"; category_col]))).
      apply filter_In. rewrite columns_filter_rows. split; [assumption|].
      apply negb_true_iff.
      destruct (existsb (String.eqb "quantity_sold") ["date"; category_col])
        eqn:E; [|reflexivity].
      apply existsb_exists in E. destruct E as (x & Hx & E).
      apply String.eqb_eq in E. subst x.
      destruct Hx as [Hx|[Hx|[]]]; [discriminate|congruence]. }
    rewrite drop_present in Hrun by (intros l [<-|[]]; auto).
    cbn [bind] in Hrun.
    destruct (In_getitem _ _ Hq) as (y & Hy). rewrite Hy in Hrun.
    discriminate.
Qed.

(** X17. For a category that does not occur in the table, [prepare_features]
    raises nothing: it returns a target and a matrix without rows, the
    matrix with the columns of any other category's; this is what the
    trainer of a configured but unobserved category gets. *)
Theorem prepare_features_absent_category (float_mean : list Q -> Q) (df : DataFrame)
    (category_col selected_category : string) (cat : Series)
    (Hcat : getitem df category_col = Ok cat)
    (Habsent : ~ In (Str selected_category) (values cat))
    (Hdate : In "date" (columns df))
    (Hqty : In "quantity_sold" (columns df))
    (Hcc : category_col <> "quantity_sold") :
  exists X y,
    prepare_features float_mean df category_col selected_category = Ok (X, y) /\
    values y = [] /\
    (forall n s, In (n, s) X -> values s = []) /\
    columns X =
      filter (fun n => negb (existsb (String.eqb n)
                                     ["date"; category_col; "quantity_sold"]))
             (columns df).
Proof.
  destruct (absent_category_slice float_mean df category_col selected_category cat
              Hcat Habsent Hdate Hqty Hcc) as (X & y & Hrun & Hy & HX).
  exists X, y. split; [exact Hrun|]. split; [exact Hy|].
  split; [exact HX|]. exact (prepare_features_columns _ _ _ _ _ Hrun).
Qed.

Lemma prepare_features_absent_category_witness :
  exists X y,
    prepare_features exact_mean scenario_C "category" "shotgun" = Ok (X, y) /\
    values y = [] /\
    (forall n s, In (n, s) X -> values s = []) /\
    columns X =
      filter (fun n => negb (existsb (String.eqb n)
                                     ["date"; "category"; "quantity_sold"]))
             (columns scenario_C).
Proof.
  eapply (prepare_features_absent_category exact_mean scenario_C "category" "shotgun").
  - reflexivity.
  - cbn. intuition discriminate.
  - cbn. auto.
  - cbn. auto.
  - discriminate.
Defined.

End TrainingMatrixFacts.

(** *** The forecast: failures and the schema handed to the first model *)

Module ForecastSchemaFacts.
Import CalendarCompleter Frame FeatureBuilder Trainer Forecast.
Import ListFacts CalendarCompleterFacts FrameFacts FeatureBuilderFacts.
Import TrainerFacts ForecastFacts TrainingMatrixFacts.

Lemma series_max_none (ds : Series) :
  (forall d, ~ In (Day d) (values ds)) -> series_max ds = None.
Proof.
  intros H. unfold series_max.
  replace (flat_map _ (values ds)) with (@nil Z); [reflexivity|].
  symmetry. induction (values ds) as [|c l IH]; [reflexivity|].
  cbn [flat_map]. rewrite IH by (intros d Hd; apply (H d); now right).
  destruct c as [| | |d]; try reflexivity.
  exfalso. apply (H d). now left.
Qed.

Lemma series_max_some (ds : Series) (d : Z) :
  In (Day d) (values ds) -> exists m, series_max ds = Some m.
Proof.
  intros H. unfold series_max.
  assert (Hin : In d (flat_map (fun c => match c with
                                         | Day d => [d]
                                         | _ => []
                                         end) (values ds))).
  { apply in_flat_map. exists (Day d). split; [assumption|now left]. }
  destruct (flat_map _ (values ds)) as [|a l]; [contradiction|].
  cbn [date_max]. eauto.
Qed.

Lemma hold_last_runs (data fdf : DataFrame) (cols : list string) (h : nat) :
  (forall c, In c cols -> In c (columns data)) ->
  exists out, hold_last data fdf cols h = Ok out.
Proof.
  intros H. destruct (hold_last_spec data fdf cols h H) as (out & Hout & _).
  eauto.
Qed.

Lemma fresh_calendar (D : Series) :
  add_calendar [("date", D)] = Ok ([("date", D)] ++ calendar_of D).
Proof.
  apply add_calendar_fresh; [reflexivity|].
  intros n Hn [<-|[]]. revert Hn. unfold calendar_names. simpl.
  intuition discriminate.
Qed.

Lemma series_max_last (ds : Series) (m : Z) :
  series_max ds = Some m ->
  In (Day m) (values ds) /\ forall d, In (Day d) (values ds) -> d <= m.
Proof.
  unfold series_max.
  assert (Hin : forall x,
            In x (flat_map (fun c => match c with
                                     | Day d => [d]
                                     | _ => []
                                     end) (values ds))
            <-> In (Day x) (values ds)).
  { intros x. rewrite in_flat_map. split.
    - intros (c & Hc & Hx). destruct c; try contradiction.
      destruct Hx as [<-|[]]. exact Hc.
    - intros H. exists (Day x). split; [exact H|now left]. }
  destruct (flat_map _ (values ds)) as [|a r]; [discriminate|].
  cbn [date_max]. intros [= <-].
  destruct (fold_max_spec r a) as [Hm Hle]. split.
  - now apply Hin.
  - intros d Hd. apply Hle. now apply Hin.
Qed.

(** X18. On a table whose [date] column, if any, holds dates and gaps, and
    whose horizon does not end on the last representable day, the future
    feature rows cannot be built in three cases only: the table has no
    [date] column ([KeyError]); its [date] column holds no date
    ([ValueError], from [pd.date_range] on [NaT]); the horizon runs past
    the last representable day ([OutOfBoundsDatetime]).  The forecast
    then fails alike, whatever the models. *)
Theorem future_features_raises (data : DataFrame) (category_col : string)
    (days : nat) (e : exn)
    (Hdates : forall ds c, getitem data "date" = Ok ds -> In c (values ds) ->
       c = NaN \/ exists d, c = Day d)
    (Hedge : forall ds d, getitem data "date" = Ok ds ->
       In (Day d) (values ds) ->
       d < max_day /\ d + Z.of_nat days <> max_day) :
  (future_features data category_col days = Raise e <->
   (~ In "date" (columns data) /\ e = KeyError) \/
   (exists ds, getitem data "date" = Ok ds /\
               (forall d, ~ In (Day d) (values ds)) /\ e = ValueError) \/
   (exists ds d, getitem data "date" = Ok ds /\
                 In (Day d) (values ds) /\
                 (forall d', In (Day d') (values ds) -> d' <= d) /\
                 d + Z.of_nat days > max_day /\
                 e = OutOfBoundsDatetime)) /\
  (future_features data category_col days = Raise e ->
   forall (Model : Type) (predict : Model -> DataFrame -> result (list cell))
          (models : list (string * Model)),
     generate_forecast Model predict models data category_col days = Raise e).
Proof.
  split.
  - unfold future_features.
    destruct (getitem data "date") as [ds|e0] eqn:Hds; cbn [bind].
    + destruct (series_max ds) as [m|] eqn:Hmax.
      * destruct (series_max_last ds m Hmax) as [Hin Hle].
        pose proof (Hedge ds m eq_refl Hin) as [Hlt Hm].
        assert (Hthird :
          (exists ds' d, Ok ds = Ok ds' /\ In (Day d) (values ds') /\
             (forall d', In (Day d') (values ds') -> d' <= d) /\
             d + Z.of_nat days > max_day /\ e = OutOfBoundsDatetime)
          <-> m + Z.of_nat days > max_day /\ e = OutOfBoundsDatetime).
        { split.
          - intros (ds' & d & [= <-] & Hd & Hdle & Hgt & He).
            assert (d = m) by (apply Z.le_antisymm; auto). subst d. auto.
          - intros [Hgt He]. exists ds, m. auto. }
        assert (Hnot1 : ~ (~ In "date" (columns data) /\ e = KeyError)).
        { intros [Hno _]. apply Hno. eapply getitem_In; eauto. }
        assert (Hnot2 : ~ (exists ds', Ok ds = Ok ds' /\
                             (forall d, ~ In (Day d) (values ds')) /\
                             e = ValueError)).
        { intros (ds' & [= <-] & Hnone & _). now apply (Hnone m). }
        cbn [next_day].
        destruct (m + 1 <=? max_day) eqn:E1; cbn [bind].
        -- apply Z.leb_le in E1. cbn [date_range_periods].
           destruct ((days =? 0)%nat
                     || (m + 1 + Z.of_nat days - 1 <=? max_day)) eqn:E2;
             cbn [bind].
           ++ rewrite fresh_calendar. cbn [bind].
              destruct (hold_last_runs data
                          ([("date",
                             mkSeries Datetime
                               (map Day (days_from (m + 1) days)))]
                           ++ calendar_of
                                (mkSeries Datetime
                                   (map Day (days_from (m + 1) days))))
                          (external_factor_cols data category_col) days)
                as (out & Hout).
              { intros c Hc. now apply external_factor_cols_spec in Hc. }
              rewrite Hout. split; [discriminate|].
              intros [H|[H|H]]; [tauto|tauto|].
              apply Hthird in H. destruct H as [Hgt _]. exfalso.
              apply orb_true_iff in E2. destruct E2 as [E2|E2].
              ** apply Nat.eqb_eq in E2. subst days. cbn in Hgt. lia.
              ** apply Z.leb_le in E2. lia.
           ++ apply orb_false_iff in E2. destruct E2 as [E0 E2].
              apply Z.leb_gt in E2. split.
              ** intros [= <-]. right. right. apply Hthird.
                 split; [lia|reflexivity].
              ** intros [H|[H|H]]; [tauto|tauto|].
                 apply Hthird in H. destruct H as [_ ->]. reflexivity.
        -- apply Z.leb_gt in E1. lia.
      * cbn [next_day bind date_range_periods]. split.
        -- intros [= <-]. right. left. exists ds. split; [reflexivity|].
           split; [|reflexivity].
           intros d Hd. destruct (series_max_some ds d Hd) as (m & Hm).
           congruence.
        -- intros [[Hno _]|[(ds' & Hds' & _ & ->)|H]]; [|reflexivity|].
           ++ exfalso. apply Hno. eapply getitem_In; eauto.
           ++ exfalso. destruct H as (ds' & d & [= <-] & Hd & _).
              destruct (series_max_some ds d Hd) as (m & Hm). congruence.
    + split.
      * intros [= <-]. left. split.
        -- intros Hin. destruct (In_getitem _ _ Hin) as (s & Hs). congruence.
        -- now apply getitem_raises in Hds.
      * intros [[_ ->]|[(ds' & Hds' & _)|(ds' & d & Hds' & _)]];
          [|discriminate|discriminate].
        f_equal. now apply getitem_raises in Hds.
  - intros H Model predict models. unfold generate_forecast.
    now rewrite H.
Qed.

Lemma future_features_raises_witness :
  (future_features [("date", mkSeries Datetime [NaN; Day 106750])]
                   "category" 90
   = Raise OutOfBoundsDatetime <->
   (~ In "date" (columns [("date", mkSeries Datetime [NaN; Day 106750])]) /\
    OutOfBoundsDatetime = KeyError) \/
   (exists ds,
       getitem [("date", mkSeries Datetime [NaN; Day 106750])] "date"
       = Ok ds /\
       (forall d, ~ In (Day d) (values ds)) /\
       OutOfBoundsDatetime = ValueError) \/
   (exists ds d,
       getitem [("date", mkSeries Datetime [NaN; Day 106750])] "date"
       = Ok ds /\
       In (Day d) (values ds) /\
       (forall d', In (Day d') (values ds) -> d' <= d) /\
       d + Z.of_nat 90 > max_day /\
       OutOfBoundsDatetime = OutOfBoundsDatetime)) /\
  (future_features [("date", mkSeries Datetime [NaN; Day 106750])]
                   "category" 90
   = Raise OutOfBoundsDatetime ->
   forall (Model : Type) (predict : Model -> DataFrame -> result (list cell))
          (models : list (string * Model)),
     generate_forecast Model predict models
       [("date", mkSeries Datetime [NaN; Day 106750])] "category" 90
     = Raise OutOfBoundsDatetime).
Proof.
  apply (future_features_raises
           [("date", mkSeries Datetime [NaN; Day 106750])] "category" 90
           OutOfBoundsDatetime).
  - intros ds c [= <-] [<-|[<-|[]]]; [now left|right; eauto].
  - intros ds d [= <-] [[=]|[[= <-]|[]]]. unfold max_day. cbn. lia.
Defined.

(** The three failures of the future rows. *)
Example future_features_failures :
  future_features [("day", mkSeries Datetime [Day 19723])] "category" 90
    = Raise KeyError /\
  future_features [("date", mkSeries Datetime [NaN; NaN])] "category" 90
    = Raise ValueError /\
  future_features [("date", mkSeries Datetime [Day 106750])] "category" 90
    = Raise OutOfBoundsDatetime.
Proof. repeat split. Qed.

(** **** Columns of the feature table and of the forecast frame *)

Lemma columns_ffill_columns df cols df' :
  ffill_columns df cols = Ok df' -> columns df' = columns df.
Proof.
  revert df. induction cols as [|c cols IH]; intros df; cbn [ffill_columns].
  - now intros [= <-].
  - destruct (getitem df c) as [s|e] eqn:Hs; [|discriminate]. cbn [bind].
    intros H. rewrite (IH _ H). apply columns_setitem_present.
    eapply getitem_In; eauto.
Qed.

Lemma columns_merge left right lo ro out :
  let right' :=
    if String.eqb lo ro
    then filter (fun ns : string * Series => negb (String.eqb (fst ns) ro))
                right
    else right in
  merge left right lo ro = Ok out ->
  (forall n, In n (columns left) -> ~ In n (columns right')) ->
  columns out = columns left ++ columns right'.
Proof.
  intros right'. unfold merge.
  destruct (getitem left lo); [|discriminate]. cbn [bind].
  destruct (getitem right ro); [|discriminate]. cbn [bind].
  fold right'. intros [= <-] Hdis.
  unfold columns. rewrite map_app, !map_map. cbn [fst]. f_equal.
  - apply map_ext_in. intros [n s] Hin. cbn [fst].
    replace (has_column right' n) with false; [reflexivity|].
    symmetry. apply has_column_false. apply Hdis.
    unfold columns. apply in_map_iff. exists (n, s). auto.
  - apply map_ext_in. intros [n s] Hin. cbn [fst].
    replace (has_column left n) with false; [reflexivity|].
    symmetry. apply has_column_false. intros Hl.
    apply (Hdis n Hl). unfold columns. apply in_map_iff. exists (n, s). auto.
Qed.

(** The feature table has the grid's columns, then the columns of the
    external table (less its date key when that is named [date]). *)
Lemma build_features_columns cc (grid : list SalesRecord) ext edc data :
  names_ok cc ext edc = true ->
  build_features cc grid ext edc = Ok data ->
  exists R,
    columns data = grid_columns cc ++ R /\
    (forall m, In m R -> In m (columns ext) /\ ~ In m (grid_columns cc)) /\
    (NoDup (columns ext) -> NoDup R).
Proof.
  intros Hok. unfold build_features.
  pose proof (names_ok_category _ _ _ Hok) as Hcc.
  set (D := mkSeries Datetime (map (fun r => Day (date r)) grid)).
  rewrite (add_calendar_fresh (to_frame cc grid) D); [|reflexivity|].
  2:{ intros n Hn. cbn [to_frame columns map fst]. intros [<-|[<-|[<-|[]]]].
      - revert Hn. unfold calendar_names. simpl. intuition discriminate.
      - apply Hcc. simpl. simpl in Hn. tauto.
      - revert Hn. unfold calendar_names. simpl. intuition discriminate. }
  cbn [bind].
  set (L := to_frame cc grid ++ calendar_of D).
  assert (HL : columns L = grid_columns cc) by reflexivity.
  set (right' :=
    if String.eqb "date" edc
    then filter (fun ns : string * Series => negb (String.eqb (fst ns) edc)) ext
    else ext).
  assert (Hright : forall m, In m (columns right') ->
            In m (columns ext) /\ ~ In m (grid_columns cc)).
  { intros m Hm. unfold right' in Hm.
    destruct (String.eqb "date" edc) eqn:Ee.
    - apply in_columns_filter_other in Hm. destruct Hm as [Hne Hin].
      split; auto.
      destruct (names_ok_external _ _ _ _ Hok Hin) as [[-> _]|H]; tauto.
    - split; auto.
      destruct (names_ok_external _ _ _ _ Hok Hm) as [[_ ->]|H]; auto.
      now rewrite String.eqb_refl in Ee. }
  destruct (merge L ext "date" edc) as [merged|e] eqn:Hm; [|discriminate].
  cbn [bind]. intros Hfill.
  exists (columns right'). split; [|split].
  - rewrite (columns_ffill_columns _ _ _ Hfill), <- HL.
    apply (columns_merge L ext "date" edc merged Hm).
    fold right'. intros n Hn Hr. rewrite HL in Hn.
    apply Hright in Hr. tauto.
  - exact Hright.
  - intros Hnd. unfold right'. destruct (String.eqb "date" edc); [|exact Hnd].
    rewrite (columns_filter_names
               (fun n => negb (String.eqb n edc)) ext).
    now apply NoDup_filter.
Qed.

Lemma columns_hold_last (data fdf : DataFrame) (cols : list string)
    (h : nat) (out : DataFrame) :
  NoDup cols -> (forall c, In c cols -> ~ In c (columns fdf)) ->
  hold_last data fdf cols h = Ok out ->
  columns out = columns fdf ++ cols.
Proof.
  intros Hnd. revert fdf.
  induction Hnd as [|k cols Hk Hnd IH]; intros fdf Hfresh; cbn [hold_last].
  - intros [= <-]. now rewrite app_nil_r.
  - destruct (getitem data k) as [s|e]; [|discriminate]. cbn [bind].
    intros Hrun. apply IH in Hrun.
    + rewrite Hrun, columns_setitem_absent by (apply Hfresh; now left).
      unfold columns. rewrite map_app, <- app_assoc. reflexivity.
    + intros c Hc.
      rewrite columns_setitem_absent by (apply Hfresh; now left).
      unfold columns. rewrite map_app. intros Hin.
      apply in_app_or in Hin. destruct Hin as [Hin|[<-|[]]].
      * apply (Hfresh c); [now right|exact Hin].
      * contradiction.
Qed.

Lemma future_features_columns data cc h fdf :
  NoDup (columns data) ->
  future_features data cc h = Ok fdf ->
  columns fdf = "date" :: calendar_names ++ external_factor_cols data cc.
Proof.
  intros Hnd. unfold future_features.
  destruct (getitem data "date") as [ds|]; [|discriminate]. cbn [bind].
  destruct (next_day _) as [start|]; [|discriminate]. cbn [bind].
  destruct (date_range_periods _ h) as [dates|]; [|discriminate].
  cbn [bind]. rewrite fresh_calendar. cbn [bind]. intros Hrun.
  apply columns_hold_last in Hrun.
  - rewrite Hrun. reflexivity.
  - now apply NoDup_filter.
  - intros c Hc Hin. apply external_factor_cols_spec in Hc.
    destruct Hc as [_ Hc]. apply Hc. unfold non_factor_columns.
    cbn in Hin. cbn. tauto.
Qed.

Lemma filter_all {A} (p : A -> bool) (l : list A) :
  (forall x, In x l -> p x = true) -> filter p l = l.
Proof.
  induction l as [|a l IH]; intros H; [reflexivity|]. cbn [filter].
  rewrite (H a) by (now left). f_equal. apply IH. intros; apply H; now right.
Qed.

Lemma not_in_existsb x l :
  ~ In x l -> negb (existsb (String.eqb x) l) = true.
Proof.
  intros H. apply negb_true_iff.
  destruct (existsb (String.eqb x) l) eqn:E; [|reflexivity].
  apply existsb_eqb_In in E. contradiction.
Qed.

(** X19. The first model of the prediction loop is handed the schema it was
    trained on: for a table built by [load_and_prepare_data], the columns
    of the forecast's feature matrix are those of the training matrix of
    any category, in the same order (the six calendar features, then the
    external columns). *)
Theorem first_model_gets_training_schema
    (float_mean : list Q -> Q)
    (category_col : string) (daily_sales : list SalesRecord)
    (external_factors data : DataFrame) (external_factors_date_col : string)
    (selected_category : string) (X : DataFrame) (y : Series)
    (days : nat) (forecast_df : DataFrame)
    (Hfind : SchemaResolver.find_column_by_pattern external_factors ["date"]
             = Ok external_factors_date_col)
    (Hnames : names_ok category_col external_factors
                       external_factors_date_col = true)
    (Hcols : NoDup (columns external_factors))
    (Hload : load_and_prepare_data category_col daily_sales external_factors
             = Ok data)
    (Htrain : prepare_features float_mean data category_col
                               selected_category
              = Ok (X, y))
    (Hfuture : future_features data category_col days = Ok forecast_df) :
  exists X0,
    X_forecast forecast_df = Ok X0 /\
    columns X0 = columns X /\
    exists factors,
      columns X = calendar_names ++ factors /\
      forall f, In f factors -> In f (columns external_factors).
Proof.
  unfold load_and_prepare_data in Hload. rewrite Hfind in Hload.
  cbn [bind] in Hload.
  destruct (complete daily_sales) as [grid|]; [|discriminate].
  cbn [bind] in Hload.
  destruct (build_features_columns _ _ _ _ _ Hnames Hload)
    as (R & Hdata & HR & HndR).
  specialize (HndR Hcols).
  pose proof (names_ok_category _ _ _ Hnames) as Hcc.
  assert (Hgrid : NoDup (grid_columns category_col)).
  { unfold grid_columns, calendar_names. cbn [app].
    cbn in Hcc. repeat constructor; cbn; intuition congruence. }
  assert (Hnd : NoDup (columns data)).
  { rewrite Hdata. apply NoDup_app; auto.
    intros n Hn Hr. apply HR in Hr. tauto. }
  assert (HRf : forall n, In n R -> ~ In n (non_factor_columns category_col)).
  { intros n Hn Hin. apply HR in Hn. destruct Hn as [_ Hn]. apply Hn.
    unfold grid_columns, calendar_names. unfold non_factor_columns in Hin.
    cbn in Hin. cbn. tauto. }
  assert (Hext : external_factor_cols data category_col = R).
  { unfold external_factor_cols. rewrite Hdata, filter_app.
    replace (filter _ (grid_columns category_col)) with (@nil string).
    - cbn [app]. apply filter_all. intros n Hn.
      apply not_in_existsb. now apply HRf.
    - symmetry. apply none_filter_nil. intros n Hn.
      apply negb_false_iff. apply existsb_eqb_In.
      unfold grid_columns, calendar_names in Hn. unfold non_factor_columns.
      cbn in Hn. cbn. tauto. }
  pose proof (future_features_columns _ _ _ _ Hnd Hfuture) as Hf.
  rewrite Hext in Hf.
  assert (HX : columns X = calendar_names ++ R).
  { rewrite (prepare_features_columns _ _ _ _ _ Htrain), Hdata, filter_app.
    f_equal.
    - unfold grid_columns. rewrite filter_app.
      rewrite (none_filter_nil _ ["date"; category_col; "quantity_sold"]).
      2:{ intros n Hn. apply negb_false_iff. now apply existsb_eqb_In. }
      cbn [app]. apply filter_all. intros n Hn. apply not_in_existsb.
      intros [<-|[<-|[<-|[]]]].
      + revert Hn. unfold calendar_names. cbn. intuition discriminate.
      + apply Hcc. right. right. exact Hn.
      + revert Hn. unfold calendar_names. cbn. intuition discriminate.
    - apply filter_all. intros n Hn. apply not_in_existsb.
      intros Hin. apply (HRf n Hn). unfold non_factor_columns.
      cbn in Hin. cbn. tauto. }
  unfold X_forecast. rewrite drop_present.
  2:{ intros l [<-|[]]. rewrite Hf. now left. }
  eexists. split; [reflexivity|]. split.
  - rewrite (columns_filter_names
               (fun n => negb (existsb (String.eqb n) ["date"]))).
    rewrite Hf, HX.
    change ("date" :: calendar_names ++ R)
      with (["date"] ++ (calendar_names ++ R)).
    rewrite filter_app.
    rewrite (none_filter_nil _ ["date"]).
    2:{ intros n Hn. apply negb_false_iff. now apply existsb_eqb_In. }
    cbn [app]. apply filter_all. intros n Hn.
    apply not_in_existsb. intros [<-|[]].
    apply in_app_or in Hn. destruct Hn as [Hn|Hn].
    + revert Hn. unfold calendar_names. cbn. intuition discriminate.
    + apply (HRf _ Hn). now left.
  - exists R. split; [exact HX|]. intros f Hf'. now apply HR.
Qed.

Lemma first_model_gets_training_schema_witness :
  exists X y forecast_df X0,
    prepare_features exact_mean prepared_data "category" "ammunition" = Ok (X, y) /\
    future_features prepared_data "category" 5 = Ok forecast_df /\
    X_forecast forecast_df = Ok X0 /\
    columns X0 = columns X /\
    exists factors,
      columns X = calendar_names ++ factors /\
      forall f, In f factors -> In f (columns two_factors).
Proof.
  destruct (prepare_features exact_mean prepared_data "category" "ammunition")
    as [[X y]|e] eqn:Htrain; [|vm_compute in Htrain; discriminate].
  destruct (future_features prepared_data "category" 5)
    as [fdf|e] eqn:Hfuture; [|vm_compute in Hfuture; discriminate].
  destruct (first_model_gets_training_schema exact_mean
              "category" two_category_sales two_factors prepared_data "date"
              "ammunition" X y 5%nat fdf)
    as (X0 & H0 & Hc & Hfac); try assumption; try reflexivity.
  - repeat constructor; cbn; intuition discriminate.
  - exists X, y, fdf, X0. auto.
Defined.

End ForecastSchemaFacts.

(** *** The pipeline end to end *)

Module PipelineFacts.
Import CalendarCompleter Frame FeatureBuilder Trainer Forecast Main.
Import ListFacts CalendarCompleterFacts FrameFacts FeatureBuilderFacts.
Import TrainerFacts ForecastFacts TrainingMatrixFacts ForecastSchemaFacts.

Lemma merged_categories (prod : list (Z * string)) (S : list SalesRecord) x :
  In x (map category (map fill_quantity (merge_sales prod S))) ->
  In x (map snd prod).
Proof.
  rewrite map_map, in_map_iff. intros (row & <- & Hrow).
  unfold merge_sales in Hrow. apply in_flat_map in Hrow.
  destruct Hrow as ([d c] & Hdc & Hin).
  apply in_map_iff. exists (d, c). split; auto.
  destruct (filter (same_key d c) S) as [|r ms].
  - destruct Hin as [<-|[]]. reflexivity.
  - apply in_map_iff in Hin. destruct Hin as (r' & <- & _). reflexivity.
Qed.

(** The grid holds no category the sales do not hold. *)
Lemma complete_categories (S grid : list SalesRecord) c :
  complete S = Ok grid -> In c (map category grid) -> In c (map category S).
Proof.
  unfold complete.
  destruct (date_range _ _) as [all_dates|]; [|discriminate]. cbn [bind].
  intros [= <-] Hin. apply merged_categories in Hin.
  apply in_map_iff in Hin. destruct Hin as ([d c'] & <- & Hin).
  apply in_prod_iff in Hin. destruct Hin as [_ Hin].
  apply (proj1 (in_unique _ _)) in Hin. exact Hin.
Qed.

Lemma in_take idx l x : In x (take idx l) -> x = NaN \/ In x l.
Proof.
  unfold take. rewrite in_map_iff. intros (i & <- & _).
  destruct (nth_in_or_default i l NaN); auto.
Qed.

Lemma ffill_columns_keeps df cols df' c :
  ffill_columns df cols = Ok df' -> ~ In c cols ->
  getitem df' c = getitem df c.
Proof.
  revert df. induction cols as [|k cols IH]; intros df; cbn [ffill_columns].
  - now intros [= <-].
  - destruct (getitem df k) as [s|]; [|discriminate]. cbn [bind].
    intros Hrun Hc. rewrite (IH _ Hrun) by (intros H; apply Hc; now right).
    apply getitem_setitem_other. intros ->. apply Hc. now left.
Qed.

(** A left join keeps a column of its left table under its own name
    when the right table has none of that name; the cells are cells of
    the left column. *)
Lemma merge_left_column left right lo ro out n s :
  let right' :=
    if String.eqb lo ro
    then filter (fun ns : string * Series => negb (String.eqb (fst ns) ro))
                right
    else right in
  merge left right lo ro = Ok out ->
  (forall m, In m (columns left) -> ~ In m (columns right')) ->
  getitem left n = Ok s ->
  exists idx, getitem out n = Ok (mkSeries (dt s) (take idx (values s))).
Proof.
  intros right'. unfold merge.
  destruct (getitem left lo) as [lk|]; [|discriminate]. cbn [bind].
  destruct (getitem right ro) as [rk|]; [|discriminate]. cbn [bind].
  fold right'. intros [= <-] Hdis Hs.
  exists (map fst (left_indexer (values lk) (values rk))).
  set (h := fun x : Series =>
              mkSeries (dt x)
                (take (map fst (left_indexer (values lk) (values rk)))
                      (values x))).
  assert (E : map (fun ns : string * Series =>
                     ((if has_column right' (fst ns)
                       then fst ns ++ "_x" else fst ns)%string,
                      mkSeries (dt (snd ns))
                        (take (map fst (left_indexer (values lk) (values rk)))
                              (values (snd ns))))) left
              = map (fun ns : string * Series => (fst ns, h (snd ns))) left).
  { apply map_ext_in. intros [k x] Hin. cbn [fst snd].
    replace (has_column right' k) with false; [reflexivity|].
    symmetry. apply has_column_false. apply Hdis.
    unfold columns. apply in_map_iff. exists (k, x). auto. }
  rewrite E. apply getitem_app_l. rewrite (getitem_map_values h), Hs.
  reflexivity.
Qed.

Lemma built_category_column cc (grid : list SalesRecord) ext edc data :
  names_ok cc ext edc = true ->
  build_features cc grid ext edc = Ok data ->
  In "date" (columns data) /\ In "quantity_sold" (columns data) /\
  exists cat,
    getitem data cc = Ok cat /\
    forall c, In (Str c) (values cat) -> In c (map category grid).
Proof.
  intros Hok Hrun.
  destruct (build_features_columns _ _ _ _ _ Hok Hrun) as (R & Hcols & _).
  split; [rewrite Hcols; now left|].
  split; [rewrite Hcols; right; right; now left|].
  pose proof (names_ok_category _ _ _ Hok) as Hcc.
  unfold build_features in Hrun.
  set (D := mkSeries Datetime (map (fun r => Day (date r)) grid)) in *.
  rewrite (add_calendar_fresh (to_frame cc grid) D) in Hrun; [|reflexivity|].
  2:{ intros n Hn. cbn [to_frame columns map fst]. intros [<-|[<-|[<-|[]]]].
      - revert Hn. unfold calendar_names. simpl. intuition discriminate.
      - apply Hcc. simpl. simpl in Hn. tauto.
      - revert Hn. unfold calendar_names. simpl. intuition discriminate. }
  cbn [bind] in Hrun.
  set (L := to_frame cc grid ++ calendar_of D) in *.
  assert (HL : columns L = grid_columns cc) by reflexivity.
  destruct (merge L ext "date" edc) as [merged|] eqn:Hm; [|discriminate].
  cbn [bind] in Hrun.
  assert (Hcat : getitem L cc
                 = Ok (mkSeries Object (map (fun r => Str (category r)) grid))).
  { unfold L, to_frame. cbn [app getitem].
    replace (String.eqb "date" cc) with false.
    - now rewrite String.eqb_refl.
    - symmetry. apply String.eqb_neq. intros <-. apply Hcc. now left. }
  destruct (merge_left_column L ext "date" edc merged cc
              (mkSeries Object (map (fun r => Str (category r)) grid)) Hm)
    as (idx & Hidx); [|exact Hcat|].
  { intros m Hm' Hr. rewrite HL in Hm'.
    destruct (String.eqb "date" edc) eqn:Ee.
    - apply in_columns_filter_other in Hr. destruct Hr as [Hne Hin].
      destruct (names_ok_external _ _ _ _ Hok Hin) as [[-> _]|H]; tauto.
    - destruct (names_ok_external _ _ _ _ Hok Hr) as [[_ ->]|H]; auto.
      now rewrite String.eqb_refl in Ee. }
  eexists. split.
  - rewrite (ffill_columns_keeps _ _ _ cc Hrun); [exact Hidx|].
    intros Hin. apply filter_In in Hin. destruct Hin as [Hin _].
    destruct (names_ok_external _ _ _ _ Hok Hin) as [[-> ->]|H].
    + apply Hcc. now left.
    + apply H. unfold grid_columns. right. now left.
  - cbn [values]. intros c Hc. apply in_take in Hc.
    destruct Hc as [Hc|Hc]; [discriminate|].
    apply in_map_iff in Hc. destruct Hc as (r & [= <-] & Hr).
    now apply in_map.
Qed.

Section Regressor.
Variable Model : Type.
Variable evaluate_model : DataFrame -> Series -> result Model.
Variable predict : Model -> DataFrame -> result (list cell).
Variable float_mean : list Q -> Q.

(** The training loop stops at the first category that fails. *)
Lemma train_loop_fails (categories : list string) (data : DataFrame)
    (category_col c : string) :
  In c categories ->
  (forall files, exists e,
      train_model Model evaluate_model float_mean c data category_col files = Raise e) ->
  forall models files, exists e,
    train_loop Model evaluate_model float_mean categories data category_col models files
    = Raise e.
Proof.
  intros Hin Hfail.
  induction categories as [|k cats IH]; [contradiction|].
  intros models files. cbn [train_loop].
  destruct (train_model Model evaluate_model float_mean k data category_col files)
    as [[m f]|e] eqn:Hk; cbn [bind]; [|eauto].
  destruct Hin as [->|Hin].
  - destruct (Hfail files) as (e & He). congruence.
  - apply IH. exact Hin.
Qed.

(** X20. [main] needs sales of every configured category: when one of
    [PRODUCT_CATEGORIES] does not occur in the sales, its training
    matrix has no rows, the regressor refuses it (as scikit-learn does an
    empty sample), and [main] ends with that exception: no forecast is
    made. *)
Theorem main_needs_every_configured_category
    (category_col : string) (daily_sales : list SalesRecord)
    (external_factors : DataFrame) (c : string)
    (Hnames : forall edc,
        SchemaResolver.find_column_by_pattern external_factors ["date"]
        = Ok edc ->
        names_ok category_col external_factors edc = true)
    (Hconfigured : In c PRODUCT_CATEGORIES)
    (Hunobserved : ~ In c (map category daily_sales))
    (Hempty : forall X y,
        (forall n s, In (n, s) X -> values s = []) -> values y = [] ->
        exists e, evaluate_model X y = Raise e) :
  exists e,
    main Model evaluate_model predict float_mean category_col daily_sales
         external_factors = Raise e.
Proof.
  unfold main.
  destruct (load_and_prepare_data category_col daily_sales external_factors)
    as [data|e] eqn:Hload; cbn [bind]; [|eauto].
  unfold load_and_prepare_data in Hload.
  destruct (SchemaResolver.find_column_by_pattern external_factors ["date"])
    as [edc|] eqn:Hfind; [|discriminate]. cbn [bind] in Hload.
  destruct (complete daily_sales) as [grid|] eqn:Hgrid; [|discriminate].
  cbn [bind] in Hload.
  pose proof (Hnames edc eq_refl) as Hok.
  destruct (built_category_column _ _ _ _ _ Hok Hload)
    as (Hdate & Hqty & cat & Hcat & Hcats).
  destruct (train_loop_fails PRODUCT_CATEGORIES data category_col c
              Hconfigured) with (models := @nil (string * Model))
                                (files := @nil (string * Model))
    as (e & He).
  - intros files. unfold train_model.
    destruct (absent_category_slice float_mean data category_col c cat)
      as (X & y & HXy & Hy & HX); auto.
    + intros Hin. apply Hunobserved.
      apply (complete_categories _ _ _ Hgrid). now apply Hcats.
    + intros ->. apply (names_ok_category _ _ _ Hok). right. now left.
    + rewrite HXy. cbn [bind fst snd].
      destruct (Hempty X y HX Hy) as (e & He). rewrite He.
      cbn [bind]. eauto.
  - rewrite He. cbn [bind]. eauto.
Qed.

(** The prediction loop adds one column per model, after the feature
    columns and in the order of the models, when the category names are
    distinct and none is the name of a feature. *)
Lemma predict_loop_columns (models : list (string * Model))
    (forecast_df out : DataFrame) :
  NoDup (map fst models) ->
  (forall c, In c (map fst models) -> ~ In c (columns forecast_df)) ->
  predict_loop Model predict forecast_df models = Ok out ->
  columns out = columns forecast_df ++ map fst models.
Proof.
  revert forecast_df.
  induction models as [|[c m] models IH]; intros fdf Hnd Hfresh;
    cbn [predict_loop map fst].
  - intros [= <-]. now rewrite app_nil_r.
  - inversion Hnd as [|? ? Hc Hnd']; subst.
    unfold predict_step at 1.
    destruct (X_forecast fdf) as [X|]; [|discriminate]. cbn [bind].
    destruct (predict (snd (c, m)) X) as [yhat|]; [|discriminate].
    cbn [bind fst]. intros Hrun.
    assert (Hfc : ~ In c (columns fdf)) by (apply Hfresh; now left).
    apply IH in Hrun; auto.
    + rewrite Hrun, columns_setitem_absent by assumption.
      unfold columns. rewrite map_app, <- app_assoc. reflexivity.
    + intros k Hk. rewrite columns_setitem_absent by assumption.
      unfold columns. rewrite map_app. intros Hin.
      apply in_app_or in Hin. destruct Hin as [Hin|[<-|[]]].
      * apply (Hfresh k); [now right|exact Hin].
      * contradiction.
Qed.

(** X21. The forecast table is laid out as: the date, the six calendar
    features, the external columns of the feature table, then one
    prediction column per model in the order of the models. *)
Theorem generate_forecast_columns (models : list (string * Model))
    (data : DataFrame) (category_col : string) (days : nat)
    (forecast : DataFrame)
    (Hdata : NoDup (columns data))
    (Hmodels : NoDup (map fst models))
    (Hfresh : forall c, In c (map fst models) ->
       ~ In c ("date" :: calendar_names
               ++ external_factor_cols data category_col))
    (Hrun : generate_forecast Model predict models data category_col days
            = Ok forecast) :
  columns forecast =
  "date" :: calendar_names ++ external_factor_cols data category_col
  ++ map fst models.
Proof.
  unfold generate_forecast in Hrun.
  destruct (future_features data category_col days) as [fdf|] eqn:Hf;
    [|discriminate]. cbn [bind] in Hrun.
  pose proof (future_features_columns _ _ _ _ Hdata Hf) as Hc.
  apply predict_loop_columns in Hrun; auto.
  - rewrite Hrun, Hc. cbn [app]. now rewrite <- app_assoc.
  - intros c Hin. rewrite Hc. now apply Hfresh.
Qed.

End Regressor.

Lemma main_needs_every_configured_category_witness :
  exists e,
    main (list string) schema_trainer checked_predict exact_mean "category"
         two_category_sales two_factors = Raise e.
Proof.
  apply (main_needs_every_configured_category
           (list string) schema_trainer checked_predict exact_mean
           "category" two_category_sales two_factors "handgun").
  - intros edc Hfind. vm_compute in Hfind. inversion Hfind. reflexivity.
  - cbn. auto.
  - cbn. intuition discriminate.
  - intros X y HX _. unfold schema_trainer.
    replace (nrows X) with 0%nat; [cbn; eauto|].
    destruct X as [|[n s] X]; [reflexivity|]. cbn [nrows].
    now rewrite (HX n s (or_introl eq_refl)).
Defined.

Lemma generate_forecast_columns_witness :
  exists forecast,
    generate_forecast (list string) checked_predict
      [("ammunition", training_schema)] prepared_data "category" 5
    = Ok forecast /\
    columns forecast =
    "date" :: calendar_names
    ++ external_factor_cols prepared_data "category" ++ ["ammunition"].
Proof.
  destruct (generate_forecast (list string) checked_predict
              [("ammunition", training_schema)] prepared_data "category" 5)
    as [forecast|e] eqn:Hrun; [|vm_compute in Hrun; discriminate].
  exists forecast. split; [reflexivity|].
  apply (generate_forecast_columns
           (list string) checked_predict [("ammunition", training_schema)]
           prepared_data "category" 5%nat forecast).
  - vm_compute. repeat constructor; cbn; intuition discriminate.
  - repeat constructor. cbn. tauto.
  - intros c [<-|[]]. vm_compute. intuition discriminate.
  - exact Hrun.
Defined.

End PipelineFacts.

(** *** External-factor analysis *)

Module ExternalFactorsFacts.
Import CalendarCompleter Frame FeatureBuilder ExternalFactors.
Import ListFacts FrameFacts FeatureBuilderFacts CalendarFacts.




(** The join of the sparse sales: the day the external table does not
    know keeps a missing factor. *)
Example sparse_sales_joined :
  exists data,
    load_data "category" sparse_sales sparse_factors = Ok (data, "Date") /\
    getitem data "political_climate"
      = Ok (mkSeries Numeric [Num 3; Num 3; NaN; Num 5]).
Proof. eexists. split; reflexivity. Qed.

Lemma season_of_month m :
  1 <= m <= 12 ->
  In (season_of m) [Str "Winter"; Str "Spring"; Str "Summer"; Str "Fall"].
Proof.
  intros H. unfold season_of.
  assert (Hm : m = 1 \/ m = 2 \/ m = 3 \/ m = 4 \/ m = 5 \/ m = 6 \/ m = 7 \/
               m = 8 \/ m = 9 \/ m = 10 \/ m = 11 \/ m = 12) by lia.
  repeat (destruct Hm as [->|Hm]; [cbn; auto 6|]). subst. cbn. auto.
Qed.

(** X23. [analyze_seasonal_impact] leaves its two columns in the caller's
    table and changes no other: on a dated row [month_name] is the
    abbreviation of the row's month and [season] the season of that
    month, never a missing one; on a row without a date both are
    missing.  [analyze_events_impact], run on the same table afterwards,
    takes the [season] column for an event. *)
Theorem seasons_become_events (data : DataFrame) (ds : Series)
    (Hds : getitem data "date" = Ok ds) :
  exists data' mn s,
    add_seasons data = Ok data' /\
    getitem data' "month_name" = Ok mn /\
    getitem data' "season" = Ok s /\
    List.length (values mn) = List.length (values ds) /\
    List.length (values s) = List.length (values ds) /\
    (forall i d, nth i (values ds) NaN = Day d ->
       let m := month d in
       1 <= m <= 12 /\
       nth i (values mn) NaN
       = Str (nth (Z.to_nat (m - 1))
                  ["Jan"; "Feb"; "Mar"; "Apr"; "May"; "Jun";
                   "Jul"; "Aug"; "Sep"; "Oct"; "Nov"; "Dec"] "") /\
       (In m [12; 1; 2] -> nth i (values s) NaN = Str "Winter") /\
       (In m [3; 4; 5] -> nth i (values s) NaN = Str "Spring") /\
       (In m [6; 7; 8] -> nth i (values s) NaN = Str "Summer") /\
       (In m [9; 10; 11] -> nth i (values s) NaN = Str "Fall")) /\
    (forall i, nth i (values ds) NaN = NaN ->
       nth i (values mn) NaN = NaN /\ nth i (values s) NaN = NaN) /\
    (forall n, n <> "month_name" -> n <> "season" ->
       getitem data' n = getitem data n) /\
    In "season" (event_cols data').
Proof.
  unfold add_seasons. rewrite Hds. cbn [bind].
  rewrite getitem_setitem_other by discriminate. rewrite Hds. cbn [bind].
  eexists. exists (month_name_column ds), (season_column ds).
  split; [reflexivity|].
  split; [rewrite getitem_setitem_other by discriminate;
          apply getitem_setitem_same|].
  split; [apply getitem_setitem_same|].
  split; [unfold month_name_column; cbn [values]; apply length_map|].
  split; [unfold season_column; cbn [values]; apply length_map|].
  set (f := fun c => match c with
                     | Day x => Str (month_abbr (month x))
                     | _ => NaN
                     end).
  set (g := fun c => match c with
                     | Day x => season_of (month x)
                     | _ => NaN
                     end).
  assert (Hmn : forall i, nth i (values (month_name_column ds)) NaN
                          = f (nth i (values ds) NaN)).
  { intros i. unfold month_name_column. cbn [values]. fold f.
    change (nth i (map f (values ds)) NaN)
      with (nth i (map f (values ds)) (f NaN)).
    apply map_nth. }
  assert (Hs : forall i, nth i (values (season_column ds)) NaN
                         = g (nth i (values ds) NaN)).
  { intros i. unfold season_column. cbn [values]. fold g.
    change (nth i (map g (values ds)) NaN)
      with (nth i (map g (values ds)) (g NaN)).
    apply map_nth. }
  split; [|split; [|split]].
  - intros i d Hi. cbv zeta. rewrite Hmn, Hs, Hi. unfold f, g.
    destruct (civil_ranges d) as [Hm _]. split; [exact Hm|].
    split; [reflexivity|].
    unfold season_of.
    repeat split; intros Hin; cbn [In] in Hin;
      repeat (destruct Hin as [<-|Hin]; [reflexivity|]); destruct Hin.
  - intros i Hi. now rewrite Hmn, Hs, Hi.
  - intros n Hn1 Hn2.
    rewrite getitem_setitem_other by congruence.
    apply getitem_setitem_other. congruence.
  - unfold event_cols, event_patterns. apply in_flat_map.
    exists "season". split; [cbn; auto 6|].
    apply filter_In. split; [|reflexivity].
    eapply getitem_In. apply getitem_setitem_same.
Qed.

Lemma seasons_become_events_witness :
  exists data' mn s,
    add_seasons (to_frame "category" sparse_sales) = Ok data' /\
    getitem data' "month_name" = Ok mn /\
    getitem data' "season" = Ok s /\
    List.length (values mn) = 4%nat /\
    List.length (values s) = 4%nat /\
    (forall i d,
        nth i [Day 19723; Day 19723; Day 19725; Day 19727] NaN = Day d ->
        let m := month d in
        1 <= m <= 12 /\
        nth i (values mn) NaN
        = Str (nth (Z.to_nat (m - 1))
                   ["Jan"; "Feb"; "Mar"; "Apr"; "May"; "Jun";
                    "Jul"; "Aug"; "Sep"; "Oct"; "Nov"; "Dec"] "") /\
        (In m [12; 1; 2] -> nth i (values s) NaN = Str "Winter") /\
        (In m [3; 4; 5] -> nth i (values s) NaN = Str "Spring") /\
        (In m [6; 7; 8] -> nth i (values s) NaN = Str "Summer") /\
        (In m [9; 10; 11] -> nth i (values s) NaN = Str "Fall")) /\
    (forall i,
        nth i [Day 19723; Day 19723; Day 19725; Day 19727] NaN = NaN ->
        nth i (values mn) NaN = NaN /\ nth i (values s) NaN = NaN) /\
    (forall n, n <> "month_name" -> n <> "season" ->
       getitem data' n = getitem (to_frame "category" sparse_sales) n) /\
    In "season" (event_cols data').
Proof.
  apply (seasons_become_events
           (to_frame "category" sparse_sales)
           (mkSeries Datetime [Day 19723; Day 19723; Day 19725; Day 19727])).
  reflexivity.
Defined.

(** The sparse sales after the seasonal analysis. *)
Example sparse_sales_seasons :
  exists data',
    add_seasons (to_frame "category" sparse_sales) = Ok data' /\
    getitem data' "month_name"
      = Ok (mkSeries Object [Str "Jan"; Str "Jan"; Str "Jan"; Str "Jan"]) /\
    getitem data' "season"
      = Ok (mkSeries Object
              [Str "Winter"; Str "Winter"; Str "Winter"; Str "Winter"]) /\
    event_cols data' = ["season"].
Proof. eexists. repeat split. Qed.

End ExternalFactorsFacts.
